(** * UMAC/RCAT pairs trading: the strategy and the trade-ledger loader

    A shallow embedding of [scripts/umacrcatpairstrader.py] (the class
    [UMACRCATPairsStrategy]) and of [load_and_process_trades] from
    [scripts/tradescsvtosharpe.py], with the properties the specification
    states about them.

    Python floats are idealised as real numbers ([R]): no rounding error, no
    NaN, no infinity.  Where a decision of the code hangs on the exact value
    a float computation returns (the test [spread_std == 0]), the cycle is
    also given over the float operations as parameters ([Floats]).  Python
    ints are [Z].  Class variables, the orders sent to the order collaborator
    and the timers scheduled on the service live in one explicit [World],
    threaded through a small exception monad. *)

From Stdlib Require Import Reals Lra Lia ZArith List String Bool Sorted.
Import ListNotations.

Open Scope Z_scope.
Open Scope R_scope.

(** ** Python and numpy primitives *)

Module Py.

(** [int(x)] on a float: truncation toward zero. *)
Definition int (x : R) : Z :=
  if Rle_dec 0 x then Int_part x else (- Int_part (- x))%Z.

(** [len(l)] as a Python int. *)
Definition len {A : Type} (l : list A) : Z := Z.of_nat (List.length l).

(** [l[-1]]; [None] stands for the [IndexError] of the empty list. *)
Definition last_item {A : Type} (l : list A) : option A :=
  match rev l with
  | [] => None
  | x :: _ => Some x
  end.

(** [l[-n:]] for [n >= 0]: the last [n] items, and the whole list when
    [n = 0] (the slice [l[-0:]] is [l[0:]]) or when [n] exceeds the length. *)
Definition tail_slice {A : Type} (n : nat) (l : list A) : list A :=
  match n with
  | O => l
  | _ => skipn (List.length l - n) l
  end.

(** [sum] of a list of floats. *)
Fixpoint sum (l : list R) : R :=
  match l with
  | [] => 0
  | x :: t => x + sum t
  end.

End Py.

Module Np.

(** [np.mean(l)]. *)
Definition mean (l : list R) : R := Py.sum l / IZR (Py.len l).

(** The sum of squared deviations from the mean, divided by [len(l) - ddof]. *)
Definition var_ddof (ddof : Z) (l : list R) : R :=
  Py.sum (map (fun x => (x - mean l) * (x - mean l)) l)
  / IZR (Py.len l - ddof).

(** [np.std(l)]: numpy's default is [ddof=0], the divisor is [len(l)]. *)
Definition std (l : list R) : R := sqrt (var_ddof 0 l).

End Np.

(** The sample standard deviation as the specification words it
    (ddof=1, divisor [L - 1]); only compared with [Np.std], never used by
    the strategy. *)
Definition spec_sample_std (l : list R) : R := sqrt (Np.var_ddof 1 l).

(** [round(x)] as the specification's invariant uses it: Python rounds to the
    nearest integer, ties to the even one.  Only compared with [Py.int]. *)
Definition spec_round (x : R) : Z :=
  let f := Int_part x in
  if Rlt_dec (x - IZR f) (1 / 2) then f
  else if Rlt_dec (1 / 2) (x - IZR f) then (f + 1)%Z
  else if Z.even f then f else (f + 1)%Z.

(** ** Strategy parameters ([__init__]) *)

Record Config := {
  hedge_ratio : R;
  lookback_period : Z;
  entry_threshold : R;
  exit_threshold : R;
  max_position_size : Z
}.

Definition default_config : Config := {|
  hedge_ratio := 1389508 / 1000000;
  lookback_period := 20;
  entry_threshold := 14 / 10;
  exit_threshold := 2 / 10;
  max_position_size := 1000
|}.

(** ** Class variables *)

Inductive Direction := long_spread | short_spread.

(** The dict [_shared_positions]. *)
Record Positions := {
  umac : Z;
  rcat : Z;
  in_trade : bool;
  trade_direction : option Direction
}.

Definition flat_positions : Positions :=
  {| umac := 0; rcat := 0; in_trade := false; trade_direction := None |}.

Definition Date := Z.

(** ** Collaborators *)

Inductive Side := Buy | Sell.
Inductive Intent := init | exit.

(** One call of [order.algo_buy] or [order.algo_sell]. *)
Record Order := {
  side : Side;
  order_symbol : string;
  algorithm : string;
  intent : Intent;
  order_quantity : option Z
}.

(** Modelled from the spec: the order collaborator ([order.algo_buy],
    [order.algo_sell]) is not part of the source; its interface answers a
    submission with accepted or rejected.  A call returns with one of the two
    answers, which the strategy never binds or reads, or it raises. *)
Inductive Reply := Accepted | Rejected | Raises.

(** [md[sym].bar.daily(start=-lookback)]: the call raises, returns [None], or
    returns bars whose [close] column is the list. *)
Inductive Bars := BarsRaise | BarsNone | BarsClose (close : list R).

(** Market data; [l1] is the value of [md[sym].l1.last()], [None] when there
    is no last price.  The handler of the [try] block around that call is not
    in the source text, so a raising call is not told apart from [None]. *)
Record MarketData := {
  umac_bars : Bars;
  umac_l1 : option R;
  rcat_bars : Bars;
  rcat_l1 : option R
}.

Record Account := { buying_power : R }.

Record Env := {
  md : MarketData;
  account : Account;
  gateway : Order -> Reply
}.

(** ** The world and the monad *)

(** Class variables of [UMACRCATPairsStrategy], the calls made on [order]
    (oldest first, each with the gateway's reply), the number of
    [service.add_time_trigger] calls, and a ghost counter of the calls of
    [execute_pairs_trading_logic]. *)
Record World := {
  last_processed_date : option Date;
  shared_positions : Positions;
  execution_lock : bool;
  orders : list (Order * Reply);
  time_triggers : nat;
  cycles : nat
}.

Definition initial_world : World := {|
  last_processed_date := None;
  shared_positions := flat_positions;
  execution_lock := false;
  orders := [];
  time_triggers := 0;
  cycles := 0
|}.

Inductive Exn := ZeroDivisionError | OrderError.

Inductive Res (A : Type) :=
| Ok (a : A)
| Exc (e : Exn).
Arguments Ok {A} a.
Arguments Exc {A} e.

Definition M (A : Type) : Type := World -> Res A * World.

Definition ret {A : Type} (a : A) : M A := fun w => (Ok a, w).

Definition raise {A : Type} (e : Exn) : M A := fun w => (Exc e, w).

Definition bind {A B : Type} (m : M A) (k : A -> M B) : M B :=
  fun w =>
    match m w with
    | (Ok a, w') => k a w'
    | (Exc e, w') => (Exc e, w')
    end.

Notation "m ;; k" := (bind m (fun _ => k))
  (at level 61, right associativity).

(** [try: m  except Exception: h]. *)
Definition try_except (m h : M unit) : M unit :=
  fun w =>
    match m w with
    | (Ok a, w') => (Ok a, w')
    | (Exc _, w') => h w'
    end.

(** [try: m  finally: f], for an [f] that may itself raise. *)
Definition try_finally (m f : M unit) : M unit :=
  fun w =>
    match m w with
    | (r, w') =>
        match f w' with
        | (Ok _, w'') => (r, w'')
        | (Exc e, w'') => (Exc e, w'')
        end
    end.

Definition set_positions (p : Positions) : M unit :=
  fun w => (Ok tt,
    {| last_processed_date := last_processed_date w;
       shared_positions := p;
       execution_lock := execution_lock w;
       orders := orders w;
       time_triggers := time_triggers w;
       cycles := cycles w |}).

Definition set_execution_lock (b : bool) : M unit :=
  fun w => (Ok tt,
    {| last_processed_date := last_processed_date w;
       shared_positions := shared_positions w;
       execution_lock := b;
       orders := orders w;
       time_triggers := time_triggers w;
       cycles := cycles w |}).

Definition set_last_processed_date (d : Date) : M unit :=
  fun w => (Ok tt,
    {| last_processed_date := Some d;
       shared_positions := shared_positions w;
       execution_lock := execution_lock w;
       orders := orders w;
       time_triggers := time_triggers w;
       cycles := cycles w |}).

Definition add_time_trigger : M unit :=
  fun w => (Ok tt,
    {| last_processed_date := last_processed_date w;
       shared_positions := shared_positions w;
       execution_lock := execution_lock w;
       orders := orders w;
       time_triggers := S (time_triggers w);
       cycles := cycles w |}).

Definition count_cycle : M unit :=
  fun w => (Ok tt,
    {| last_processed_date := last_processed_date w;
       shared_positions := shared_positions w;
       execution_lock := execution_lock w;
       orders := orders w;
       time_triggers := time_triggers w;
       cycles := S (cycles w) |}).

(** A call on the order collaborator: journalled with its reply; raises when
    the collaborator does. *)
Definition submit (gw : Order -> Reply) (o : Order) : M unit :=
  fun w =>
    let w' :=
      {| last_processed_date := last_processed_date w;
         shared_positions := shared_positions w;
         execution_lock := execution_lock w;
         orders := orders w ++ [(o, gw o)];
         time_triggers := time_triggers w;
         cycles := cycles w |} in
    match gw o with
    | Raises => (Exc OrderError, w')
    | _ => (Ok tt, w')
    end.

Definition buy_algorithm : string := "{1f9b553d-30bf-40a3-8868-ebe70b5079b2}".
Definition sell_algorithm : string := "{5fc61945-3498-47da-abf6-b5dabdc9f4ac}".

Definition algo_buy (gw : Order -> Reply) (sym : string) (i : Intent)
    (q : option Z) : M unit :=
  submit gw {| side := Buy; order_symbol := sym; algorithm := buy_algorithm;
               intent := i; order_quantity := q |}.

Definition algo_sell (gw : Order -> Reply) (sym : string) (i : Intent)
    (q : option Z) : M unit :=
  submit gw {| side := Sell; order_symbol := sym; algorithm := sell_algorithm;
               intent := i; order_quantity := q |}.

(** ** The strategy *)

(** Float comparisons as booleans. *)
Definition gtb (x y : R) : bool := if Rgt_dec x y then true else false.
Definition ltb (x y : R) : bool := if Rlt_dec x y then true else false.
Definition eqb (x y : R) : bool := if Req_dec_T x y then true else false.

Definition direction_is (d : option Direction) (d' : Direction) : bool :=
  match d, d' with
  | Some long_spread, long_spread => true
  | Some short_spread, short_spread => true
  | _, _ => false
  end.

(** [x / y] on Python floats raises [ZeroDivisionError] when [y] is zero. *)
Definition float_div (x y : R) : M R :=
  if eqb y 0 then raise ZeroDivisionError else ret (x / y).

Section Strategy.

Variable self : Config.
Variable env : Env.

(** [enter_long_spread]: long UMAC, short RCAT. *)
Definition enter_long_spread (umac_current_price rcat_current_price : R)
    : M unit :=
  let current_umac := umac_current_price in
  let available_capital := buying_power (account env) / 2 in
  bind (float_div available_capital current_umac) (fun q =>
  let umac_shares := Z.min (max_position_size self) (Py.int q) in
  let rcat_shares := Py.int (IZR umac_shares * hedge_ratio self) in
  if ((0 <? umac_shares) && (0 <? rcat_shares))%Z then
    try_except
      (algo_buy (gateway env) "UMAC" init (Some umac_shares) ;;
       algo_sell (gateway env) "RCAT" init (Some rcat_shares) ;;
       set_positions {| umac := umac_shares;
                        rcat := - rcat_shares;
                        in_trade := true;
                        trade_direction := Some long_spread |})
      (ret tt)
  else ret tt).

(** [enter_short_spread]: short UMAC, long RCAT.  The handler of its [try]
    block is not in the source text; it is taken to be the one of
    [enter_long_spread], which only reports the exception. *)
Definition enter_short_spread (umac_current_price rcat_current_price : R)
    : M unit :=
  let current_umac := umac_current_price in
  let available_capital := buying_power (account env) / 2 in
  bind (float_div available_capital current_umac) (fun q =>
  let umac_shares := Z.min (max_position_size self) (Py.int q) in
  let rcat_shares := Py.int (IZR umac_shares * hedge_ratio self) in
  if ((0 <? umac_shares) && (0 <? rcat_shares))%Z then
    try_except
      (algo_sell (gateway env) "UMAC" init (Some umac_shares) ;;
       algo_buy (gateway env) "RCAT" init (Some rcat_shares) ;;
       set_positions {| umac := - umac_shares;
                        rcat := rcat_shares;
                        in_trade := true;
                        trade_direction := Some short_spread |})
      (ret tt)
  else ret tt).

(** The order that closes one leg: a sell for a long position, a buy for a
    short one, nothing for an empty one; no quantity is given. *)
Definition close_leg (sym : string) (pos : Z) : M unit :=
  if (0 <? pos)%Z then algo_sell (gateway env) sym exit None
  else if (pos <? 0)%Z then algo_buy (gateway env) sym exit None
  else ret tt.

(** [close_positions].  The handler of its [try] block is not in the source
    text either and is taken to only report the exception. *)
Definition close_positions : M unit :=
  try_except
    (fun w =>
       let umac_pos := umac (shared_positions w) in
       let rcat_pos := rcat (shared_positions w) in
       (close_leg "UMAC" umac_pos ;;
        close_leg "RCAT" rcat_pos ;;
        set_positions flat_positions) w)
    (ret tt).

Definition check_entry_signals (z_score umac_current_price
    rcat_current_price : R) : M unit :=
  if gtb z_score (entry_threshold self) then
    enter_short_spread umac_current_price rcat_current_price
  else if ltb z_score (- entry_threshold self) then
    enter_long_spread umac_current_price rcat_current_price
  else ret tt.

Definition check_exit_signals (z_score : R) : M unit :=
  fun w =>
    let direction := trade_direction (shared_positions w) in
    let should_exit :=
      if direction_is direction long_spread
         && gtb z_score (- exit_threshold self) then true
      else if direction_is direction short_spread
              && ltb z_score (exit_threshold self) then true
      else false in
    if should_exit then close_positions w else ret tt w.

(** Lines 124-128: entries are looked for when not in a trade, exits when in
    one. *)
Definition trading_logic (z_score umac_current_price rcat_current_price : R)
    : M unit :=
  fun w =>
    if negb (in_trade (shared_positions w)) then
      check_entry_signals z_score umac_current_price rcat_current_price w
    else check_exit_signals z_score w.

(** The current price of one symbol: the last daily close, replaced by the
    last L1 price when there is one and it is positive. *)
Definition current_price (last_close : R) (l1 : option R) : R :=
  match l1 with
  | Some p => if gtb p 0 then p else last_close
  | None => last_close
  end.

(** Lines 65-76 and 79-90 for one symbol: [None] when the function returns
    (no bars, too few bars) or when the handler of line 92 does (the bars
    call raised, [prices[-1]] on an empty list). *)
Definition get_data (bars : Bars) (l1 : option R) : option (list R * R) :=
  match bars with
  | BarsClose close =>
      if (Py.len close <? lookback_period self)%Z then None
      else
        match Py.last_item close with
        | Some last_close => Some (close, current_price last_close l1)
        | None => None
        end
  | _ => None
  end.

(** Lines 96-108 once both lists passed line 97. *)
Definition spread_history (umac_prices rcat_prices : list R) : list R :=
  let min_length := Nat.min (List.length umac_prices) (List.length rcat_prices) in
  let umac_recent := Py.tail_slice min_length umac_prices in
  let rcat_recent := Py.tail_slice min_length rcat_prices in
  map (fun ur => fst ur - hedge_ratio self * snd ur)
      (combine umac_recent rcat_recent).

Definition execute_pairs_trading_logic : M unit :=
  match get_data (umac_bars (md env)) (umac_l1 (md env)) with
  | None => ret tt
  | Some (umac_prices, umac_current_price) =>
  match get_data (rcat_bars (md env)) (rcat_l1 (md env)) with
  | None => ret tt
  | Some (rcat_prices, rcat_current_price) =>
      let min_length := Z.min (Py.len umac_prices) (Py.len rcat_prices) in
      if (min_length <? lookback_period self)%Z then ret tt
      else
        let spread_history := spread_history umac_prices rcat_prices in
        let current_spread :=
          umac_current_price - hedge_ratio self * rcat_current_price in
        let spread_mean := Np.mean spread_history in
        let spread_std := Np.std spread_history in
        if eqb spread_std 0 then ret tt
        else
          let z_score := (current_spread - spread_mean) / spread_std in
          trading_logic z_score umac_current_price rcat_current_price
  end
  end.

End Strategy.

(** ** The cycle on the floats as they are computed

    [execute_pairs_trading_logic] above takes the arithmetic of lines 107-121
    and numpy's [np.mean] and [np.std] to be exact.  On doubles they round,
    and the test of line 117 is on the value [np.std] returns: a history
    whose spreads are all equal need not give 0.  The same cycle is therefore
    also given with these operations as parameters; comparisons and [len]
    are exact on doubles and stay as they are. *)

(** The float operations a cycle uses up to its decision: [a - b], [a * b]
    and [a / b] on floats, [np.mean] and [np.std]. *)
Record Floats := {
  float_sub : R -> R -> R;
  float_mul : R -> R -> R;
  float_quot : R -> R -> R;
  np_mean : list R -> R;
  np_std : list R -> R
}.

(** The operations without rounding. *)
Definition exact_floats : Floats := {|
  float_sub := Rminus;
  float_mul := Rmult;
  float_quot := Rdiv;
  np_mean := Np.mean;
  np_std := Np.std
|}.

Section OnFloats.

Variable fl : Floats.
Variable self : Config.
Variable env : Env.

(** Lines 96-108 on the given float operations. *)
Definition spread_history_on (umac_prices rcat_prices : list R) : list R :=
  let min_length := Nat.min (List.length umac_prices) (List.length rcat_prices) in
  let umac_recent := Py.tail_slice min_length umac_prices in
  let rcat_recent := Py.tail_slice min_length rcat_prices in
  map (fun ur => float_sub fl (fst ur) (float_mul fl (hedge_ratio self) (snd ur)))
      (combine umac_recent rcat_recent).

(** [execute_pairs_trading_logic] on the given float operations. *)
Definition execute_pairs_trading_logic_on : M unit :=
  match get_data self (umac_bars (md env)) (umac_l1 (md env)) with
  | None => ret tt
  | Some (umac_prices, umac_current_price) =>
  match get_data self (rcat_bars (md env)) (rcat_l1 (md env)) with
  | None => ret tt
  | Some (rcat_prices, rcat_current_price) =>
      let min_length := Z.min (Py.len umac_prices) (Py.len rcat_prices) in
      if (min_length <? lookback_period self)%Z then ret tt
      else
        let spread_history := spread_history_on umac_prices rcat_prices in
        let current_spread :=
          float_sub fl umac_current_price
            (float_mul fl (hedge_ratio self) rcat_current_price) in
        let spread_mean := np_mean fl spread_history in
        let spread_std := np_std fl spread_history in
        if eqb spread_std 0 then ret tt
        else
          let z_score :=
            float_quot fl (float_sub fl current_spread spread_mean)
              spread_std in
          trading_logic self env z_score umac_current_price
            rcat_current_price
  end
  end.

End OnFloats.

(** ** The daily trigger *)

Record Event := { timer_id : string; timestamp : Date }.

(** One strategy instance: its symbol and its parameters. *)
Record Strategy := { symbol : string; params : Config }.

Definition date_differs (last : option Date) (d : Date) : bool :=
  match last with
  | Some d' => negb (d' =? d)%Z
  | None => true
  end.

(** The two tests of [on_timer]: the event is the daily update delivered to
    the RCAT instance, and the day is not processed yet and no execution is
    in progress. *)
Definition is_coordinator (self : Strategy) (ev : Event) : bool :=
  (timer_id ev =? "daily_pairs_update")%string
  && (symbol self =? "RCAT")%string.

Definition may_process (ev : Event) (w : World) : bool :=
  date_differs (last_processed_date w) (timestamp ev)
  && negb (execution_lock w).

Definition on_timer (self : Strategy) (ev : Event) (env : Env) : M unit :=
  fun w =>
    if is_coordinator self ev then
      let current_date := timestamp ev in
      if may_process ev w then
        (set_execution_lock true ;;
         try_finally
           (try_except
              (count_cycle ;;
               execute_pairs_trading_logic (params self) env ;;
               set_last_processed_date current_date)
              (ret tt))
           (set_execution_lock false) ;;
         add_time_trigger) w
      else ret tt w
    else ret tt w.

(** ** The trade-ledger loader ([tradescsvtosharpe.py]) *)

(** A parsed [entry_time] or [exit_time]: its calendar day ([.dt.date]) and
    the time within the day.  Every row is taken to have valid times. *)
Record Timestamp := { day : Date; seconds : Z }.

(** One row of the ledger, with the columns the loader reads. *)
Record Trade := {
  trade_symbol : string;
  entry_date : Timestamp;
  exit_date : Timestamp;
  entry_shares : R;
  entry_price : R;
  entry_pl : R;
  exit_fees : R
}.

Definition entry_date_only (t : Trade) : Date := day (entry_date t).

(** One dict appended to [pairs_sessions]. *)
Record Session := {
  date : Date;
  session_entry_date : Timestamp;
  session_exit_date : Timestamp;
  net_pl : R;
  capital_deployed : R;
  session_return : R
}.

(** The keys of [df.groupby(...)]: each distinct value once, ascending. *)
Fixpoint insert_key (k : Date) (keys : list Date) : list Date :=
  match keys with
  | [] => [k]
  | k' :: rest =>
      if (k <? k')%Z then k :: keys
      else if (k =? k')%Z then keys
      else k' :: insert_key k rest
  end.

Definition group_keys (df : list Trade) : list Date :=
  fold_right insert_key [] (map entry_date_only df).

(** [df.groupby('entry_date_only')]: every key with its rows, in ledger
    order. *)
Definition groupby (df : list Trade) : list (Date * list Trade) :=
  map (fun d => (d, filter (fun t => (entry_date_only t =? d)%Z) df))
      (group_keys df).

Definition has_symbol (s : string) (t : Trade) : bool :=
  (trade_symbol t =? s)%string.

(** The body of the loop (lines 28-55) for one group: the sessions it
    appends. *)
Definition session_of_group (g : Date * list Trade) : list Session :=
  let (date, group) := g in
  let umac_trade := filter (has_symbol "UMAC") group in
  let rcat_trade := filter (has_symbol "RCAT") group in
  if ((List.length umac_trade =? 1) && (List.length rcat_trade =? 1))%nat then
    match umac_trade, rcat_trade with
    | umac :: _, rcat :: _ =>
        let total_pl := entry_pl umac + entry_pl rcat in
        let total_fees := exit_fees umac + exit_fees rcat in
        let net_pl := total_pl - total_fees in
        let umac_capital := Rabs (entry_shares umac) * entry_price umac in
        let rcat_capital := Rabs (entry_shares rcat) * entry_price rcat in
        let total_capital := umac_capital + rcat_capital in
        let session_return :=
          if gtb total_capital 0 then net_pl / total_capital else 0 in
        [ {| date := date;
             session_entry_date := entry_date umac;
             session_exit_date := exit_date umac;
             net_pl := net_pl;
             capital_deployed := total_capital;
             session_return := session_return |} ]
    | _, _ => []
    end
  else [].

(** The list [pairs_sessions] when the loop ends. *)
Definition pairs_sessions (df : list Trade) : list Session :=
  flat_map session_of_group (groupby df).

Definition timestamp_leb (a b : Timestamp) : bool :=
  (day a <? day b)%Z || ((day a =? day b)%Z && (seconds a <=? seconds b)%Z).

(** [sort_values('entry_date')] on the sessions. *)
Fixpoint insert_session (s : Session) (l : list Session) : list Session :=
  match l with
  | [] => [s]
  | s' :: rest =>
      if timestamp_leb (session_entry_date s) (session_entry_date s')
      then s :: l
      else s' :: insert_session s rest
  end.

Definition sort_values (l : list Session) : list Session :=
  fold_right insert_session [] l.

(** [load_and_process_trades] on the rows of the CSV file.  With no session
    the DataFrame has no column and sorting it by ['entry_date'] raises
    [KeyError]: [None]. *)
Definition load_and_process_trades (df : list Trade) : option (list Session) :=
  match pairs_sessions df with
  | [] => None
  | sessions => Some (sort_values sessions)
  end.

(** How many rows of the ledger have the symbol and the entry date. *)
Definition rows_on (s : string) (d : Date) (df : list Trade) : nat :=
  List.length
    (filter (fun t => has_symbol s t && (entry_date_only t =? d)%Z) df).

(** An entry date the loader keeps: exactly one UMAC row and exactly one RCAT
    row. *)
Definition paired (df : list Trade) (d : Date) : bool :=
  ((rows_on "UMAC" d df =? 1) && (rows_on "RCAT" d df =? 1))%nat.

(** ** The position state of the specification *)

Inductive PositionState := Flat | LongSpread | ShortSpread.

(** The state the class variables record: a direction counts only while
    [in_trade] is set. *)
Definition position_state (p : Positions) : PositionState :=
  if in_trade p then
    match trade_direction p with
    | Some long_spread => LongSpread
    | Some short_spread => ShortSpread
    | None => Flat
    end
  else Flat.

(** [in_trade] is set exactly when a direction is recorded. *)
Definition consistent (p : Positions) : Prop :=
  in_trade p = true <-> trade_direction p <> None.

(** The closing calls [close_positions] makes for the recorded legs when none
    of them raises. *)
Definition closing_order (sym : string) (pos : Z) : list Order :=
  if (0 <? pos)%Z then
    [ {| side := Sell; order_symbol := sym; algorithm := sell_algorithm;
         intent := exit; order_quantity := None |} ]
  else if (pos <? 0)%Z then
    [ {| side := Buy; order_symbol := sym; algorithm := buy_algorithm;
         intent := exit; order_quantity := None |} ]
  else [].

Definition closing_orders (p : Positions) : list Order :=
  closing_order "UMAC" (umac p) ++ closing_order "RCAT" (rcat p).

(** The trigger record, the timers and the cycle counter are the same in
    both worlds. *)
Definition same_trigger (w w' : World) : Prop :=
  last_processed_date w' = last_processed_date w
  /\ execution_lock w' = execution_lock w
  /\ time_triggers w' = time_triggers w
  /\ cycles w' = cycles w.

Definition keeps_trigger {A : Type} (m : M A) : Prop :=
  forall w, same_trigger w (snd (m w)).

(** One decision cycle on a given Z-score: the collaborators of the day, the
    Z-score and the two current prices. *)
Record Input := {
  input_env : Env;
  input_z : R;
  input_umac_price : R;
  input_rcat_price : R
}.

Definition cycle (cfg : Config) (i : Input) (w : World) : World :=
  snd (trading_logic cfg (input_env i) (input_z i) (input_umac_price i)
         (input_rcat_price i) w).

(** The world after a sequence of decision cycles, oldest first. *)
Definition run_cycles (cfg : Config) (inputs : list Input) (w : World)
    : World :=
  fold_left (fun w i => cycle cfg i w) inputs w.

(** ** Concrete inputs *)

Module Scenario.

(** Twenty daily closes per symbol: UMAC alternates between 2 and 0, RCAT
    stays at 1. *)
Definition umac_closes : list R :=
  [2; 0; 2; 0; 2; 0; 2; 0; 2; 0; 2; 0; 2; 0; 2; 0; 2; 0; 2; 0].

Definition rcat_closes : list R :=
  [1; 1; 1; 1; 1; 1; 1; 1; 1; 1; 1; 1; 1; 1; 1; 1; 1; 1; 1; 1].

(** The hedge ratio of [default_config] and the spread history of the
    twenty closes. *)
Definition h : R := 1389508 / 1000000.

Definition spreads : list R :=
  spread_history default_config umac_closes rcat_closes.

Definition accept_all : Order -> Reply := fun _ => Accepted.
Definition reject_all : Order -> Reply := fun _ => Rejected.
Definition raise_all : Order -> Reply := fun _ => Raises.

Definition funded : Account := {| buying_power := 100000 |}.

(** The last UMAC price is 2.42: the spread is 1.42 population standard
    deviations above its mean. *)
Definition high_spread : Env := {|
  md := {| umac_bars := BarsClose umac_closes; umac_l1 := Some (242 / 100);
           rcat_bars := BarsClose rcat_closes; rcat_l1 := None |};
  account := funded;
  gateway := accept_all
|}.

(** No last UMAC price, so the current UMAC price is the last close, 0, and
    the last RCAT price is 2: the spread is far below its mean. *)
Definition zero_price : Env := {|
  md := {| umac_bars := BarsClose umac_closes; umac_l1 := None;
           rcat_bars := BarsClose rcat_closes; rcat_l1 := Some 2 |};
  account := funded;
  gateway := accept_all
|}.


(** Both symbols flat at 1: the spread never moves. *)
Definition flat_spread : Env := {|
  md := {| umac_bars := BarsClose rcat_closes; umac_l1 := Some 5;
           rcat_bars := BarsClose rcat_closes; rcat_l1 := None |};
  account := funded;
  gateway := accept_all
|}.

(** The sizing scenario of the specification: prices 20 and 15. *)
Definition sizing_env (gw : Order -> Reply) : Env := {|
  md := {| umac_bars := BarsNone; umac_l1 := Some 20;
           rcat_bars := BarsNone; rcat_l1 := Some 15 |};
  account := funded;
  gateway := gw
|}.

Definition long_1000 : Positions :=
  {| umac := 1000; rcat := -1389; in_trade := true;
     trade_direction := Some long_spread |}.

Definition short_1000 : Positions :=
  {| umac := -1000; rcat := 1389; in_trade := true;
     trade_direction := Some short_spread |}.

Definition holding (p : Positions) : World := {|
  last_processed_date := None;
  shared_positions := p;
  execution_lock := false;
  orders := [];
  time_triggers := 0;
  cycles := 0
|}.

Definition rcat_instance : Strategy :=
  {| symbol := "RCAT"; params := default_config |}.

Definition daily (d : Date) : Event :=
  {| timer_id := "daily_pairs_update"; timestamp := d |}.

Definition trade (sym : string) (d : Date) (shares price pl : R) : Trade := {|
  trade_symbol := sym;
  entry_date := {| day := d; seconds := 57540 |};
  exit_date := {| day := (d + 1)%Z; seconds := 57540 |};
  entry_shares := shares;
  entry_price := price;
  entry_pl := pl;
  exit_fees := 1
|}.

(** A ledger with a pair on day 1, two UMAC rows on day 2, a lone RCAT row on
    day 3 and a pair without shares on day 4. *)
Definition ledger : list Trade :=
  [ trade "UMAC" 1%Z (-1000) 20 150; trade "RCAT" 1%Z 1389 15 (-40);
    trade "UMAC" 2%Z 1000 21 10; trade "UMAC" 2%Z 500 21 5;
    trade "RCAT" 2%Z (-1389) 14 20;
    trade "RCAT" 3%Z 1389 15 0;
    trade "UMAC" 4%Z 0 20 0; trade "RCAT" 4%Z 0 15 0 ].

End Scenario.

(** ** The other handlers of the strategy *)

(** [on_start]: only the RCAT instance schedules the daily update. *)
Definition on_start (self : Strategy) : M unit :=
  fun w =>
    if (symbol self =? "RCAT")%string then add_time_trigger w else ret tt w.

(** One callback of the host, on one strategy instance. *)
Inductive Call :=
| Start (self : Strategy)
| Timer (self : Strategy) (ev : Event) (env : Env).

Definition call_self (c : Call) : Strategy :=
  match c with
  | Start self => self
  | Timer self _ _ => self
  end.

Definition handle (c : Call) : M unit :=
  match c with
  | Start self => on_start self
  | Timer self ev env => on_timer self ev env
  end.

(** The world after a sequence of callbacks, oldest first. *)
Definition run_handlers (calls : list Call) (w : World) : World :=
  fold_left (fun w c => snd (handle c w)) calls w.

(** The number of [on_start] callbacks on an RCAT instance. *)
Definition coordinator_starts (calls : list Call) : nat :=
  List.length
    (filter (fun c => match c with
                      | Start self => (symbol self =? "RCAT")%string
                      | Timer _ _ _ => false
                      end) calls).

(** The positions the strategy can have recorded: none, or a long or a short
    spread of [a] UMAC shares against [int(a * hedge_ratio)] RCAT shares,
    with [0 < a <= max_position_size]. *)
Definition recorded (cfg : Config) (p : Positions) : Prop :=
  p = flat_positions
  \/ exists a,
       (0 < a <= max_position_size cfg)%Z
       /\ (0 < Py.int (IZR a * hedge_ratio cfg))%Z
       /\ (p = {| umac := a; rcat := - Py.int (IZR a * hedge_ratio cfg);
                  in_trade := true; trade_direction := Some long_spread |}
           \/ p = {| umac := - a; rcat := Py.int (IZR a * hedge_ratio cfg);
                     in_trade := true;
                     trade_direction := Some short_spread |}).

(** Orders as the strategy words them: the algorithm goes with the side and
    the symbol is one of the pair; an entry carries a positive quantity and
    an exit none. *)
Definition well_addressed (o : Order) : Prop :=
  algorithm o = match side o with
                | Buy => buy_algorithm
                | Sell => sell_algorithm
                end
  /\ (order_symbol o = "UMAC"%string \/ order_symbol o = "RCAT"%string).

Definition entry_order (o : Order) : Prop :=
  intent o = init
  /\ (exists q, order_quantity o = Some q /\ (0 < q)%Z)
  /\ well_addressed o.

Definition exit_order (o : Order) : Prop :=
  intent o = exit /\ order_quantity o = None /\ well_addressed o.

(** ** The performance metrics ([calculate_metrics], [plot_drawdown_curve]) *)

Module Series.

(** A running fold: [f acc x0, f (f acc x0) x1, ...]. *)
Fixpoint accumulate (f : R -> R -> R) (acc : R) (l : list R) : list R :=
  match l with
  | [] => []
  | x :: t => f acc x :: accumulate f (f acc x) t
  end.

(** [np.cumsum(l)] and the pandas [.cumsum()]. *)
Definition cumsum (l : list R) : list R :=
  match l with
  | [] => []
  | x :: t => x :: accumulate Rplus x t
  end.

(** [np.maximum.accumulate(l)]. *)
Definition maximum_accumulate (l : list R) : list R :=
  match l with
  | [] => []
  | x :: t => x :: accumulate Rmax x t
  end.

(** [np.max(l)]; [None] stands for the [ValueError] of the empty array. *)
Definition max (l : list R) : option R :=
  match l with
  | [] => None
  | x :: t => Some (fold_left Rmax t x)
  end.

(** The pandas [l.expanding().max()]: at every index the maximum of the
    values up to it. *)
Definition expanding_max (l : list R) : list R :=
  map (fun i => match max (firstn (S i) l) with
                | Some m => m
                | None => 0
                end)
      (seq 0 (List.length l)).

(** [a - b] on two arrays of the same length. *)
Definition minus (a b : list R) : list R :=
  map (fun xy => fst xy - snd xy) (combine a b).

End Series.

(** Lines 246-248 of [calculate_metrics] on the column [net_pl]. *)
Definition drawdown (pnls : list R) : list R :=
  let cumulative_pnl := Series.cumsum pnls in
  let running_max := Series.maximum_accumulate cumulative_pnl in
  Series.minus running_max cumulative_pnl.

(** Line 249: [max_drawdown = np.max(drawdown)]. *)
Definition max_drawdown (pnls : list R) : option R :=
  Series.max (drawdown pnls).

(** Lines 122-124 of [plot_drawdown_curve]: the curve that is plotted. *)
Definition plotted_drawdown (pnls : list R) : list R :=
  let cumulative_pnl := Series.cumsum pnls in
  let running_max := Series.expanding_max cumulative_pnl in
  Series.minus running_max cumulative_pnl.

(** A float that may be [float('inf')]. *)
Inductive Float := Finite (x : R) | Infinity.

Definition winning_trades (sessions : list Session) : list Session :=
  filter (fun s => gtb (net_pl s) 0) sessions.

Definition losing_trades (sessions : list Session) : list Session :=
  filter (fun s => ltb (net_pl s) 0) sessions.

(** Line 238: [len(winning_trades) / len(sessions_df)], a division of two
    Python ints; [None] stands for its [ZeroDivisionError]. *)
Definition win_rate (sessions : list Session) : option R :=
  match sessions with
  | [] => None
  | _ => Some (IZR (Py.len (winning_trades sessions))
               / IZR (Py.len sessions))
  end.

(** Lines 241-243. *)
Definition profit_factor (sessions : list Session) : Float :=
  let total_wins := Py.sum (map net_pl (winning_trades sessions)) in
  let total_losses := Rabs (Py.sum (map net_pl (losing_trades sessions))) in
  if gtb total_losses 0 then Finite (total_wins / total_losses)
  else Infinity.

(** ** More concrete inputs *)

Module Example.

(** A gateway that raises on every RCAT order and accepts the others. *)
Definition raise_on_rcat : Order -> Reply :=
  fun o => if (order_symbol o =? "RCAT")%string then Raises else Accepted.

Definition pnls : list R := [150; -40; 30; -80; 20].

Definition session (d : Date) (pl : R) : Session := {|
  date := d;
  session_entry_date := {| day := d; seconds := 57540 |};
  session_exit_date := {| day := (d + 1)%Z; seconds := 57540 |};
  net_pl := pl;
  capital_deployed := 40000;
  session_return := pl / 40000
|}.

Definition sessions : list Session :=
  [session 1%Z 150; session 2%Z (-40); session 3%Z 30; session 4%Z (-80)].

Definition umac_instance : Strategy :=
  {| symbol := "UMAC"; params := default_config |}.

(** Both instances start, and both receive the daily update of day 1 and of
    day 2 on the high-spread market data. *)
Definition calls : list Call :=
  [ Start umac_instance; Start Scenario.rcat_instance;
    Timer umac_instance (Scenario.daily 1%Z) Scenario.high_spread;
    Timer Scenario.rcat_instance (Scenario.daily 1%Z) Scenario.high_spread;
    Timer umac_instance (Scenario.daily 2%Z) Scenario.high_spread;
    Timer Scenario.rcat_instance (Scenario.daily 2%Z) Scenario.high_spread ].

(** The sizing scenario with a buying power of 30: half of it does not buy
    one UMAC share at 20. *)
Definition small_account (gw : Order -> Reply) : Env := {|
  md := {| umac_bars := BarsNone; umac_l1 := Some 20;
           rcat_bars := BarsNone; rcat_l1 := Some 15 |};
  account := {| buying_power := 30 |};
  gateway := gw
|}.



End Example.

(** * Properties *)

Create HintDb keeps.

(** Rewrites with the replies of the gateway that are in the context. *)
Ltac use_replies :=
  repeat match goal with
         | H : gateway _ _ = _ |- _ => rewrite H
         end.

(** ** Comparisons and truncation *)

Lemma gtb_true (x y : R) : gtb x y = true <-> x > y.
Proof. unfold gtb; destruct (Rgt_dec x y); split; intros; try lra; congruence. Qed.

Lemma gtb_false (x y : R) : gtb x y = false <-> x <= y.
Proof. unfold gtb; destruct (Rgt_dec x y); split; intros; try lra; congruence. Qed.

Lemma ltb_true (x y : R) : ltb x y = true <-> x < y.
Proof. unfold ltb; destruct (Rlt_dec x y); split; intros; try lra; congruence. Qed.

Lemma ltb_false (x y : R) : ltb x y = false <-> y <= x.
Proof. unfold ltb; destruct (Rlt_dec x y); split; intros; try lra; congruence. Qed.

Lemma eqb_true (x y : R) : eqb x y = true <-> x = y.
Proof. unfold eqb; destruct (Req_dec_T x y); split; intros; congruence. Qed.

Lemma eqb_false (x y : R) : eqb x y = false <-> x <> y.
Proof. unfold eqb; destruct (Req_dec_T x y); split; intros; congruence. Qed.

(** On a non-negative float [int] is the floor. *)
Lemma int_nonneg (x : R) : 0 <= x -> Py.int x = Int_part x.
Proof. intros H; unfold Py.int; destruct (Rle_dec 0 x); [reflexivity | lra]. Qed.

Lemma Int_part_nonneg (x : R) : 0 <= x -> (0 <= Int_part x)%Z.
Proof.
  intros H. destruct (base_Int_part x) as [_ Hgt].
  assert (Hlt : IZR (-1) < IZR (Int_part x)) by lra.
  apply lt_IZR in Hlt. lia.
Qed.

(** [int x] is the integer [z] with [z <= x < z + 1], for a non-negative
    [x]. *)
Lemma int_floor (x : R) (z : Z) :
  IZR z <= x -> x < IZR z + 1 -> 0 <= x -> Py.int x = z.
Proof.
  intros Hle Hlt H0. rewrite int_nonneg by exact H0.
  symmetry. apply Int_part_spec. lra.
Qed.

Lemma round_up (x : R) (z : Z) :
  IZR z + 1 / 2 < x -> x < IZR z + 1 -> spec_round x = (z + 1)%Z.
Proof.
  intros Hlo Hhi. unfold spec_round.
  assert (Hz : z = Int_part x) by (apply Int_part_spec; lra).
  rewrite <- Hz.
  destruct (Rlt_dec (x - IZR z) (1 / 2)); [lra |].
  destruct (Rlt_dec (1 / 2) (x - IZR z)); [reflexivity | lra].
Qed.

(** ** What a decision cycle leaves alone *)

Lemma same_trigger_refl (w : World) : same_trigger w w.
Proof. repeat split. Qed.

Lemma same_trigger_trans (w1 w2 w3 : World) :
  same_trigger w1 w2 -> same_trigger w2 w3 -> same_trigger w1 w3.
Proof.
  unfold same_trigger; intros (a & b & c & d) (a' & b' & c' & d').
  repeat split; congruence.
Qed.

Lemma keeps_ret {A : Type} (a : A) : keeps_trigger (ret a).
Proof. intros w; apply same_trigger_refl. Qed.

Lemma keeps_raise {A : Type} (e : Exn) : keeps_trigger (@raise A e).
Proof. intros w; apply same_trigger_refl. Qed.

Lemma keeps_bind {A B : Type} (m : M A) (k : A -> M B) :
  keeps_trigger m -> (forall a, keeps_trigger (k a)) -> keeps_trigger (bind m k).
Proof.
  intros Hm Hk w. unfold bind. specialize (Hm w).
  destruct (m w) as [[a | e] w1]; simpl in *.
  - eapply same_trigger_trans; [exact Hm | apply Hk].
  - exact Hm.
Qed.

Lemma keeps_try_except (m h : M unit) :
  keeps_trigger m -> keeps_trigger h -> keeps_trigger (try_except m h).
Proof.
  intros Hm Hh w. unfold try_except. specialize (Hm w).
  destruct (m w) as [[a | e] w1]; simpl in *.
  - exact Hm.
  - eapply same_trigger_trans; [exact Hm | apply Hh].
Qed.

Lemma keeps_set_positions (p : Positions) : keeps_trigger (set_positions p).
Proof. intros w; repeat split. Qed.

Lemma keeps_submit (gw : Order -> Reply) (o : Order) :
  keeps_trigger (submit gw o).
Proof. intros w; unfold submit; destruct (gw o); repeat split. Qed.

#[local] Hint Resolve keeps_ret keeps_raise keeps_bind keeps_try_except
  keeps_set_positions keeps_submit : keeps.

Lemma keeps_float_div (x y : R) : keeps_trigger (float_div x y).
Proof. unfold float_div; destruct (eqb y 0); auto with keeps. Qed.

Lemma keeps_enter_long_spread (cfg : Config) (env : Env) (pa pb : R) :
  keeps_trigger (enter_long_spread cfg env pa pb).
Proof.
  unfold enter_long_spread, algo_buy, algo_sell.
  apply keeps_bind; [apply keeps_float_div | intros q].
  destruct (_ && _)%bool; auto 10 with keeps.
Qed.

Lemma keeps_enter_short_spread (cfg : Config) (env : Env) (pa pb : R) :
  keeps_trigger (enter_short_spread cfg env pa pb).
Proof.
  unfold enter_short_spread, algo_buy, algo_sell.
  apply keeps_bind; [apply keeps_float_div | intros q].
  destruct (_ && _)%bool; auto 10 with keeps.
Qed.

Lemma keeps_close_leg (env : Env) (sym : string) (pos : Z) :
  keeps_trigger (close_leg env sym pos).
Proof.
  unfold close_leg, algo_buy, algo_sell.
  destruct (0 <? pos)%Z; [| destruct (pos <? 0)%Z]; auto with keeps.
Qed.

Lemma keeps_close_positions (env : Env) : keeps_trigger (close_positions env).
Proof.
  unfold close_positions. apply keeps_try_except; [| auto with keeps].
  intros w. apply keeps_bind; [apply keeps_close_leg | intros _].
  apply keeps_bind; [apply keeps_close_leg | intros _; auto with keeps].
Qed.

Lemma keeps_check_entry_signals (cfg : Config) (env : Env) (z pa pb : R) :
  keeps_trigger (check_entry_signals cfg env z pa pb).
Proof.
  unfold check_entry_signals.
  destruct (gtb z _); [apply keeps_enter_short_spread |].
  destruct (ltb z _); [apply keeps_enter_long_spread | auto with keeps].
Qed.

Lemma keeps_check_exit_signals (cfg : Config) (env : Env) (z : R) :
  keeps_trigger (check_exit_signals cfg env z).
Proof.
  intros w. unfold check_exit_signals.
  match goal with
  | |- context [if ?c then close_positions _ _ else _] => destruct c
  end; [apply keeps_close_positions | apply same_trigger_refl].
Qed.

Lemma keeps_trading_logic (cfg : Config) (env : Env) (z pa pb : R) :
  keeps_trigger (trading_logic cfg env z pa pb).
Proof.
  intros w. unfold trading_logic. destruct (negb _).
  - apply keeps_check_entry_signals.
  - apply keeps_check_exit_signals.
Qed.

Lemma keeps_execute_pairs_trading_logic (cfg : Config) (env : Env) :
  keeps_trigger (execute_pairs_trading_logic cfg env).
Proof.
  unfold execute_pairs_trading_logic.
  destruct (get_data cfg (umac_bars _) _) as [[pu cu] |]; [| auto with keeps].
  destruct (get_data cfg (rcat_bars _) _) as [[pr cr] |]; [| auto with keeps].
  destruct (_ <? _)%Z; [auto with keeps |].
  destruct (eqb _ 0); [auto with keeps | apply keeps_trading_logic].
Qed.

(** ** Entries *)

(** The [try] block of an entry: the first call that raises ends it, and the
    positions are recorded only when both calls returned. *)
Lemma entry_block_cases (gw : Order -> Reply) (o1 o2 : Order) (p : Positions)
    (w : World) :
  let r := try_except (submit gw o1 ;; submit gw o2 ;; set_positions p)
                      (ret tt) w in
  fst r = Ok tt
  /\ ((gw o1 = Raises
       /\ orders (snd r) = orders w ++ [(o1, gw o1)]
       /\ shared_positions (snd r) = shared_positions w)
      \/ (gw o1 <> Raises /\ gw o2 = Raises
          /\ orders (snd r) = orders w ++ [(o1, gw o1); (o2, gw o2)]
          /\ shared_positions (snd r) = shared_positions w)
      \/ (gw o1 <> Raises /\ gw o2 <> Raises
          /\ orders (snd r) = orders w ++ [(o1, gw o1); (o2, gw o2)]
          /\ shared_positions (snd r) = p)).
Proof.
  unfold try_except, bind, submit, set_positions, ret; simpl.
  destruct (gw o1) eqn:E1; simpl;
    try (split; [reflexivity | left; repeat split; congruence]);
    destruct (gw o2) eqn:E2; simpl; rewrite <- ?app_assoc; simpl;
    split; try reflexivity;
    first [ right; left; repeat split; congruence
          | right; right; repeat split; congruence ].
Qed.

(** With a non-zero UMAC price the division does not raise and
    [enter_long_spread] is its sizing followed by its [try] block. *)
Lemma enter_long_spread_sized (cfg : Config) (env : Env) (pa pb : R)
    (w : World) :
  pa <> 0 ->
  let a := Z.min (max_position_size cfg)
                 (Py.int (buying_power (account env) / 2 / pa)) in
  let b := Py.int (IZR a * hedge_ratio cfg) in
  enter_long_spread cfg env pa pb w =
  if ((0 <? a) && (0 <? b))%Z then
    try_except
      (algo_buy (gateway env) "UMAC" init (Some a) ;;
       algo_sell (gateway env) "RCAT" init (Some b) ;;
       set_positions {| umac := a; rcat := - b; in_trade := true;
                        trade_direction := Some long_spread |})
      (ret tt) w
  else (Ok tt, w).
Proof.
  intros Hpa a b. unfold enter_long_spread, float_div.
  apply eqb_false in Hpa. rewrite Hpa. unfold bind at 1, ret at 1.
  fold a. fold b. destruct (_ && _)%bool; reflexivity.
Qed.

Lemma enter_short_spread_sized (cfg : Config) (env : Env) (pa pb : R)
    (w : World) :
  pa <> 0 ->
  let a := Z.min (max_position_size cfg)
                 (Py.int (buying_power (account env) / 2 / pa)) in
  let b := Py.int (IZR a * hedge_ratio cfg) in
  enter_short_spread cfg env pa pb w =
  if ((0 <? a) && (0 <? b))%Z then
    try_except
      (algo_sell (gateway env) "UMAC" init (Some a) ;;
       algo_buy (gateway env) "RCAT" init (Some b) ;;
       set_positions {| umac := - a; rcat := b; in_trade := true;
                        trade_direction := Some short_spread |})
      (ret tt) w
  else (Ok tt, w).
Proof.
  intros Hpa a b. unfold enter_short_spread, float_div.
  apply eqb_false in Hpa. rewrite Hpa. unfold bind at 1, ret at 1.
  fold a. fold b. destruct (_ && _)%bool; reflexivity.
Qed.

(** A zero UMAC price makes both entries raise before anything is done. *)
Lemma enter_long_spread_zero_price (cfg : Config) (env : Env) (pb : R)
    (w : World) :
  enter_long_spread cfg env 0 pb w = (Exc ZeroDivisionError, w).
Proof.
  unfold enter_long_spread, float_div.
  replace (eqb 0 0) with true by (symmetry; apply eqb_true; reflexivity).
  reflexivity.
Qed.

Lemma enter_short_spread_zero_price (cfg : Config) (env : Env) (pb : R)
    (w : World) :
  enter_short_spread cfg env 0 pb w = (Exc ZeroDivisionError, w).
Proof.
  unfold enter_short_spread, float_div.
  replace (eqb 0 0) with true by (symmetry; apply eqb_true; reflexivity).
  reflexivity.
Qed.

Lemma floor_2500 : Int_part (100000 / 2 / 20) = 2500%Z.
Proof. symmetry; apply Int_part_spec; lra. Qed.

Lemma floor_1389 : Int_part (1000 * (1389508 / 1000000)) = 1389%Z.
Proof. symmetry; apply Int_part_spec; lra. Qed.

Lemma round_1390 : spec_round (1000 * (1389508 / 1000000)) = 1390%Z.
Proof. apply (round_up _ 1389); lra. Qed.

(** C4: with non-negative buying power, positive prices, a positive hedge
    ratio and a positive maximum position size, both entries size leg A at
    [min(max_position_size, floor(buying_power / 2 / priceA))] and leg B at
    [floor(sharesA * hedge_ratio)]: they never raise, every call they make
    on the order collaborator is the leg-A order followed by the leg-B order
    with these quantities, the recorded positions carry the same quantities,
    and nothing is submitted or recorded unless both counts are positive. *)
Theorem sizing_truncates (cfg : Config) (env : Env) (priceA priceB : R)
    (w : World) :
  0 <= buying_power (account env) ->
  0 < priceA -> 0 < priceB ->
  0 < hedge_ratio cfg ->
  (0 < max_position_size cfg)%Z ->
  let sharesA := Z.min (max_position_size cfg)
                       (Int_part (buying_power (account env) / 2 / priceA)) in
  let sharesB := Int_part (IZR sharesA * hedge_ratio cfg) in
  let gw := gateway env in
  let order s sym q :=
    {| side := s; order_symbol := sym;
       algorithm := match s with Buy => buy_algorithm | Sell => sell_algorithm end;
       intent := init; order_quantity := Some q |} in
  let entry legA legB p r :=
    fst r = Ok tt
    /\ (exists k, orders (snd r)
                  = orders w ++ firstn k [(legA, gw legA); (legB, gw legB)])
    /\ (shared_positions (snd r) = shared_positions w
        \/ shared_positions (snd r) = p)
    /\ (gw legA <> Raises -> gw legB <> Raises ->
        (0 < sharesA)%Z -> (0 < sharesB)%Z ->
        orders (snd r) = orders w ++ [(legA, gw legA); (legB, gw legB)]
        /\ shared_positions (snd r) = p)
    /\ (~ ((0 < sharesA)%Z /\ (0 < sharesB)%Z) -> r = (Ok tt, w)) in
  entry (order Buy "UMAC"%string sharesA) (order Sell "RCAT"%string sharesB)
        {| umac := sharesA; rcat := - sharesB; in_trade := true;
           trade_direction := Some long_spread |}
        (enter_long_spread cfg env priceA priceB w)
  /\ entry (order Sell "UMAC"%string sharesA) (order Buy "RCAT"%string sharesB)
           {| umac := - sharesA; rcat := sharesB; in_trade := true;
              trade_direction := Some short_spread |}
           (enter_short_spread cfg env priceA priceB w).
Proof.
  intros Hbp HpA HpB Hh Hmax sharesA sharesB gw order entry.
  assert (Hq : 0 <= buying_power (account env) / 2 / priceA).
  { apply Rmult_le_pos; [lra |]. left. apply Rinv_0_lt_compat. exact HpA. }
  assert (HA0 : (0 <= sharesA)%Z).
  { unfold sharesA. pose proof (Int_part_nonneg _ Hq). lia. }
  assert (HiA : Z.min (max_position_size cfg)
                  (Py.int (buying_power (account env) / 2 / priceA)) = sharesA).
  { unfold sharesA. rewrite int_nonneg by exact Hq. reflexivity. }
  assert (HiB : Py.int (IZR sharesA * hedge_ratio cfg) = sharesB).
  { unfold sharesB. apply int_nonneg. apply Rmult_le_pos; [| lra].
    apply IZR_le in HA0. exact HA0. }
  assert (HpA' : priceA <> 0) by lra.
  split; unfold entry;
    [ rewrite (enter_long_spread_sized cfg env priceA priceB w HpA')
    | rewrite (enter_short_spread_sized cfg env priceA priceB w HpA') ];
    cbv zeta; rewrite HiA, HiB;
    (destruct ((0 <? sharesA) && (0 <? sharesB))%Z eqn:Epos;
     [ apply andb_true_iff in Epos; destruct Epos as [EA EB];
       apply Z.ltb_lt in EA, EB;
       unfold algo_buy, algo_sell;
       match goal with
       | |- context [try_except (submit ?g ?o1 ;; submit ?g ?o2 ;; set_positions ?p) _ w] =>
           pose proof (entry_block_cases g o1 o2 p w) as Hc
       end;
       cbv zeta in Hc; destruct Hc as [Hok Hc]; fold gw in Hc |- *;
       unfold order;
       split; [exact Hok |];
       destruct Hc as [(E1 & Ho & Hp) | [(E1 & E2 & Ho & Hp) | (E1 & E2 & Ho & Hp)]];
       [ split; [exists 1%nat; exact Ho |]; split; [left; exact Hp |];
         split; [intros N; contradiction | intros N; exfalso; apply N; lia]
       | split; [exists 2%nat; exact Ho |]; split; [left; exact Hp |];
         split; [intros _ N; contradiction | intros N; exfalso; apply N; lia]
       | split; [exists 2%nat; exact Ho |]; split; [right; exact Hp |];
         split; [intros _ _ _ _; split; assumption
                | intros N; exfalso; apply N; lia] ]
     | simpl; split; [reflexivity |];
       split; [exists 0%nat; simpl; rewrite app_nil_r; reflexivity |];
       split; [left; reflexivity |];
       split; [| reflexivity];
       intros _ _ LA LB; apply Z.ltb_lt in LA, LB;
       rewrite LA, LB in Epos; discriminate ]).
Qed.

(** The scenario of the specification: buying power 100000, prices 20 and
    15, the default parameters; 1000 UMAC shares and 1389 RCAT shares. *)
Lemma sizing_scenario :
  let env := Scenario.sizing_env Scenario.accept_all in
  let order s sym alg q :=
    ({| side := s; order_symbol := sym; algorithm := alg; intent := init;
        order_quantity := Some q |}, Accepted) in
  (0 <= buying_power (account env) /\ 0 < 20 /\ 0 < 15
   /\ 0 < hedge_ratio default_config
   /\ (0 < max_position_size default_config)%Z)
  /\ (orders (snd (enter_long_spread default_config env 20 15 initial_world))
      = [order Buy "UMAC"%string buy_algorithm 1000%Z;
         order Sell "RCAT"%string sell_algorithm 1389%Z]
      /\ shared_positions
           (snd (enter_long_spread default_config env 20 15 initial_world))
         = Scenario.long_1000)
  /\ (orders (snd (enter_short_spread default_config env 20 15 initial_world))
      = [order Sell "UMAC"%string sell_algorithm 1000%Z;
         order Buy "RCAT"%string buy_algorithm 1389%Z]
      /\ shared_positions
           (snd (enter_short_spread default_config env 20 15 initial_world))
         = Scenario.short_1000).
Proof.
  intros env order.
  assert (H1 : 0 <= buying_power (account env)) by (simpl; lra).
  assert (H2 : 0 < 20) by lra.
  assert (H3 : 0 < 15) by lra.
  assert (H4 : 0 < hedge_ratio default_config) by (simpl; lra).
  assert (H5 : (0 < max_position_size default_config)%Z) by (simpl; lia).
  split; [repeat split; assumption |].
  pose proof (sizing_truncates default_config env 20 15 initial_world
                H1 H2 H3 H4 H5) as H.
  cbv zeta in H.
  change (buying_power (account env)) with 100000 in H.
  change (max_position_size default_config) with 1000%Z in H.
  change (hedge_ratio default_config) with (1389508 / 1000000) in H.
  rewrite floor_2500 in H.
  change (Z.min 1000 2500) with 1000%Z in H.
  rewrite floor_1389 in H.
  destruct H as [(_ & _ & _ & HL & _) (_ & _ & _ & HS & _)].
  split; [apply HL | apply HS]; simpl; try discriminate; try lia.
Defined.

(** The long entry of the sizing scenario, computed directly. *)
Lemma scenario_long_entry :
  enter_long_spread default_config (Scenario.sizing_env Scenario.accept_all)
    20 15 initial_world
  = (Ok tt,
     {| last_processed_date := None;
        shared_positions := Scenario.long_1000;
        execution_lock := false;
        orders :=
          [({| side := Buy; order_symbol := "UMAC"; algorithm := buy_algorithm;
               intent := init; order_quantity := Some 1000%Z |}, Accepted);
           ({| side := Sell; order_symbol := "RCAT"; algorithm := sell_algorithm;
               intent := init; order_quantity := Some 1389%Z |}, Accepted)];
        time_triggers := 0;
        cycles := 0 |}).
Proof.
  rewrite enter_long_spread_sized by lra. cbv zeta.
  change (buying_power _) with 100000.
  change (max_position_size default_config) with 1000%Z.
  change (hedge_ratio default_config) with (1389508 / 1000000).
  rewrite (int_floor (100000 / 2 / 20) 2500) by lra.
  change (Z.min 1000 2500) with 1000%Z.
  rewrite (int_floor (1000 * (1389508 / 1000000)) 1389) by lra.
  reflexivity.
Qed.

(** C6, as stated, fails: in the sizing scenario the long entry records
    1000 UMAC shares and -1389 RCAT shares, while 1000 * 1.389508 rounds to
    1390. *)
Lemma rcat_shares_not_rounded :
  let w' := snd (enter_long_spread default_config
                   (Scenario.sizing_env Scenario.accept_all) 20 15
                   initial_world) in
  let p := shared_positions w' in
  in_trade (shared_positions initial_world) = false
  /\ in_trade p = true
  /\ umac p = 1000%Z
  /\ rcat p = (-1389)%Z
  /\ rcat p <> (- Z.sgn (umac p)
                * spec_round (IZR (Z.abs (umac p)) * hedge_ratio default_config))%Z.
Proof.
  cbv zeta. rewrite scenario_long_entry. simpl.
  repeat split; try reflexivity.
  rewrite round_1390. discriminate.
Qed.

(** An entry that turns [in_trade] on has recorded positive sizes, the RCAT
    size being the truncated product. *)
Lemma entered_sizes (cfg : Config) (env : Env) (pa pb : R) (w : World) :
  in_trade (shared_positions w) = false ->
  let pl := shared_positions (snd (enter_long_spread cfg env pa pb w)) in
  let ps := shared_positions (snd (enter_short_spread cfg env pa pb w)) in
  (in_trade pl = true ->
   exists a, (0 < a)%Z /\ (0 < Py.int (IZR a * hedge_ratio cfg))%Z
     /\ pl = {| umac := a; rcat := - Py.int (IZR a * hedge_ratio cfg);
                in_trade := true; trade_direction := Some long_spread |})
  /\ (in_trade ps = true ->
      exists a, (0 < a)%Z /\ (0 < Py.int (IZR a * hedge_ratio cfg))%Z
        /\ ps = {| umac := - a; rcat := Py.int (IZR a * hedge_ratio cfg);
                   in_trade := true; trade_direction := Some short_spread |}).
Proof.
  intros Hflat pl ps. unfold pl, ps. clear pl ps.
  destruct (Req_dec_T pa 0) as [-> | Hpa].
  { rewrite enter_long_spread_zero_price, enter_short_spread_zero_price.
    simpl. split; congruence. }
  rewrite (enter_long_spread_sized cfg env pa pb w Hpa).
  rewrite (enter_short_spread_sized cfg env pa pb w Hpa).
  cbv zeta.
  destruct ((0 <? _) && (0 <? _))%Z eqn:Epos;
    [| simpl; split; congruence].
  apply andb_true_iff in Epos. destruct Epos as [EA EB].
  apply Z.ltb_lt in EA, EB.
  unfold algo_buy, algo_sell.
  split; intros Hin;
    match type of Hin with
    | context [try_except (submit ?g ?o1 ;; submit ?g ?o2 ;; set_positions ?q) _ w] =>
        destruct (entry_block_cases g o1 o2 q w)
          as [_ [(_ & _ & Hp) | [(_ & _ & _ & Hp) | (_ & _ & _ & Hp)]]];
        cbv zeta in Hp; rewrite Hp in Hin |- *; try congruence
    end;
    (eexists; split; [exact EA | split; [exact EB | reflexivity]]).
Qed.

(** C6, amended: an entry that records a position records
    [int(umac_shares * hedge_ratio)] RCAT shares, truncated and not rounded,
    with the sign opposite to the UMAC leg's: positive UMAC and negative RCAT
    for the long spread, negative UMAC and positive RCAT for the short
    spread. *)
Theorem entry_legs_opposite (cfg : Config) (env : Env) (pa pb : R)
    (w : World) :
  in_trade (shared_positions w) = false ->
  let pl := shared_positions (snd (enter_long_spread cfg env pa pb w)) in
  let ps := shared_positions (snd (enter_short_spread cfg env pa pb w)) in
  (in_trade pl = true ->
   rcat pl = (- Py.int (IZR (umac pl) * hedge_ratio cfg))%Z
   /\ (0 < umac pl)%Z /\ (rcat pl < 0)%Z
   /\ trade_direction pl = Some long_spread)
  /\ (in_trade ps = true ->
      rcat ps = Py.int (IZR (- umac ps) * hedge_ratio cfg)
      /\ (umac ps < 0)%Z /\ (0 < rcat ps)%Z
      /\ trade_direction ps = Some short_spread).
Proof.
  intros Hflat pl ps.
  destruct (entered_sizes cfg env pa pb w Hflat) as [HL HS].
  fold pl in HL. fold ps in HS.
  split; intros Hin.
  - destruct (HL Hin) as (a & Ha & Hb & ->). simpl.
    repeat split; try lia.
  - destruct (HS Hin) as (a & Ha & Hb & ->). simpl.
    rewrite Z.opp_involutive. repeat split; try lia.
Qed.

(** The amended C6 on the sizing scenario. *)
Lemma entry_legs_opposite_scenario :
  let env := Scenario.sizing_env Scenario.accept_all in
  let pl := shared_positions
              (snd (enter_long_spread default_config env 20 15 initial_world)) in
  in_trade (shared_positions initial_world) = false
  /\ in_trade pl = true
  /\ rcat pl = (- Py.int (IZR (umac pl) * hedge_ratio default_config))%Z
  /\ (0 < umac pl)%Z /\ (rcat pl < 0)%Z
  /\ trade_direction pl = Some long_spread.
Proof.
  intros env pl.
  assert (Hflat : in_trade (shared_positions initial_world) = false)
    by reflexivity.
  assert (Hin : in_trade pl = true)
    by (unfold pl, env; rewrite scenario_long_entry; reflexivity).
  split; [exact Hflat |]. split; [exact Hin |].
  exact (proj1 (entry_legs_opposite default_config env 20 15 initial_world
                  Hflat) Hin).
Defined.

(** ** Exits *)

(** [close_positions] never lets an exception out; it resets the positions
    when every closing call returned and leaves them when one raised. *)
Lemma close_positions_cases (env : Env) (w : World) :
  let r := close_positions env w in
  let gw := gateway env in
  let calls := closing_orders (shared_positions w) in
  fst r = Ok tt
  /\ same_trigger w (snd r)
  /\ (exists k, orders (snd r)
                = orders w ++ map (fun o => (o, gw o)) (firstn k calls))
  /\ ((forall o, In o calls -> gw o <> Raises) ->
      orders (snd r) = orders w ++ map (fun o => (o, gw o)) calls
      /\ shared_positions (snd r) = flat_positions)
  /\ ((exists o, In o calls /\ gw o = Raises) ->
      shared_positions (snd r) = shared_positions w).
Proof.
  cbv zeta. split; [| split; [apply keeps_close_positions |]].
  - unfold close_positions, try_except.
    match goal with
    | |- fst (match ?m with _ => _ end) = _ => destruct m as [[[] | e] w1]
    end; reflexivity.
  - unfold close_positions, closing_orders, closing_order, close_leg,
      algo_buy, algo_sell, try_except, bind, submit, set_positions, ret.
    destruct (0 <? umac (shared_positions w))%Z;
      [| destruct (umac (shared_positions w) <? 0)%Z];
      (destruct (0 <? rcat (shared_positions w))%Z;
       [| destruct (rcat (shared_positions w) <? 0)%Z]);
      simpl;
      repeat match goal with
             | |- context [gateway env ?o] =>
                 let E := fresh "E" in destruct (gateway env o) eqn:E; simpl
             end;
      rewrite <- ?app_assoc; simpl;
      (split;
       [ first [ exists 2%nat; simpl; use_replies; reflexivity
               | exists 1%nat; simpl; use_replies; reflexivity
               | exists 0%nat; simpl; rewrite app_nil_r; reflexivity ]
       | split;
         [ intros Hall;
           first [ split; [use_replies; rewrite ?app_nil_r |]; reflexivity
                 | exfalso;
                   first [ eapply Hall; [left; reflexivity | eassumption]
                         | eapply Hall; [right; left; reflexivity | eassumption] ] ]
         | intros (o & Hin & Hr);
           first [ reflexivity
                 | exfalso; simpl in Hin;
                   repeat (destruct Hin as [<- | Hin]; [congruence |]);
                   exact Hin ] ] ]).
Qed.

(** C5, as stated, fails: the gateway rejects both closing orders of a long
    position and the recorded positions are reset all the same. *)
Lemma close_resets_when_rejected :
  let env := Scenario.sizing_env Scenario.reject_all in
  let w := Scenario.holding Scenario.long_1000 in
  let r := close_positions env w in
  orders (snd r)
  = [({| side := Sell; order_symbol := "UMAC"; algorithm := sell_algorithm;
         intent := exit; order_quantity := None |}, Rejected);
     ({| side := Buy; order_symbol := "RCAT"; algorithm := buy_algorithm;
         intent := exit; order_quantity := None |}, Rejected)]
  /\ shared_positions (snd r) = flat_positions
  /\ shared_positions (snd r) <> shared_positions w.
Proof.
  cbv zeta. vm_compute. repeat split. discriminate.
Qed.

Lemma raises_or_not (gw : Order -> Reply) (calls : list Order) :
  (forall o, In o calls -> gw o <> Raises)
  \/ (exists o, In o calls /\ gw o = Raises).
Proof.
  induction calls as [| c calls IH].
  - left. intros o [].
  - destruct (gw c) eqn:E;
      try (right; exists c; split; [left; reflexivity | exact E]);
      (destruct IH as [IH | (o & Hin & Ho)];
       [ left; intros o [<- | Hin]; [congruence | apply IH; exact Hin]
       | right; exists o; split; [right; exact Hin | exact Ho] ]).
Qed.

(** C5, amended: [close_positions] resets the recorded positions to flat
    exactly when every closing call on the order collaborator has returned,
    whatever the gateway answered (the returned value is never read, so a
    rejected close resets the state too); when a closing call raises, the
    recorded positions are unchanged; no exception leaves the function. *)
Theorem close_resets_after_calls_return (env : Env) (w : World) :
  let r := close_positions env w in
  let gw := gateway env in
  let calls := closing_orders (shared_positions w) in
  fst r = Ok tt
  /\ ((forall o, In o calls -> gw o <> Raises) ->
      orders (snd r) = orders w ++ map (fun o => (o, gw o)) calls
      /\ shared_positions (snd r) = flat_positions)
  /\ ((exists o, In o calls /\ gw o = Raises) ->
      shared_positions (snd r) = shared_positions w)
  /\ (shared_positions (snd r) <> shared_positions w ->
      (forall o, In o calls -> gw o <> Raises)
      /\ orders (snd r) = orders w ++ map (fun o => (o, gw o)) calls
      /\ shared_positions (snd r) = flat_positions).
Proof.
  intros r gw calls.
  destruct (close_positions_cases env w) as (Hok & _ & _ & Hall & Hsome).
  fold r gw calls in Hok, Hall, Hsome.
  split; [exact Hok |]. split; [exact Hall |]. split; [exact Hsome |].
  intros Hchg.
  destruct (raises_or_not gw calls) as [Hn | Hr].
  - split; [exact Hn | apply Hall; exact Hn].
  - exfalso. apply Hchg. apply Hsome. exact Hr.
Qed.

(** The amended C5 where every closing call raises: the long position stays
    recorded. *)
Lemma close_keeps_when_raising :
  let env := Scenario.sizing_env Scenario.raise_all in
  let w := Scenario.holding Scenario.long_1000 in
  (exists o, In o (closing_orders (shared_positions w))
             /\ gateway env o = Raises)
  /\ shared_positions (snd (close_positions env w)) = Scenario.long_1000.
Proof.
  intros env w.
  assert (H : exists o, In o (closing_orders (shared_positions w))
                        /\ gateway env o = Raises).
  { eexists. split; [left; reflexivity | reflexivity]. }
  split; [exact H |].
  exact (proj1 (proj2 (proj2 (close_resets_after_calls_return env w))) H).
Defined.

Lemma close_positions_outcome (env : Env) (w : World) :
  shared_positions (snd (close_positions env w)) = shared_positions w
  \/ shared_positions (snd (close_positions env w)) = flat_positions.
Proof.
  destruct (close_positions_cases env w) as (_ & _ & _ & Hall & Hsome).
  destruct (raises_or_not (gateway env) (closing_orders (shared_positions w)))
    as [Hn | Hr].
  - right. apply Hall. exact Hn.
  - left. apply Hsome. exact Hr.
Qed.

(** ** The signals *)

Lemma check_entry_signals_short (cfg : Config) (env : Env) (z pa pb : R) :
  z > entry_threshold cfg ->
  check_entry_signals cfg env z pa pb = enter_short_spread cfg env pa pb.
Proof.
  intros H. unfold check_entry_signals.
  apply gtb_true in H. rewrite H. reflexivity.
Qed.

Lemma check_entry_signals_long (cfg : Config) (env : Env) (z pa pb : R) :
  z <= entry_threshold cfg -> z < - entry_threshold cfg ->
  check_entry_signals cfg env z pa pb = enter_long_spread cfg env pa pb.
Proof.
  intros H1 H2. unfold check_entry_signals.
  apply gtb_false in H1. apply ltb_true in H2. rewrite H1, H2. reflexivity.
Qed.

Lemma check_entry_signals_none (cfg : Config) (env : Env) (z pa pb : R) :
  - entry_threshold cfg <= z <= entry_threshold cfg ->
  check_entry_signals cfg env z pa pb = ret tt.
Proof.
  intros [H1 H2]. unfold check_entry_signals.
  apply gtb_false in H2. apply ltb_false in H1. rewrite H1, H2. reflexivity.
Qed.

(** [check_exit_signals] closes exactly when its [should_exit] is set. *)
Lemma check_exit_signals_cases (cfg : Config) (env : Env) (z : R) (w : World) :
  let d := trade_direction (shared_positions w) in
  (d = Some long_spread -> z > - exit_threshold cfg ->
   check_exit_signals cfg env z w = close_positions env w)
  /\ (d = Some long_spread -> z <= - exit_threshold cfg ->
      check_exit_signals cfg env z w = (Ok tt, w))
  /\ (d = Some short_spread -> z < exit_threshold cfg ->
      check_exit_signals cfg env z w = close_positions env w)
  /\ (d = Some short_spread -> exit_threshold cfg <= z ->
      check_exit_signals cfg env z w = (Ok tt, w))
  /\ (d = None -> check_exit_signals cfg env z w = (Ok tt, w)).
Proof.
  cbv zeta. unfold check_exit_signals.
  repeat split; intros Hd; rewrite Hd; simpl; try reflexivity; intros Hz.
  - apply gtb_true in Hz. rewrite Hz. reflexivity.
  - apply gtb_false in Hz. rewrite Hz. reflexivity.
  - apply ltb_true in Hz. rewrite Hz. reflexivity.
  - apply ltb_false in Hz. rewrite Hz. reflexivity.
Qed.

Lemma trading_logic_flat (cfg : Config) (env : Env) (z pa pb : R) (w : World) :
  in_trade (shared_positions w) = false ->
  trading_logic cfg env z pa pb w = check_entry_signals cfg env z pa pb w.
Proof. intros H. unfold trading_logic. rewrite H. reflexivity. Qed.

Lemma trading_logic_in_trade (cfg : Config) (env : Env) (z pa pb : R)
    (w : World) :
  in_trade (shared_positions w) = true ->
  trading_logic cfg env z pa pb w = check_exit_signals cfg env z w.
Proof. intros H. unfold trading_logic. rewrite H. reflexivity. Qed.

Lemma check_exit_signals_outcome (cfg : Config) (env : Env) (z : R)
    (w : World) :
  shared_positions (snd (check_exit_signals cfg env z w)) = shared_positions w
  \/ shared_positions (snd (check_exit_signals cfg env z w)) = flat_positions.
Proof.
  unfold check_exit_signals.
  match goal with
  | |- context [if ?c then close_positions _ _ else _] => destruct c
  end; [apply close_positions_outcome | left; reflexivity].
Qed.

(** What an entry can record, whatever the world it starts from. *)
Lemma enter_outcome (cfg : Config) (env : Env) (pa pb : R) (w : World) :
  let pl := shared_positions (snd (enter_long_spread cfg env pa pb w)) in
  let ps := shared_positions (snd (enter_short_spread cfg env pa pb w)) in
  (pl = shared_positions w
   \/ (position_state pl = LongSpread /\ (0 < umac pl)%Z /\ (rcat pl < 0)%Z))
  /\ (ps = shared_positions w
      \/ (position_state ps = ShortSpread
          /\ (umac ps < 0)%Z /\ (0 < rcat ps)%Z)).
Proof.
  cbv zeta.
  destruct (Req_dec_T pa 0) as [-> | Hpa].
  { rewrite enter_long_spread_zero_price, enter_short_spread_zero_price.
    split; left; reflexivity. }
  rewrite (enter_long_spread_sized cfg env pa pb w Hpa).
  rewrite (enter_short_spread_sized cfg env pa pb w Hpa).
  cbv zeta.
  destruct ((0 <? _) && (0 <? _))%Z eqn:Epos;
    [| split; left; reflexivity].
  apply andb_true_iff in Epos. destruct Epos as [EA EB].
  apply Z.ltb_lt in EA, EB.
  unfold algo_buy, algo_sell.
  split;
    match goal with
    | |- context [try_except (submit ?g ?o1 ;; submit ?g ?o2 ;; set_positions ?q) _ w] =>
        destruct (entry_block_cases g o1 o2 q w)
          as [_ [(_ & _ & Hp) | [(_ & _ & _ & Hp) | (_ & _ & _ & Hp)]]];
        cbv zeta in Hp; rewrite Hp
    end;
    first [ left; reflexivity
          | right; simpl; repeat split; lia ].
Qed.

(** One pass through the trading logic: an open position is kept or closed,
    and with no open position the recorded positions are kept or an entry is
    recorded. *)
Lemma trading_logic_outcome (cfg : Config) (env : Env) (z pa pb : R)
    (w : World) :
  let p := shared_positions w in
  let p' := shared_positions (snd (trading_logic cfg env z pa pb w)) in
  (in_trade p = true -> p' = p \/ p' = flat_positions)
  /\ (in_trade p = false ->
      p' = p
      \/ (position_state p' = LongSpread /\ (0 < umac p')%Z /\ (rcat p' < 0)%Z)
      \/ (position_state p' = ShortSpread /\ (umac p' < 0)%Z /\ (0 < rcat p')%Z)).
Proof.
  cbv zeta. split; intros Hin.
  - rewrite (trading_logic_in_trade _ _ _ _ _ _ Hin).
    apply check_exit_signals_outcome.
  - rewrite (trading_logic_flat _ _ _ _ _ _ Hin).
    destruct (enter_outcome cfg env pa pb w) as [HL HS].
    unfold check_entry_signals.
    destruct (gtb z _); [tauto |].
    destruct (ltb z _); [tauto | left; reflexivity].
Qed.

(** ** The cycle *)

(** A cycle either returns at once or runs the trading logic on some
    Z-score. *)
Lemma execute_pairs_trading_logic_cases (cfg : Config) (env : Env) (w : World) :
  execute_pairs_trading_logic cfg env w = (Ok tt, w)
  \/ exists z pa pb,
       execute_pairs_trading_logic cfg env w = trading_logic cfg env z pa pb w.
Proof.
  unfold execute_pairs_trading_logic.
  destruct (get_data cfg (umac_bars _) _) as [[pu cu] |]; [| left; reflexivity].
  destruct (get_data cfg (rcat_bars _) _) as [[pr cr] |]; [| left; reflexivity].
  destruct (_ <? _)%Z; [left; reflexivity |].
  destruct (eqb _ 0); [left; reflexivity |].
  right. eexists _, _, _. reflexivity.
Qed.

(** The transitions of the recorded position state that the specification
    allows, from [s] to [s']. *)
Lemma transition_of_outcome (p p' : Positions) :
  (in_trade p = true -> p' = p \/ p' = flat_positions) ->
  (in_trade p = false ->
   p' = p \/ position_state p' = LongSpread \/ position_state p' = ShortSpread) ->
  let s := position_state p in
  let s' := position_state p' in
  (s = LongSpread -> s' <> ShortSpread)
  /\ (s = ShortSpread -> s' <> LongSpread)
  /\ (s <> Flat -> s' = s \/ s' = Flat)
  /\ (s' <> s -> s' <> Flat -> s = Flat).
Proof.
  intros Hin Hout. cbv zeta.
  destruct (in_trade p) eqn:E.
  - destruct (Hin eq_refl) as [-> | ->].
    + repeat split; try tauto; congruence.
    + change (position_state flat_positions) with Flat.
      repeat split; try tauto; congruence.
  - assert (Hs : position_state p = Flat)
      by (unfold position_state; rewrite E; reflexivity).
    rewrite Hs. repeat split; congruence.
Qed.

Lemma trading_logic_transition (cfg : Config) (env : Env) (z pa pb : R)
    (w : World) :
  let s := position_state (shared_positions w) in
  let s' := position_state
              (shared_positions (snd (trading_logic cfg env z pa pb w))) in
  (s = LongSpread -> s' <> ShortSpread)
  /\ (s = ShortSpread -> s' <> LongSpread)
  /\ (s <> Flat -> s' = s \/ s' = Flat)
  /\ (s' <> s -> s' <> Flat -> s = Flat).
Proof.
  destruct (trading_logic_outcome cfg env z pa pb w) as [Hin Hout].
  apply transition_of_outcome; [exact Hin |].
  intros E. destruct (Hout E) as [H | [H | H]]; tauto.
Qed.

(** C3: along every sequence of decision cycles from the initial world, on
    arbitrary Z-scores, prices and collaborators, one more cycle (and one more
    call of [execute_pairs_trading_logic] on arbitrary market data) never
    takes the recorded state from long_spread to short_spread or back: a
    state other than flat is kept or goes to flat, and a state other than
    flat is entered only from flat. *)
Theorem no_direct_reversal (cfg : Config) (before : list Input) (i : Input)
    (env : Env) :
  let w := run_cycles cfg before initial_world in
  let s := position_state (shared_positions w) in
  let legal s' :=
    (s = LongSpread -> s' <> ShortSpread)
    /\ (s = ShortSpread -> s' <> LongSpread)
    /\ (s <> Flat -> s' = s \/ s' = Flat)
    /\ (s' <> s -> s' <> Flat -> s = Flat) in
  legal (position_state
           (shared_positions (run_cycles cfg (before ++ [i]) initial_world)))
  /\ legal (position_state
              (shared_positions
                 (snd (execute_pairs_trading_logic cfg env w)))).
Proof.
  intros w s legal. split.
  - unfold run_cycles. rewrite fold_left_app. simpl.
    apply trading_logic_transition.
  - destruct (execute_pairs_trading_logic_cases cfg env w)
      as [-> | (z & pa & pb & ->)].
    + simpl. unfold legal. fold s. repeat split; try tauto; congruence.
    + apply trading_logic_transition.
Qed.

(** With a non-zero price, positive sizes and an order collaborator that
    does not raise, both entries record their position. *)
Lemma enter_records (cfg : Config) (env : Env) (pa pb : R) (w : World) :
  pa <> 0 ->
  (forall o, gateway env o <> Raises) ->
  let a := Z.min (max_position_size cfg)
                 (Py.int (buying_power (account env) / 2 / pa)) in
  let b := Py.int (IZR a * hedge_ratio cfg) in
  (0 < a)%Z -> (0 < b)%Z ->
  shared_positions (snd (enter_long_spread cfg env pa pb w))
  = {| umac := a; rcat := - b; in_trade := true;
       trade_direction := Some long_spread |}
  /\ shared_positions (snd (enter_short_spread cfg env pa pb w))
     = {| umac := - a; rcat := b; in_trade := true;
          trade_direction := Some short_spread |}.
Proof.
  intros Hpa Hgw a b Ha Hb.
  rewrite (enter_long_spread_sized cfg env pa pb w Hpa).
  rewrite (enter_short_spread_sized cfg env pa pb w Hpa).
  cbv zeta. fold a. fold b.
  apply Z.ltb_lt in Ha, Hb. rewrite Ha, Hb. simpl.
  unfold algo_buy, algo_sell.
  split;
    match goal with
    | |- context [try_except (submit ?g ?o1 ;; submit ?g ?o2 ;; set_positions ?q) _ w] =>
        destruct (entry_block_cases g o1 o2 q w)
          as [_ [(E & _) | [(_ & E & _) | (_ & _ & _ & Hp)]]];
        [ exfalso; exact (Hgw _ E) | exfalso; exact (Hgw _ E) | exact Hp ]
    end.
Qed.

(** ** The Z-score *)

Lemma get_data_some (cfg : Config) (bars : Bars) (l1 : option R)
    (prices : list R) (cur : R) :
  get_data cfg bars l1 = Some (prices, cur) <->
  bars = BarsClose prices
  /\ (lookback_period cfg <= Py.len prices)%Z
  /\ exists last_close,
       Py.last_item prices = Some last_close
       /\ cur = current_price last_close l1.
Proof.
  unfold get_data. split.
  - destruct bars as [| | close]; try discriminate.
    destruct (Py.len close <? lookback_period cfg)%Z eqn:E; [discriminate |].
    destruct (Py.last_item close) as [c |] eqn:El; [| discriminate].
    intros H; inversion H; subst. apply Z.ltb_ge in E.
    split; [reflexivity |]. split; [exact E |].
    exists c. split; [exact El | reflexivity].
  - intros (-> & Hlen & c & Hc & ->).
    apply Z.ltb_ge in Hlen. rewrite Hlen, Hc. reflexivity.
Qed.

(** Once both symbols have data the cycle is decided by the standard
    deviation of the spread history alone. *)
Lemma execute_on_data (cfg : Config) (env : Env) (pu pr : list R) (cu cr : R) :
  get_data cfg (umac_bars (md env)) (umac_l1 (md env)) = Some (pu, cu) ->
  get_data cfg (rcat_bars (md env)) (rcat_l1 (md env)) = Some (pr, cr) ->
  let spreads := spread_history cfg pu pr in
  execute_pairs_trading_logic cfg env =
  if eqb (Np.std spreads) 0 then ret tt
  else trading_logic cfg env
         ((cu - hedge_ratio cfg * cr - Np.mean spreads) / Np.std spreads)
         cu cr.
Proof.
  intros Hu Hr spreads. unfold execute_pairs_trading_logic.
  rewrite Hu, Hr.
  apply get_data_some in Hu. apply get_data_some in Hr.
  destruct Hu as (_ & Lu & _). destruct Hr as (_ & Lr & _).
  assert (E : (Z.min (Py.len pu) (Py.len pr) <? lookback_period cfg)%Z = false)
    by (apply Z.ltb_ge; lia).
  rewrite E. reflexivity.
Qed.

Lemma length_tail_slice {A : Type} (n : nat) (l : list A) :
  (n <= List.length l)%nat -> (0 < n)%nat ->
  List.length (Py.tail_slice n l) = n.
Proof.
  intros Hle Hpos. unfold Py.tail_slice.
  destruct n as [| n]; [lia |]. rewrite length_skipn. lia.
Qed.

Lemma length_spread_history (cfg : Config) (pu pr : list R) :
  List.length (spread_history cfg pu pr)
  = Nat.min (List.length pu) (List.length pr).
Proof.
  unfold spread_history. rewrite length_map, length_combine.
  destruct (Nat.min (List.length pu) (List.length pr)) as [| n] eqn:E.
  - simpl. exact E.
  - rewrite !length_tail_slice; lia.
Qed.

(** The spread history pairs the trailing windows of the two price lists. *)
Lemma spread_history_windows (cfg : Config) (pu pr : list R) :
  pu <> [] -> pr <> [] ->
  let L := Nat.min (List.length pu) (List.length pr) in
  spread_history cfg pu pr
  = map (fun ur => fst ur - hedge_ratio cfg * snd ur)
        (combine (skipn (List.length pu - L) pu)
                 (skipn (List.length pr - L) pr)).
Proof.
  intros Hu Hr L. unfold spread_history. fold L.
  destruct L as [| n] eqn:E; [| reflexivity].
  exfalso. destruct pu; [congruence |]. destruct pr; [congruence |].
  simpl in L. unfold L in E. discriminate.
Qed.

Lemma last_item_last {A : Type} (l : list A) (d : A) :
  l <> [] -> Py.last_item l = Some (last l d).
Proof.
  intros H. destruct (exists_last H) as (l' & a & ->).
  unfold Py.last_item. rewrite rev_app_distr, last_last. reflexivity.
Qed.

(** ** The scenario with twenty closes *)

Lemma scenario_mean : Np.mean Scenario.spreads = 1 - Scenario.h.
Proof. unfold Np.mean, Scenario.spreads, spread_history, Scenario.h. cbn. lra. Qed.

Lemma scenario_var (ddof : Z) :
  Np.var_ddof ddof Scenario.spreads = 20 / IZR (20 - ddof).
Proof.
  unfold Np.var_ddof. set (m := Np.mean _).
  assert (Hm : m = 1 - Scenario.h) by apply scenario_mean.
  clearbody m. subst m.
  replace (Py.len Scenario.spreads) with 20%Z by reflexivity.
  unfold Scenario.spreads, spread_history, Scenario.h. cbn -[Z.sub].
  unfold Rdiv. f_equal. lra.
Qed.

Lemma scenario_std : Np.std Scenario.spreads = 1.
Proof.
  unfold Np.std. rewrite scenario_var. simpl.
  replace (20 / 20) with 1 by lra. apply sqrt_1.
Qed.

(** The sample standard deviation of the same history is above 1.015. *)
Lemma scenario_sample_std : 1015 / 1000 < spec_sample_std Scenario.spreads.
Proof.
  unfold spec_sample_std. rewrite scenario_var. simpl.
  set (s := sqrt (20 / 19)).
  assert (Hs : s * s = 20 / 19) by (apply sqrt_sqrt; lra).
  assert (H0 : 0 <= s) by apply sqrt_pos.
  destruct (Rlt_dec (1015 / 1000) s) as [Hlt | Hge]; [exact Hlt |].
  exfalso. assert (s * s <= 1015 / 1000 * (1015 / 1000)) by nra. lra.
Qed.

Lemma scenario_get_umac (l1 : option R) :
  get_data default_config (BarsClose Scenario.umac_closes) l1
  = Some (Scenario.umac_closes, current_price 0 l1).
Proof. reflexivity. Qed.

Lemma scenario_get_rcat (l1 : option R) :
  get_data default_config (BarsClose Scenario.rcat_closes) l1
  = Some (Scenario.rcat_closes, current_price 1 l1).
Proof. reflexivity. Qed.

Lemma current_price_positive (c p : R) :
  0 < p -> current_price c (Some p) = p.
Proof.
  intros H. unfold current_price.
  apply Rlt_gt, gtb_true in H. rewrite H. reflexivity.
Qed.

(** With the last UMAC price at 2.42 the cycle acts on the Z-score 1.42. *)
Lemma high_spread_cycle :
  execute_pairs_trading_logic default_config Scenario.high_spread
  = trading_logic default_config Scenario.high_spread (142 / 100) (242 / 100) 1.
Proof.
  rewrite (execute_on_data default_config Scenario.high_spread
             Scenario.umac_closes Scenario.rcat_closes (242 / 100) 1).
  - cbv zeta. fold Scenario.spreads. rewrite scenario_std, scenario_mean.
    replace (eqb 1 0) with false by (symmetry; apply eqb_false; lra).
    f_equal. unfold Scenario.h. simpl. lra.
  - change (get_data default_config (BarsClose Scenario.umac_closes) (Some (242 / 100))
            = Some (Scenario.umac_closes, 242 / 100)).
    rewrite scenario_get_umac, current_price_positive by lra.
    reflexivity.
  - reflexivity.
Qed.

(** With no UMAC price but the close 0, and RCAT at 2, the cycle acts on the
    Z-score -2.389508. *)
Lemma zero_price_cycle :
  execute_pairs_trading_logic default_config Scenario.zero_price
  = trading_logic default_config Scenario.zero_price (- 1 - Scenario.h) 0 2.
Proof.
  rewrite (execute_on_data default_config Scenario.zero_price
             Scenario.umac_closes Scenario.rcat_closes 0 2).
  - cbv zeta. fold Scenario.spreads. rewrite scenario_std, scenario_mean.
    replace (eqb 1 0) with false by (symmetry; apply eqb_false; lra).
    f_equal. unfold Scenario.h. simpl. lra.
  - reflexivity.
  - change (get_data default_config (BarsClose Scenario.rcat_closes) (Some 2)
            = Some (Scenario.rcat_closes, 2)).
    rewrite scenario_get_rcat, current_price_positive by lra.
    reflexivity.
Qed.


(** The short entry of the high-spread scenario: 1000 UMAC shares sold,
    1389 RCAT shares bought. *)
Lemma high_spread_entry (w : World) :
  in_trade (shared_positions w) = false ->
  fst (execute_pairs_trading_logic default_config Scenario.high_spread w)
  = Ok tt
  /\ shared_positions
       (snd (execute_pairs_trading_logic default_config Scenario.high_spread w))
     = Scenario.short_1000
  /\ List.length
       (orders (snd (execute_pairs_trading_logic default_config
                       Scenario.high_spread w)))
     = (List.length (orders w) + 2)%nat.
Proof.
  intros Hflat. rewrite high_spread_cycle.
  rewrite (trading_logic_flat _ _ _ _ _ _ Hflat).
  rewrite check_entry_signals_short by (simpl; lra).
  rewrite enter_short_spread_sized by lra. cbv zeta.
  change (buying_power _) with 100000.
  change (max_position_size default_config) with 1000%Z.
  change (hedge_ratio default_config) with (1389508 / 1000000).
  rewrite (int_floor (100000 / 2 / (242 / 100)) 20661) by lra.
  change (Z.min 1000 20661) with 1000%Z.
  rewrite (int_floor (1000 * (1389508 / 1000000)) 1389) by lra.
  simpl. rewrite !length_app. simpl. repeat split. lia.
Qed.

(** The cycle of the zero-price scenario raises and leaves the world as it
    was. *)
Lemma zero_price_raises (w : World) :
  in_trade (shared_positions w) = false ->
  execute_pairs_trading_logic default_config Scenario.zero_price w
  = (Exc ZeroDivisionError, w).
Proof.
  intros Hflat. rewrite zero_price_cycle.
  rewrite (trading_logic_flat _ _ _ _ _ _ Hflat).
  rewrite check_entry_signals_long by (unfold Scenario.h; simpl; lra).
  apply enter_long_spread_zero_price.
Qed.

(** C1, as stated, fails: on twenty closes per symbol the denominator of the
    Z-score is 1, the standard deviation with divisor 20, and not the sample
    standard deviation with divisor 19; the cycle acts on Z = 1.42 and enters
    the short spread, while the Z-score over the sample standard deviation
    stays under the entry threshold 1.4. *)
Lemma zscore_not_sample_std :
  let cfg := default_config in
  let env := Scenario.high_spread in
  let spreads := spread_history cfg Scenario.umac_closes Scenario.rcat_closes in
  let current_spread := 242 / 100 - hedge_ratio cfg * 1 in
  (lookback_period cfg <= Py.len spreads)%Z
  /\ execute_pairs_trading_logic cfg env initial_world
     = trading_logic cfg env (142 / 100) (242 / 100) 1 initial_world
  /\ (current_spread - Np.mean spreads) / Np.std spreads = 142 / 100
  /\ Np.std spreads <> spec_sample_std spreads
  /\ (current_spread - Np.mean spreads) / spec_sample_std spreads
     < entry_threshold cfg
  /\ position_state
       (shared_positions (snd (execute_pairs_trading_logic cfg env initial_world)))
     = ShortSpread.
Proof.
  cbv zeta.
  pose proof scenario_sample_std as Hs.
  pose proof scenario_std as Hstd.
  pose proof scenario_mean as Hm.
  unfold Scenario.spreads, Scenario.h in Hs, Hstd, Hm.
  split; [vm_compute; discriminate |].
  split; [rewrite high_spread_cycle; reflexivity |].
  rewrite Hstd, Hm.
  change (hedge_ratio default_config) with (1389508 / 1000000).
  change (entry_threshold default_config) with (14 / 10).
  split; [lra |]. split; [lra |].
  split.
  - set (s := spec_sample_std _) in *.
    apply Rmult_lt_reg_r with s; [lra |].
    unfold Rdiv. rewrite Rmult_assoc, Rinv_l by lra. lra.
  - destruct (high_spread_entry initial_world eq_refl) as (_ & -> & _).
    reflexivity.
Qed.

(** Without a close for one of the symbols the cycle returns. *)
Lemma execute_without_closes (cfg : Config) (env : Env) (pu pr : list R)
    (w : World) :
  umac_bars (md env) = BarsClose pu ->
  rcat_bars (md env) = BarsClose pr ->
  pu = [] \/ pr = [] ->
  execute_pairs_trading_logic cfg env w = (Ok tt, w).
Proof.
  intros Hu Hr Hempty. unfold execute_pairs_trading_logic.
  assert (Hnone : forall l1, get_data cfg (BarsClose []) l1 = None).
  { intros l1. unfold get_data. simpl.
    destruct (Py.len [] <? lookback_period cfg)%Z; reflexivity. }
  rewrite Hu, Hr.
  destruct Hempty as [-> | ->].
  - rewrite Hnone. reflexivity.
  - rewrite Hnone.
    destruct (get_data cfg (BarsClose pu) _) as [[? ?] |]; reflexivity.
Qed.

(** C1, amended: when both symbols have at least [lookback_period] closes,
    the spread history holds the [L = min(len(A), len(B))] trailing spreads,
    at least [lookback_period] of them; the denominator of the Z-score is
    their population standard deviation, the square root of the mean squared
    deviation with divisor [L] (numpy's default, ddof=0); and the cycle runs
    the trading logic on [Z = (current_spread - mean) / stdev] as computed,
    unclamped, unless the standard deviation is 0, in which case it
    returns. *)
Theorem zscore_population_std (cfg : Config) (env : Env) (pu pr : list R)
    (w : World) :
  umac_bars (md env) = BarsClose pu ->
  rcat_bars (md env) = BarsClose pr ->
  (lookback_period cfg <= Py.len pu)%Z ->
  (lookback_period cfg <= Py.len pr)%Z ->
  let L := Nat.min (List.length pu) (List.length pr) in
  let spreads :=
    map (fun ur => fst ur - hedge_ratio cfg * snd ur)
        (combine (skipn (List.length pu - L) pu)
                 (skipn (List.length pr - L) pr)) in
  let mean := Py.sum spreads / IZR (Z.of_nat L) in
  let stdev :=
    sqrt (Py.sum (map (fun x => (x - mean) * (x - mean)) spreads)
          / IZR (Z.of_nat L)) in
  let current_umac := current_price (last pu 0) (umac_l1 (md env)) in
  let current_rcat := current_price (last pr 0) (rcat_l1 (md env)) in
  let current_spread := current_umac - hedge_ratio cfg * current_rcat in
  List.length spreads = L
  /\ (lookback_period cfg <= Z.of_nat L)%Z
  /\ (stdev <> 0 ->
      execute_pairs_trading_logic cfg env w
      = trading_logic cfg env ((current_spread - mean) / stdev)
          current_umac current_rcat w)
  /\ (stdev = 0 -> execute_pairs_trading_logic cfg env w = (Ok tt, w)).
Proof.
  intros Hu Hr Lu Lr L spreads mean stdev cu cr current_spread.
  assert (HL : (lookback_period cfg <= Z.of_nat L)%Z)
    by (unfold L, Py.len in *; lia).
  assert (Hempty : pu = [] \/ pr = [] ->
                   spreads = [] /\ L = 0%nat).
  { intros [-> | ->].
    - split; reflexivity.
    - assert (E : L = 0%nat) by (unfold L; simpl; apply Nat.min_0_r).
      split; [| exact E]. unfold spreads.
      destruct (skipn (List.length pu - L) pu); reflexivity. }
  destruct (list_eq_dec Req_dec_T pu []) as [Eu | Nu];
    [| destruct (list_eq_dec Req_dec_T pr []) as [Er | Nr]].
  1, 2: destruct Hempty as [Hs HL0]; [tauto |];
    assert (Hz : stdev = 0)
      by (unfold stdev; rewrite Hs; simpl; unfold Rdiv;
          rewrite Rmult_0_l; apply sqrt_0);
    (split; [rewrite Hs, HL0; reflexivity |]);
    (split; [exact HL |]);
    (split; [intros N; contradiction |]);
    intros _; apply (execute_without_closes cfg env pu pr w Hu Hr); tauto.
  assert (Hsp : spread_history cfg pu pr = spreads)
    by (apply spread_history_windows; assumption).
  assert (Hlen : List.length spreads = L)
    by (rewrite <- Hsp; apply length_spread_history).
  assert (Hmean : Np.mean spreads = mean)
    by (unfold Np.mean, mean, Py.len; rewrite Hlen; reflexivity).
  assert (Hstd : Np.std spreads = stdev).
  { unfold Np.std, Np.var_ddof, stdev. rewrite Hmean.
    unfold Py.len. rewrite Hlen, Z.sub_0_r. reflexivity. }
  assert (Gu : get_data cfg (umac_bars (md env)) (umac_l1 (md env))
               = Some (pu, cu)).
  { apply get_data_some. split; [exact Hu |]. split; [exact Lu |].
    exists (last pu 0). split; [apply last_item_last; exact Nu | reflexivity]. }
  assert (Gr : get_data cfg (rcat_bars (md env)) (rcat_l1 (md env))
               = Some (pr, cr)).
  { apply get_data_some. split; [exact Hr |]. split; [exact Lr |].
    exists (last pr 0). split; [apply last_item_last; exact Nr | reflexivity]. }
  split; [exact Hlen |].
  split; [exact HL |].
  rewrite (execute_on_data cfg env pu pr cu cr Gu Gr). cbv zeta.
  rewrite Hsp, Hstd, Hmean.
  split; intros Hs.
  - apply eqb_false in Hs. rewrite Hs. reflexivity.
  - apply eqb_true in Hs. rewrite Hs. reflexivity.
Qed.

(** The amended C1 on the high-spread scenario. *)
Lemma zscore_population_std_scenario :
  let env := Scenario.high_spread in
  (umac_bars (md env) = BarsClose Scenario.umac_closes
   /\ rcat_bars (md env) = BarsClose Scenario.rcat_closes
   /\ (lookback_period default_config <= Py.len Scenario.umac_closes)%Z
   /\ (lookback_period default_config <= Py.len Scenario.rcat_closes)%Z)
  /\ List.length
       (map (fun ur => fst ur - hedge_ratio default_config * snd ur)
          (combine Scenario.umac_closes Scenario.rcat_closes))
     = 20%nat.
Proof.
  intros env.
  assert (H1 : umac_bars (md env) = BarsClose Scenario.umac_closes)
    by reflexivity.
  assert (H2 : rcat_bars (md env) = BarsClose Scenario.rcat_closes)
    by reflexivity.
  assert (H4 : (lookback_period default_config
                <= Py.len Scenario.umac_closes)%Z)
    by (vm_compute; discriminate).
  assert (H5 : (lookback_period default_config
                <= Py.len Scenario.rcat_closes)%Z)
    by (vm_compute; discriminate).
  split; [repeat split; assumption |].
  exact (proj1 (zscore_population_std default_config env _ _ initial_world
                  H1 H2 H4 H5)).
Defined.

(** ** Skipped cycles *)

(** Without rounding the parametric cycle is the cycle of the rest of this
    development. *)
Lemma execute_on_exact_floats (cfg : Config) (env : Env) :
  execute_pairs_trading_logic_on exact_floats cfg env
  = execute_pairs_trading_logic cfg env.
Proof. reflexivity. Qed.




(** ** The daily trigger *)

(** The handler does nothing when the event is not the daily update of the
    RCAT instance, when the day is already processed, or when an execution is
    in progress. *)
Lemma on_timer_skips (self : Strategy) (ev : Event) (env : Env) (w : World) :
  is_coordinator self ev = false \/ may_process ev w = false ->
  on_timer self ev env w = (Ok tt, w).
Proof.
  intros H. unfold on_timer.
  destruct (is_coordinator self ev); [| reflexivity].
  destruct H as [H | H]; [discriminate |]. rewrite H. reflexivity.
Qed.

(** The handler when it runs a cycle: the world handed to the cycle has the
    lock set and the cycle counted; afterwards the lock is released, a timer
    is scheduled, and the day is recorded when the cycle returned. *)
Lemma on_timer_processes (self : Strategy) (ev : Event) (env : Env)
    (w : World) :
  is_coordinator self ev = true ->
  may_process ev w = true ->
  let w1 := snd ((set_execution_lock true ;; count_cycle) w) in
  let r := execute_pairs_trading_logic (params self) env w1 in
  let w' := snd (on_timer self ev env w) in
  fst (on_timer self ev env w) = Ok tt
  /\ execution_lock w1 = true
  /\ execution_lock w' = false
  /\ cycles w' = S (cycles w)
  /\ time_triggers w' = S (time_triggers w)
  /\ shared_positions w' = shared_positions (snd r)
  /\ orders w' = orders (snd r)
  /\ last_processed_date w'
     = match fst r with
       | Ok _ => Some (timestamp ev)
       | Exc _ => last_processed_date w
       end.
Proof.
  intros Hc Hp. cbv zeta. unfold on_timer. rewrite Hc, Hp.
  unfold bind, try_finally, try_except, set_execution_lock, count_cycle,
    set_last_processed_date, add_time_trigger, ret. simpl.
  match goal with
  | |- context [execute_pairs_trading_logic ?c ?e ?x] =>
      pose proof (keeps_execute_pairs_trading_logic c e x) as Hk;
      destruct (execute_pairs_trading_logic c e x) as [[[] | e'] w2]
  end; destruct Hk as (Hd & Hl & Ht & Hn); simpl in *;
    repeat split; congruence.
Qed.

(** C8: when the handler runs a decision cycle, no exception leaves it and
    the execution lock is released when it returns, whether the cycle
    returned or raised; a cycle that raised leaves [_last_processed_date] as
    it was, so the day still counts as not processed, and a cycle that
    returned records the day. *)
Theorem failed_cycle_not_processed (self : Strategy) (ev : Event)
    (env : Env) (w : World) :
  is_coordinator self ev = true ->
  may_process ev w = true ->
  let w1 := snd ((set_execution_lock true ;; count_cycle) w) in
  let r := execute_pairs_trading_logic (params self) env w1 in
  let w' := snd (on_timer self ev env w) in
  fst (on_timer self ev env w) = Ok tt
  /\ execution_lock w' = false
  /\ (forall e, fst r = Exc e ->
      last_processed_date w' = last_processed_date w
      /\ may_process ev w' = true)
  /\ (fst r = Ok tt -> last_processed_date w' = Some (timestamp ev)).
Proof.
  intros Hc Hp w1 r w'.
  destruct (on_timer_processes self ev env w Hc Hp)
    as (Hok & _ & Hl & _ & _ & _ & _ & Hd).
  fold w1 r w' in Hl, Hd.
  split; [exact Hok |]. split; [exact Hl |].
  split.
  - intros e He. rewrite He in Hd. split; [exact Hd |].
    unfold may_process in *. rewrite Hd, Hl.
    apply andb_true_iff in Hp. destruct Hp as [Hp _]. rewrite Hp. reflexivity.
  - intros He. rewrite He in Hd. exact Hd.
Qed.

(** C8 on the zero-price scenario: the cycle raises [ZeroDivisionError],
    the lock is released and the day is not recorded. *)
Lemma failed_cycle_not_processed_scenario :
  let self := Scenario.rcat_instance in
  let ev := Scenario.daily 1%Z in
  let env := Scenario.zero_price in
  let w1 := snd ((set_execution_lock true ;; count_cycle) initial_world) in
  let w' := snd (on_timer self ev env initial_world) in
  (is_coordinator self ev = true /\ may_process ev initial_world = true
   /\ fst (execute_pairs_trading_logic (params self) env w1)
      = Exc ZeroDivisionError)
  /\ execution_lock w' = false
  /\ last_processed_date w' = None.
Proof.
  intros self ev env w1 w'.
  assert (Hc : is_coordinator self ev = true) by reflexivity.
  assert (Hp : may_process ev initial_world = true) by reflexivity.
  assert (He : fst (execute_pairs_trading_logic (params self) env w1)
               = Exc ZeroDivisionError).
  { unfold self, env. simpl params.
    rewrite zero_price_raises by reflexivity. reflexivity. }
  split; [repeat split; assumption |].
  destruct (failed_cycle_not_processed self ev env initial_world Hc Hp)
    as (_ & Hl & Hraise & _).
  split; [exact Hl |].
  exact (proj1 (Hraise ZeroDivisionError He)).
Defined.

(** C2, as stated, fails: the first fire of the day runs a cycle that raises
    (zero UMAC price), the handler completes with the lock released and the
    day not recorded, and the second fire of the same day runs a second
    cycle, which enters the short spread. *)
Lemma second_fire_after_failed_cycle :
  let self := Scenario.rcat_instance in
  let ev := Scenario.daily 1%Z in
  let w1 := snd (on_timer self ev Scenario.zero_price initial_world) in
  let w2 := snd (on_timer self ev Scenario.high_spread w1) in
  cycles w1 = 1%nat
  /\ execution_lock w1 = false
  /\ cycles w2 = 2%nat
  /\ position_state (shared_positions w2) = ShortSpread
  /\ List.length (orders w2) = 2%nat.
Proof.
  intros self ev w1 w2.
  destruct (on_timer_processes self ev Scenario.zero_price initial_world
              eq_refl eq_refl)
    as (_ & _ & Hl1 & Hc1 & _ & Hp1 & Ho1 & Hd1).
  cbv zeta in Hl1, Hc1, Hp1, Ho1, Hd1. fold w1 in Hl1, Hc1, Hp1, Ho1, Hd1.
  simpl params in Hp1, Ho1, Hd1.
  rewrite zero_price_raises in Hp1, Ho1, Hd1 by reflexivity.
  simpl in Hp1, Ho1, Hd1, Hc1.
  assert (Hmay : may_process ev w1 = true)
    by (unfold may_process; rewrite Hd1, Hl1; reflexivity).
  destruct (on_timer_processes self ev Scenario.high_spread w1 eq_refl Hmay)
    as (_ & _ & _ & Hc2 & _ & Hp2 & Ho2 & _).
  cbv zeta in Hc2, Hp2, Ho2. fold w2 in Hc2, Hp2, Ho2.
  simpl params in Hp2, Ho2.
  match type of Hp2 with
  | context [execute_pairs_trading_logic _ _ ?x] =>
      destruct (high_spread_entry x) as (_ & Hs & Hn);
        [simpl; rewrite Hp1; reflexivity |];
      rewrite Hs in Hp2; rewrite Ho2, Hn
  end.
  split; [exact Hc1 |]. split; [exact Hl1 |].
  split; [rewrite Hc2, Hc1; reflexivity |].
  split; [rewrite Hp2; reflexivity |].
  simpl. rewrite Ho1. reflexivity.
Qed.

(** C2, amended: the first fire of a trading day runs one decision cycle,
    with the execution lock set from before the cycle until after it.  A
    second fire of the same day, on any instance, does nothing at all when
    it finds the lock set (the first fire still in progress) or when it
    comes after a first fire whose cycle returned without raising: exactly
    one cycle has run.  After a first fire whose cycle raised, the day is
    not recorded and the second fire on the coordinator runs a second
    cycle. *)
Theorem same_day_fire_skipped (self self2 : Strategy) (ev ev2 : Event)
    (env env2 : Env) (w : World) :
  timestamp ev2 = timestamp ev ->
  is_coordinator self ev = true ->
  may_process ev w = true ->
  let w1 := snd ((set_execution_lock true ;; count_cycle) w) in
  let r := execute_pairs_trading_logic (params self) env w1 in
  let w' := snd (on_timer self ev env w) in
  cycles w' = S (cycles w)
  /\ execution_lock w1 = true
  /\ execution_lock (snd r) = true
  /\ (forall wp, execution_lock wp = true ->
      on_timer self2 ev2 env2 wp = (Ok tt, wp))
  /\ (fst r = Ok tt ->
      on_timer self2 ev2 env2 w' = (Ok tt, w')
      /\ cycles (snd (on_timer self2 ev2 env2 w')) = S (cycles w))
  /\ (forall e, fst r = Exc e ->
      is_coordinator self2 ev2 = true ->
      cycles (snd (on_timer self2 ev2 env2 w')) = S (S (cycles w))).
Proof.
  intros Hday Hc Hp w1 r w'.
  destruct (on_timer_processes self ev env w Hc Hp)
    as (_ & Hl1 & Hl & Hn & _ & _ & _ & Hd).
  fold w1 r w' in Hl1, Hl, Hn, Hd.
  assert (Hlocked : forall wp, execution_lock wp = true ->
                    on_timer self2 ev2 env2 wp = (Ok tt, wp)).
  { intros wp Hwp. apply on_timer_skips. right.
    unfold may_process. rewrite Hwp. apply andb_false_r. }
  split; [exact Hn |]. split; [exact Hl1 |].
  split.
  { destruct (keeps_execute_pairs_trading_logic (params self) env w1)
      as (_ & Hk & _).
    fold r in Hk. rewrite Hk. exact Hl1. }
  split; [exact Hlocked |].
  split.
  - intros Hr. rewrite Hr in Hd.
    assert (Hskip : on_timer self2 ev2 env2 w' = (Ok tt, w')).
    { apply on_timer_skips. right. unfold may_process.
      rewrite Hd, Hday. simpl. rewrite Z.eqb_refl. reflexivity. }
    split; [exact Hskip |]. rewrite Hskip. exact Hn.
  - intros e Hr Hc2. rewrite Hr in Hd.
    assert (Hmay : may_process ev2 w' = true).
    { unfold may_process in *. rewrite Hd, Hl, Hday.
      apply andb_true_iff in Hp. destruct Hp as [Hp _].
      rewrite Hp. reflexivity. }
    destruct (on_timer_processes self2 ev2 env2 w' Hc2 Hmay)
      as (_ & _ & _ & Hn2 & _).
    rewrite Hn2, Hn. reflexivity.
Qed.

(** The amended C2 on two fires of day 1 whose first cycle enters the short
    spread: the second fire changes nothing and one cycle has run. *)
Lemma same_day_fire_skipped_scenario :
  let self := Scenario.rcat_instance in
  let ev := Scenario.daily 1%Z in
  let env := Scenario.high_spread in
  let w1 := snd ((set_execution_lock true ;; count_cycle) initial_world) in
  let w' := snd (on_timer self ev env initial_world) in
  (timestamp ev = timestamp ev
   /\ is_coordinator self ev = true
   /\ may_process ev initial_world = true
   /\ fst (execute_pairs_trading_logic (params self) env w1) = Ok tt)
  /\ on_timer self ev env w' = (Ok tt, w')
  /\ cycles (snd (on_timer self ev env w')) = 1%nat.
Proof.
  intros self ev env w1 w'.
  assert (Hd : timestamp ev = timestamp ev) by reflexivity.
  assert (Hc : is_coordinator self ev = true) by reflexivity.
  assert (Hp : may_process ev initial_world = true) by reflexivity.
  assert (Hr : fst (execute_pairs_trading_logic (params self) env w1)
               = Ok tt)
    by (apply (high_spread_entry w1); reflexivity).
  split; [repeat split; assumption |].
  exact (proj1 (proj2 (proj2 (proj2 (proj2
           (same_day_fire_skipped self self ev ev env env initial_world
              Hd Hc Hp))))) Hr).
Defined.

(** ** The scenarios of the specification on the state machine *)

Lemma scenario_sized :
  let env := Scenario.sizing_env Scenario.accept_all in
  Z.min (max_position_size default_config)
        (Py.int (buying_power (account env) / 2 / 20)) = 1000%Z
  /\ Py.int (IZR 1000 * hedge_ratio default_config) = 1389%Z.
Proof.
  cbv zeta.
  change (buying_power _) with 100000.
  change (max_position_size default_config) with 1000%Z.
  change (hedge_ratio default_config) with (1389508 / 1000000).
  rewrite (int_floor (100000 / 2 / 20) 2500) by lra.
  rewrite (int_floor (1000 * (1389508 / 1000000)) 1389) by lra.
  split; reflexivity.
Qed.

(** Z = 1.5 from the initial world, prices 20 and 15: the short spread with
    1000 UMAC shares sold and 1389 RCAT shares bought. *)
Lemma scenario_short_cycle :
  shared_positions
    (snd (trading_logic default_config
            (Scenario.sizing_env Scenario.accept_all) (15 / 10) 20 15
            initial_world))
  = Scenario.short_1000.
Proof.
  rewrite trading_logic_flat by reflexivity.
  rewrite check_entry_signals_short by (simpl; lra).
  destruct scenario_sized as [Ha Hb]. cbv zeta in Ha.
  assert (Hpa : (20 : R) <> 0) by lra.
  assert (Hgw : forall o, gateway (Scenario.sizing_env Scenario.accept_all) o
                          <> Raises) by (intros o; discriminate).
  destruct (enter_records default_config
              (Scenario.sizing_env Scenario.accept_all) 20 15 initial_world
              Hpa Hgw) as [_ Hs].
  - rewrite Ha. reflexivity.
  - rewrite Ha, Hb. reflexivity.
  - rewrite Hs, Ha, Hb. reflexivity.
Qed.

(** C3 on the two scenarios in sequence: after the cycle on Z = 1.5 the
    state is the short spread, and the cycle on Z = 0.1 does not take it to
    the long spread. *)
Lemma no_direct_reversal_scenario :
  let env := Scenario.sizing_env Scenario.accept_all in
  let first := {| input_env := env; input_z := 15 / 10;
                  input_umac_price := 20; input_rcat_price := 15 |} in
  let second := {| input_env := env; input_z := 1 / 10;
                   input_umac_price := 20; input_rcat_price := 15 |} in
  position_state
    (shared_positions (run_cycles default_config [first] initial_world))
  = ShortSpread
  /\ position_state
       (shared_positions
          (run_cycles default_config ([first] ++ [second]) initial_world))
     <> LongSpread.
Proof.
  intros env first second.
  assert (Hs : position_state
                 (shared_positions
                    (run_cycles default_config [first] initial_world))
               = ShortSpread).
  { unfold run_cycles, cycle. simpl fold_left. unfold first. simpl input_env.
    simpl input_z. simpl input_umac_price. simpl input_rcat_price.
    unfold env. rewrite scenario_short_cycle. reflexivity. }
  split; [exact Hs |].
  destruct (no_direct_reversal default_config [first] second env)
    as [(_ & Hno & _) _].
  exact (Hno Hs).
Defined.

Lemma consistent_trading_logic (cfg : Config) (env : Env) (z pa pb : R)
    (w : World) :
  consistent (shared_positions w) ->
  consistent (shared_positions (snd (trading_logic cfg env z pa pb w))).
Proof.
  intros Hc.
  destruct (trading_logic_outcome cfg env z pa pb w) as [Hin Hout].
  assert (Hflat : consistent flat_positions)
    by (split; simpl; [discriminate | intros N; exfalso; apply N; reflexivity]).
  assert (Hstate : forall p, position_state p <> Flat -> consistent p).
  { intros p Hp. unfold position_state in Hp. unfold consistent.
    destruct (in_trade p); [| congruence].
    destruct (trade_direction p); [| congruence].
    split; intros _; [discriminate | reflexivity]. }
  destruct (in_trade (shared_positions w)) eqn:E.
  - destruct (Hin eq_refl) as [-> | ->]; assumption.
  - destruct (Hout eq_refl) as [-> | [(H & _) | (H & _)]];
      [assumption | |]; apply Hstate; rewrite H; discriminate.
Qed.

(** The class variables stay consistent along every sequence of cycles. *)
Lemma consistent_run_cycles (cfg : Config) (inputs : list Input) (w : World) :
  consistent (shared_positions w) ->
  consistent (shared_positions (run_cycles cfg inputs w)).
Proof.
  revert w. induction inputs as [| i inputs IH]; intros w Hc; [exact Hc |].
  simpl. apply IH. apply consistent_trading_logic. exact Hc.
Qed.

(** ** The trade-ledger loader *)

Lemma In_insert_key (k x : Date) (keys : list Date) :
  In x (insert_key k keys) <-> x = k \/ In x keys.
Proof.
  induction keys as [| k' rest IH]; simpl.
  - intuition.
  - destruct (k <? k')%Z eqn:E1; simpl; [intuition |].
    destruct (k =? k')%Z eqn:E2; simpl.
    + apply Z.eqb_eq in E2. subst. intuition.
    + rewrite IH. intuition.
Qed.

Lemma In_group_keys (df : list Trade) (d : Date) :
  In d (group_keys df) <-> exists t, In t df /\ entry_date_only t = d.
Proof.
  unfold group_keys. induction df as [| t df IH]; simpl.
  - split; [intros [] | intros (t & [] & _)].
  - rewrite In_insert_key, IH. split.
    + intros [-> | (t' & Hin & Hd)]; [exists t; auto | exists t'; auto].
    + intros (t' & [<- | Hin] & Hd); [left; auto | right; exists t'; auto].
Qed.

Lemma insert_key_below (k : Date) (keys : list Date) :
  Forall (Z.lt k) keys -> insert_key k keys = k :: keys.
Proof.
  intros H. destruct keys as [| k' rest]; [reflexivity |].
  inversion H; subst. simpl.
  replace (k <? k')%Z with true by (symmetry; apply Z.ltb_lt; assumption).
  reflexivity.
Qed.

Lemma sorted_insert_key (k : Date) (keys : list Date) :
  StronglySorted Z.lt keys -> StronglySorted Z.lt (insert_key k keys).
Proof.
  induction keys as [| k' rest IH]; intros Hs; simpl.
  - constructor; constructor.
  - inversion Hs as [| ? ? Hrest Hall]; subst.
    destruct (k <? k')%Z eqn:E1.
    + apply Z.ltb_lt in E1. constructor; [exact Hs |].
      constructor; [exact E1 |].
      eapply Forall_impl; [| exact Hall]. intros; lia.
    + destruct (k =? k')%Z eqn:E2; [exact Hs |].
      apply Z.ltb_ge in E1. apply Z.eqb_neq in E2.
      constructor; [apply IH; exact Hrest |].
      apply Forall_forall. intros x Hx. apply In_insert_key in Hx.
      destruct Hx as [-> | Hx]; [lia |].
      rewrite Forall_forall in Hall. apply Hall. exact Hx.
Qed.

Lemma sorted_group_keys (df : list Trade) : StronglySorted Z.lt (group_keys df).
Proof.
  unfold group_keys. induction df as [| t df IH]; simpl.
  - constructor.
  - apply sorted_insert_key. exact IH.
Qed.

(** Filtering the keys commutes with inserting one. *)
Lemma filter_insert_key (P : Date -> bool) (k : Date) (keys : list Date) :
  StronglySorted Z.lt keys ->
  filter P (insert_key k keys)
  = if P k then insert_key k (filter P keys) else filter P keys.
Proof.
  induction keys as [| k' rest IH]; intros Hs; simpl.
  - destruct (P k); reflexivity.
  - inversion Hs as [| ? ? Hrest Hall]; subst.
    destruct (k <? k')%Z eqn:E1; [| destruct (k =? k')%Z eqn:E2].
    + apply Z.ltb_lt in E1. simpl.
      destruct (P k) eqn:Pk; [| reflexivity].
      symmetry. apply (insert_key_below k (filter P (k' :: rest))).
      apply Forall_forall. intros x Hx. apply filter_In in Hx.
      destruct Hx as [[<- | Hx] _]; [exact E1 |].
      rewrite Forall_forall in Hall. specialize (Hall x Hx). lia.
    + apply Z.eqb_eq in E2. subst k'. simpl.
      destruct (P k) eqn:Pk; [| reflexivity].
      simpl. rewrite E1, Z.eqb_refl. reflexivity.
    + simpl. rewrite (IH Hrest).
      destruct (P k') eqn:Pk'; destruct (P k) eqn:Pk; try reflexivity.
      simpl. rewrite E1, E2. reflexivity.
Qed.

Lemma group_keys_filter (P : Date -> bool) (df : list Trade) :
  group_keys (filter (fun t => P (entry_date_only t)) df)
  = filter P (group_keys df).
Proof.
  induction df as [| t df IH]; [reflexivity |].
  change (group_keys (t :: df))
    with (insert_key (entry_date_only t) (group_keys df)).
  rewrite filter_insert_key by apply sorted_group_keys.
  simpl. destruct (P (entry_date_only t)).
  - change (group_keys (t :: ?l))
      with (insert_key (entry_date_only t) (group_keys l)).
    rewrite IH. reflexivity.
  - exact IH.
Qed.

Lemma filter_filter {A : Type} (f g : A -> bool) (l : list A) :
  filter f (filter g l) = filter (fun x => f x && g x) l.
Proof.
  induction l as [| x l IH]; [reflexivity |]. simpl.
  destruct (g x); simpl; [| rewrite andb_false_r; exact IH].
  rewrite andb_true_r. destruct (f x); simpl; rewrite IH; reflexivity.
Qed.

(** The rows of one symbol in the group of one date. *)
Lemma length_group_rows (s : string) (d : Date) (df : list Trade) :
  List.length
    (filter (has_symbol s) (filter (fun t => (entry_date_only t =? d)%Z) df))
  = rows_on s d df.
Proof. unfold rows_on. rewrite filter_filter. reflexivity. Qed.

(** The loop body appends a session exactly when the group has one UMAC row
    and one RCAT row, and builds it from these two rows. *)
Lemma session_of_group_spec (d : Date) (g : list Trade) (s : Session) :
  In s (session_of_group (d, g)) <->
  exists u r,
    filter (has_symbol "UMAC") g = [u]
    /\ filter (has_symbol "RCAT") g = [r]
    /\ s = {| date := d;
              session_entry_date := entry_date u;
              session_exit_date := exit_date u;
              net_pl := entry_pl u + entry_pl r - (exit_fees u + exit_fees r);
              capital_deployed :=
                Rabs (entry_shares u) * entry_price u
                + Rabs (entry_shares r) * entry_price r;
              session_return :=
                if gtb (Rabs (entry_shares u) * entry_price u
                        + Rabs (entry_shares r) * entry_price r) 0
                then (entry_pl u + entry_pl r - (exit_fees u + exit_fees r))
                     / (Rabs (entry_shares u) * entry_price u
                        + Rabs (entry_shares r) * entry_price r)
                else 0 |}.
Proof.
  unfold session_of_group.
  destruct (filter (has_symbol "UMAC") g) as [| u [| u' lu]];
    destruct (filter (has_symbol "RCAT") g) as [| r [| r' lr]]; simpl;
    split;
    try (intros []; fail);
    try (intros (u0 & r0 & Hu & Hr & _); discriminate).
  - intros [<- | []]. exists u, r. repeat split.
  - intros (u0 & r0 & Hu & Hr & ->). inversion Hu; inversion Hr; subst.
    left. reflexivity.
Qed.

Lemma session_of_group_unpaired (df : list Trade) (d : Date) :
  paired df d = false ->
  session_of_group (d, filter (fun t => (entry_date_only t =? d)%Z) df) = [].
Proof.
  intros H. unfold session_of_group. rewrite !length_group_rows.
  unfold paired in H. rewrite H. reflexivity.
Qed.

Lemma session_of_group_paired (df : list Trade) (d : Date) :
  paired df d = true ->
  exists s,
    session_of_group (d, filter (fun t => (entry_date_only t =? d)%Z) df) = [s]
    /\ date s = d.
Proof.
  intros H. unfold session_of_group. rewrite !length_group_rows.
  unfold paired in H. rewrite H.
  apply andb_true_iff in H. destruct H as [Hu Hr].
  apply Nat.eqb_eq in Hu, Hr. rewrite <- length_group_rows in Hu, Hr.
  destruct (filter (has_symbol "UMAC") _) as [| u lu]; [discriminate |].
  destruct (filter (has_symbol "RCAT") _) as [| r lr]; [discriminate |].
  eexists. split; reflexivity.
Qed.

Lemma In_pairs_sessions (df : list Trade) (s : Session) :
  In s (pairs_sessions df) <->
  exists d, In d (group_keys df)
            /\ In s (session_of_group
                       (d, filter (fun t => (entry_date_only t =? d)%Z) df)).
Proof.
  unfold pairs_sessions, groupby. rewrite in_flat_map. split.
  - intros (g & Hg & Hs). apply in_map_iff in Hg.
    destruct Hg as (d & <- & Hd). exists d. auto.
  - intros (d & Hd & Hs). eexists. split; [| exact Hs].
    apply in_map_iff. exists d. auto.
Qed.

Lemma paired_has_rows (df : list Trade) (d : Date) :
  paired df d = true -> In d (group_keys df).
Proof.
  intros H. unfold paired in H. apply andb_true_iff in H.
  destruct H as [Hu _]. apply Nat.eqb_eq in Hu. unfold rows_on in Hu.
  destruct (filter _ df) as [| t l] eqn:E; [discriminate |].
  assert (Hin : In t (filter
                        (fun t => has_symbol "UMAC" t
                                  && (entry_date_only t =? d)%Z) df))
    by (rewrite E; left; reflexivity).
  apply filter_In in Hin. destruct Hin as [Hin Ht].
  apply andb_true_iff in Ht. destruct Ht as [_ Ht]. apply Z.eqb_eq in Ht.
  apply In_group_keys. exists t. auto.
Qed.

Lemma flat_map_filter {A B : Type} (f : A -> list B) (P : A -> bool)
    (l : list A) :
  (forall x, In x l -> P x = false -> f x = []) ->
  flat_map f (filter P l) = flat_map f l.
Proof.
  induction l as [| x l IH]; intros H; [reflexivity |]. simpl.
  destruct (P x) eqn:E; simpl.
  - rewrite IH; [reflexivity | intros y Hy; apply H; right; exact Hy].
  - rewrite (H x (or_introl eq_refl) E). simpl.
    apply IH. intros y Hy; apply H; right; exact Hy.
Qed.

Lemma flat_map_map {A B C : Type} (f : B -> list C) (g : A -> B)
    (l : list A) :
  flat_map f (map g l) = flat_map (fun x => f (g x)) l.
Proof.
  induction l as [| x l IH]; [reflexivity |]. simpl. rewrite IH. reflexivity.
Qed.

Lemma flat_map_agree {A B : Type} (f g : A -> list B) (l : list A) :
  (forall x, In x l -> f x = g x) -> flat_map f l = flat_map g l.
Proof.
  induction l as [| x l IH]; intros H; [reflexivity |]. simpl.
  rewrite (H x (or_introl eq_refl)), IH; [reflexivity |].
  intros y Hy. apply H. right. exact Hy.
Qed.

(** Dropping the rows of the dates that are not paired changes no session. *)
Lemma pairs_sessions_of_paired_rows (df : list Trade) :
  pairs_sessions (filter (fun t => paired df (entry_date_only t)) df)
  = pairs_sessions df.
Proof.
  unfold pairs_sessions, groupby.
  rewrite (group_keys_filter (paired df) df), !flat_map_map.
  rewrite <- (flat_map_filter
                (fun d => session_of_group
                            (d, filter (fun t => (entry_date_only t =? d)%Z) df))
                (paired df) (group_keys df))
    by (intros d _ Hd; apply session_of_group_unpaired; exact Hd).
  apply flat_map_agree. intros d Hd. apply filter_In in Hd.
  destruct Hd as [_ Hd]. f_equal. f_equal.
  rewrite filter_filter. apply filter_ext_in. intros t _.
  destruct (entry_date_only t =? d)%Z eqn:E; [| reflexivity].
  apply Z.eqb_eq in E. rewrite E, Hd. reflexivity.
Qed.

Lemma In_insert_session (s x : Session) (l : list Session) :
  In x (insert_session s l) <-> x = s \/ In x l.
Proof.
  induction l as [| s' rest IH]; simpl.
  - intuition.
  - destruct (timestamp_leb _ _); simpl; [intuition |].
    rewrite IH. intuition.
Qed.

Lemma In_sort_values (x : Session) (l : list Session) :
  In x (sort_values l) <-> In x l.
Proof.
  unfold sort_values. induction l as [| s l IH]; simpl; [reflexivity |].
  rewrite In_insert_session, IH. intuition.
Qed.

(** C10: the loader appends a session only for an entry date with exactly
    one UMAC row and exactly one RCAT row, one session for each such date,
    built from these two rows; the rows of every other entry date contribute
    nothing (removing them from the ledger leaves the sessions as they are);
    a session whose deployed capital is not positive has return 0; and the
    sessions returned after sorting are the ones the loop appended. *)
Theorem sessions_for_paired_dates (df : list Trade) :
  (forall s, In s (pairs_sessions df) ->
     paired df (date s) = true
     /\ (exists umac rcat,
           In umac df /\ In rcat df
           /\ has_symbol "UMAC" umac = true /\ has_symbol "RCAT" rcat = true
           /\ entry_date_only umac = date s /\ entry_date_only rcat = date s
           /\ net_pl s = entry_pl umac + entry_pl rcat
                         - (exit_fees umac + exit_fees rcat)
           /\ capital_deployed s
              = Rabs (entry_shares umac) * entry_price umac
                + Rabs (entry_shares rcat) * entry_price rcat)
     /\ (capital_deployed s <= 0 -> session_return s = 0)
     /\ (0 < capital_deployed s ->
         session_return s = net_pl s / capital_deployed s))
  /\ (forall d, paired df d = true ->
        exists s, In s (pairs_sessions df) /\ date s = d)
  /\ (forall d, paired df d = false ->
        forall s, In s (pairs_sessions df) -> date s <> d)
  /\ pairs_sessions (filter (fun t => paired df (entry_date_only t)) df)
     = pairs_sessions df
  /\ (forall sessions, load_and_process_trades df = Some sessions ->
        forall s, In s sessions <-> In s (pairs_sessions df)).
Proof.
  assert (Hsound : forall s, In s (pairs_sessions df) ->
     paired df (date s) = true
     /\ (exists umac rcat,
           In umac df /\ In rcat df
           /\ has_symbol "UMAC" umac = true /\ has_symbol "RCAT" rcat = true
           /\ entry_date_only umac = date s /\ entry_date_only rcat = date s
           /\ net_pl s = entry_pl umac + entry_pl rcat
                         - (exit_fees umac + exit_fees rcat)
           /\ capital_deployed s
              = Rabs (entry_shares umac) * entry_price umac
                + Rabs (entry_shares rcat) * entry_price rcat)
     /\ (capital_deployed s <= 0 -> session_return s = 0)
     /\ (0 < capital_deployed s ->
         session_return s = net_pl s / capital_deployed s)).
  { intros s Hs. apply In_pairs_sessions in Hs. destruct Hs as (d & Hd & Hs).
    assert (Hp : paired df d = true).
    { destruct (paired df d) eqn:E; [reflexivity |].
      rewrite (session_of_group_unpaired df d E) in Hs. destruct Hs. }
    apply session_of_group_spec in Hs.
    destruct Hs as (u & r & Hu & Hr & ->). simpl.
    assert (Iu : In u (filter (has_symbol "UMAC")
                         (filter (fun t => (entry_date_only t =? d)%Z) df)))
      by (rewrite Hu; left; reflexivity).
    assert (Ir : In r (filter (has_symbol "RCAT")
                         (filter (fun t => (entry_date_only t =? d)%Z) df)))
      by (rewrite Hr; left; reflexivity).
    apply filter_In in Iu. destruct Iu as [Iu Su].
    apply filter_In in Iu. destruct Iu as [Iu Du]. apply Z.eqb_eq in Du.
    apply filter_In in Ir. destruct Ir as [Ir Sr].
    apply filter_In in Ir. destruct Ir as [Ir Dr]. apply Z.eqb_eq in Dr.
    split; [exact Hp |].
    split; [exists u, r; repeat split; assumption |].
    split; intros Hc.
    - apply gtb_false in Hc. rewrite Hc. reflexivity.
    - apply Rlt_gt, gtb_true in Hc. rewrite Hc. reflexivity. }
  split; [exact Hsound |].
  split.
  { intros d Hp. destruct (session_of_group_paired df d Hp) as (s & Hs & Hd).
    exists s. split; [| exact Hd]. apply In_pairs_sessions.
    exists d. split; [apply paired_has_rows; exact Hp |].
    rewrite Hs. left. reflexivity. }
  split.
  { intros d Hp s Hs Hd. destruct (Hsound s Hs) as [Hp' _].
    rewrite Hd in Hp'. congruence. }
  split; [apply pairs_sessions_of_paired_rows |].
  intros sessions Hl s. unfold load_and_process_trades in Hl.
  destruct (pairs_sessions df) as [| s0 l] eqn:E; [discriminate |].
  injection Hl as <-. exact (In_sort_values s (s0 :: l)).
Qed.

(** C10 on the scenario ledger: day 1 is paired and has a session, day 2
    has two UMAC rows and no session, and the session of day 4, with no
    capital deployed, has return 0. *)
Lemma sessions_for_paired_dates_scenario :
  (paired Scenario.ledger 1%Z = true
   /\ exists s, In s (pairs_sessions Scenario.ledger) /\ date s = 1%Z)
  /\ (paired Scenario.ledger 2%Z = false
      /\ forall s, In s (pairs_sessions Scenario.ledger) -> date s <> 2%Z)
  /\ (forall s, In s (pairs_sessions Scenario.ledger) ->
      capital_deployed s <= 0 -> session_return s = 0).
Proof.
  destruct (sessions_for_paired_dates Scenario.ledger)
    as (Hsound & Hcomplete & Hdrop & _).
  assert (H1 : paired Scenario.ledger 1%Z = true) by (vm_compute; reflexivity).
  assert (H2 : paired Scenario.ledger 2%Z = false) by (vm_compute; reflexivity).
  split; [split; [exact H1 | exact (Hcomplete 1%Z H1)] |].
  split; [split; [exact H2 | exact (Hdrop 2%Z H2)] |].
  intros s Hs. exact (proj1 (proj2 (proj2 (Hsound s Hs)))).
Defined.

(** * Further properties of the strategy *)

(** ** What stays recorded *)

(** The positions an entry leaves: the ones it found, or the sized pair. *)
Lemma enter_positions (cfg : Config) (env : Env) (pa pb : R) (w : World) :
  let a := Z.min (max_position_size cfg)
                 (Py.int (buying_power (account env) / 2 / pa)) in
  let b := Py.int (IZR a * hedge_ratio cfg) in
  let pl := shared_positions (snd (enter_long_spread cfg env pa pb w)) in
  let ps := shared_positions (snd (enter_short_spread cfg env pa pb w)) in
  (pl = shared_positions w
   \/ ((0 < a)%Z /\ (0 < b)%Z
       /\ pl = {| umac := a; rcat := - b; in_trade := true;
                  trade_direction := Some long_spread |}))
  /\ (ps = shared_positions w
      \/ ((0 < a)%Z /\ (0 < b)%Z
          /\ ps = {| umac := - a; rcat := b; in_trade := true;
                     trade_direction := Some short_spread |})).
Proof.
  cbv zeta.
  destruct (Req_dec_T pa 0) as [-> | Hpa].
  { rewrite enter_long_spread_zero_price, enter_short_spread_zero_price.
    split; left; reflexivity. }
  rewrite (enter_long_spread_sized cfg env pa pb w Hpa).
  rewrite (enter_short_spread_sized cfg env pa pb w Hpa).
  cbv zeta.
  destruct ((0 <? _) && (0 <? _))%Z eqn:Epos;
    [| split; left; reflexivity].
  apply andb_true_iff in Epos. destruct Epos as [EA EB].
  apply Z.ltb_lt in EA, EB.
  unfold algo_buy, algo_sell.
  split;
    match goal with
    | |- context [try_except (submit ?g ?o1 ;; submit ?g ?o2 ;; set_positions ?q) _ w] =>
        destruct (entry_block_cases g o1 o2 q w)
          as [_ [(_ & _ & Hp) | [(_ & _ & _ & Hp) | (_ & _ & _ & Hp)]]];
        cbv zeta in Hp; rewrite Hp
    end;
    first [ left; reflexivity
          | right; split; [exact EA | split; [exact EB | reflexivity]] ].
Qed.

Lemma recorded_flat (cfg : Config) : recorded cfg flat_positions.
Proof. left. reflexivity. Qed.

Lemma recorded_trading_logic (cfg : Config) (env : Env) (z pa pb : R)
    (w : World) :
  recorded cfg (shared_positions w) ->
  recorded cfg (shared_positions (snd (trading_logic cfg env z pa pb w))).
Proof.
  intros Hr. unfold trading_logic.
  destruct (in_trade (shared_positions w)); simpl.
  - destruct (check_exit_signals_outcome cfg env z w) as [-> | ->];
      [exact Hr | apply recorded_flat].
  - destruct (enter_positions cfg env pa pb w) as [HL HS].
    cbv zeta in HL, HS.
    unfold check_entry_signals.
    destruct (gtb z _); [| destruct (ltb z _); [| exact Hr]].
    + destruct HS as [-> | (Ha & Hb & ->)]; [exact Hr |].
      right. eexists. split; [| split; [exact Hb | right; reflexivity]]. lia.
    + destruct HL as [-> | (Ha & Hb & ->)]; [exact Hr |].
      right. eexists. split; [| split; [exact Hb | left; reflexivity]]. lia.
Qed.

Lemma recorded_execute (cfg : Config) (env : Env) (w : World) :
  recorded cfg (shared_positions w) ->
  recorded cfg (shared_positions (snd (execute_pairs_trading_logic cfg env w))).
Proof.
  intros Hr.
  destruct (execute_pairs_trading_logic_cases cfg env w)
    as [-> | (z & pa & pb & ->)];
    [exact Hr | apply recorded_trading_logic; exact Hr].
Qed.

(** The handler returns normally whatever it does. *)
Lemma on_timer_returns (self : Strategy) (ev : Event) (env : Env) (w : World) :
  fst (on_timer self ev env w) = Ok tt.
Proof.
  destruct (is_coordinator self ev) eqn:Hc;
    [destruct (may_process ev w) eqn:Hp |].
  - apply (on_timer_processes self ev env w Hc Hp).
  - rewrite on_timer_skips by (right; exact Hp). reflexivity.
  - rewrite on_timer_skips by (left; exact Hc). reflexivity.
Qed.

Lemma recorded_on_timer (self : Strategy) (ev : Event) (env : Env)
    (w : World) :
  recorded (params self) (shared_positions w) ->
  recorded (params self) (shared_positions (snd (on_timer self ev env w))).
Proof.
  intros Hr.
  destruct (is_coordinator self ev) eqn:Hc;
    [destruct (may_process ev w) eqn:Hp |].
  - destruct (on_timer_processes self ev env w Hc Hp)
      as (_ & _ & _ & _ & _ & -> & _).
    apply recorded_execute. exact Hr.
  - rewrite on_timer_skips by (right; exact Hp). exact Hr.
  - rewrite on_timer_skips by (left; exact Hc). exact Hr.
Qed.

Lemma on_start_positions (self : Strategy) (w : World) :
  fst (on_start self w) = Ok tt
  /\ shared_positions (snd (on_start self w)) = shared_positions w
  /\ execution_lock (snd (on_start self w)) = execution_lock w
  /\ cycles (snd (on_start self w)) = cycles w
  /\ orders (snd (on_start self w)) = orders w.
Proof.
  unfold on_start. destruct (symbol self =? "RCAT")%string; repeat split.
Qed.

Lemma recorded_run_handlers (cfg : Config) (calls : list Call) (w : World) :
  (forall c, In c calls -> params (call_self c) = cfg) ->
  recorded cfg (shared_positions w) ->
  recorded cfg (shared_positions (run_handlers calls w)).
Proof.
  revert w. induction calls as [| c calls IH]; intros w Hcfg Hr; [exact Hr |].
  simpl. apply IH; [intros c' Hc'; apply Hcfg; right; exact Hc' |].
  specialize (Hcfg c (or_introl eq_refl)).
  destruct c as [self | self ev env]; simpl in *.
  - rewrite (proj1 (proj2 (on_start_positions self w))). exact Hr.
  - rewrite <- Hcfg. apply recorded_on_timer. rewrite Hcfg. exact Hr.
Qed.

(** X1: the recorded positions after any sequence of callbacks on instances with
    the same parameters, from the initial world: outside a trade they are the
    flat dict; in a trade the UMAC size is at most [max_position_size], the
    RCAT size is [int(umac size * hedge_ratio)], both are positive and the
    two legs have opposite signs, long UMAC for the long spread and short
    UMAC for the short spread. *)
Theorem positions_stay_sized (cfg : Config) (calls : list Call) :
  (forall c, In c calls -> params (call_self c) = cfg) ->
  let p := shared_positions (run_handlers calls initial_world) in
  (in_trade p = false -> p = flat_positions)
  /\ (in_trade p = true ->
      (0 < Z.abs (umac p) <= max_position_size cfg)%Z
      /\ Z.abs (rcat p) = Py.int (IZR (Z.abs (umac p)) * hedge_ratio cfg)
      /\ (0 < Z.abs (rcat p))%Z
      /\ Z.sgn (rcat p) = (- Z.sgn (umac p))%Z
      /\ ((0 < umac p)%Z /\ trade_direction p = Some long_spread
          \/ (umac p < 0)%Z /\ trade_direction p = Some short_spread)).
Proof.
  intros Hcfg p.
  assert (Hr : recorded cfg p)
    by (apply recorded_run_handlers; [exact Hcfg | apply recorded_flat]).
  destruct Hr as [-> | (a & Ha & Hb & [-> | ->])]; simpl.
  - split; [reflexivity | discriminate].
  - split; [discriminate | intros _].
    replace (Z.abs a) with a by lia.
    replace (Z.abs (- Py.int (IZR a * hedge_ratio cfg)))
      with (Py.int (IZR a * hedge_ratio cfg)) by lia.
    repeat split; try lia. left. split; [lia | reflexivity].
  - split; [discriminate | intros _].
    replace (Z.abs (- a)) with a by lia.
    replace (Z.abs (Py.int (IZR a * hedge_ratio cfg)))
      with (Py.int (IZR a * hedge_ratio cfg)) by lia.
    repeat split; try lia. right. split; [lia | reflexivity].
Qed.

(** A fire of the coordinator on the high-spread market data, from a world
    without a trade and ready to process the day: the short spread is
    recorded, the day is recorded and the lock is released. *)
Lemma high_spread_fire (d : Date) (w : World) :
  in_trade (shared_positions w) = false ->
  may_process (Scenario.daily d) w = true ->
  let w' := snd (on_timer Scenario.rcat_instance (Scenario.daily d)
                   Scenario.high_spread w) in
  shared_positions w' = Scenario.short_1000
  /\ last_processed_date w' = Some d
  /\ execution_lock w' = false
  /\ cycles w' = S (cycles w)
  /\ time_triggers w' = S (time_triggers w).
Proof.
  intros Hflat Hp.
  destruct (on_timer_processes Scenario.rcat_instance (Scenario.daily d)
              Scenario.high_spread w eq_refl Hp)
    as (_ & _ & Hl & Hc & Ht & Hpos & _ & Hd).
  cbv zeta in Hl, Hc, Ht, Hpos, Hd |- *. simpl params in Hpos, Hd.
  match type of Hpos with
  | context [execute_pairs_trading_logic _ _ ?x] =>
      destruct (high_spread_entry x Hflat) as (Hok & Hs & _)
  end.
  rewrite Hs in Hpos. rewrite Hok in Hd.
  repeat split; assumption.
Qed.

(** The example callbacks end in the short spread entered on day 1, with
    day 2 processed. *)
Lemma example_calls_run :
  let w := run_handlers Example.calls initial_world in
  shared_positions w = Scenario.short_1000
  /\ execution_lock w = false
  /\ time_triggers w = 3%nat
  /\ cycles w = 2%nat
  /\ last_processed_date w = Some 2%Z.
Proof.
  unfold Example.calls, run_handlers. cbn [fold_left handle].
  set (w1 := snd (on_start Scenario.rcat_instance
                    (snd (on_start Example.umac_instance initial_world)))).
  assert (E1 : w1 = {| last_processed_date := None;
                       shared_positions := flat_positions;
                       execution_lock := false; orders := [];
                       time_triggers := 1; cycles := 0 |}) by reflexivity.
  rewrite (on_timer_skips Example.umac_instance _ _ w1)
    by (left; reflexivity).
  cbn [snd].
  destruct (high_spread_fire 1%Z w1) as (Hp & Hd & Hl & Hc & Ht);
    [rewrite E1; reflexivity | rewrite E1; reflexivity |].
  cbv zeta in Hp, Hd, Hl, Hc, Ht.
  set (w2 := snd (on_timer Scenario.rcat_instance (Scenario.daily 1%Z)
                    Scenario.high_spread w1)) in *.
  rewrite (on_timer_skips Example.umac_instance _ _ w2)
    by (left; reflexivity).
  cbn [snd].
  assert (Hmay : may_process (Scenario.daily 2%Z) w2 = true)
    by (unfold may_process; rewrite Hd, Hl; reflexivity).
  destruct (on_timer_processes Scenario.rcat_instance (Scenario.daily 2%Z)
              Scenario.high_spread w2 eq_refl Hmay)
    as (_ & _ & Hl3 & Hc3 & Ht3 & Hp3 & _ & Hd3).
  cbv zeta in Hl3, Hc3, Ht3, Hp3, Hd3. simpl params in Hp3, Hd3.
  match type of Hp3 with
  | context [execute_pairs_trading_logic ?c ?e ?x] =>
      assert (Hin : in_trade (shared_positions x) = true)
        by (simpl; rewrite Hp; reflexivity);
      assert (Hhold : execute_pairs_trading_logic c e x = (Ok tt, x))
  end.
  { rewrite high_spread_cycle.
    rewrite (trading_logic_in_trade _ _ _ _ _ _ Hin).
    match goal with
    | |- check_exit_signals ?c ?e ?z ?x = _ =>
        destruct (check_exit_signals_cases c e z x) as (_ & _ & _ & H4 & _)
    end.
    apply H4; [simpl; rewrite Hp; reflexivity | simpl; lra]. }
  rewrite Hhold in Hp3, Hd3. simpl in Hp3, Hd3. rewrite Hp in Hp3.
  rewrite Hp3, Hl3, Ht3, Hc3, Ht, Hc, Hd3, E1. simpl.
  repeat split.
Qed.

(** On the example callbacks: the short spread of 1000
    UMAC shares is within the limit of 1000. *)
Lemma positions_stay_sized_example :
  let p := shared_positions (run_handlers Example.calls initial_world) in
  (forall c, In c Example.calls -> params (call_self c) = default_config)
  /\ in_trade p = true
  /\ (0 < Z.abs (umac p) <= max_position_size default_config)%Z.
Proof.
  intros p.
  assert (Hcfg : forall c, In c Example.calls ->
                           params (call_self c) = default_config).
  { intros c Hc. unfold Example.calls in Hc. simpl in Hc.
    repeat (destruct Hc as [<- | Hc]; [reflexivity |]). destruct Hc. }
  assert (Hin : in_trade p = true).
  { unfold p. rewrite (proj1 example_calls_run). reflexivity. }
  split; [exact Hcfg |]. split; [exact Hin |].
  exact (proj1 (proj2 (positions_stay_sized default_config Example.calls Hcfg)
                  Hin)).
Defined.

(** ** Timers, cycles and the lock *)

Lemma coordinator_starts_cons (c : Call) (calls : list Call) :
  coordinator_starts (c :: calls)
  = ((match c with
      | Start self => if (symbol self =? "RCAT")%string then 1 else 0
      | Timer _ _ _ => 0
      end) + coordinator_starts calls)%nat.
Proof.
  unfold coordinator_starts. simpl.
  destruct c as [self | self ev env]; [| reflexivity].
  destruct (symbol self =? "RCAT")%string; reflexivity.
Qed.

(** One callback from a world with the lock released. *)
Lemma handle_bookkeeping (c : Call) (w : World) :
  execution_lock w = false ->
  let w' := snd (handle c w) in
  fst (handle c w) = Ok tt
  /\ execution_lock w' = false
  /\ (time_triggers w' + cycles w
      = time_triggers w + cycles w' + coordinator_starts [c])%nat.
Proof.
  intros Hl. cbv zeta. rewrite coordinator_starts_cons.
  destruct c as [self | self ev env]; simpl handle.
  - unfold on_start, coordinator_starts.
    destruct (symbol self =? "RCAT")%string; simpl;
      repeat split; try assumption; lia.
  - split; [apply on_timer_returns |].
    destruct (is_coordinator self ev) eqn:Hc;
      [destruct (may_process ev w) eqn:Hp |].
    + destruct (on_timer_processes self ev env w Hc Hp)
        as (_ & _ & Hl' & Hn & Ht & _).
      cbv zeta in Hl', Hn, Ht. rewrite Hl', Hn, Ht.
      split; [reflexivity |]. unfold coordinator_starts. simpl. lia.
    + rewrite on_timer_skips by (right; exact Hp). simpl.
      split; [exact Hl |]. unfold coordinator_starts. simpl. lia.
    + rewrite on_timer_skips by (left; exact Hc). simpl.
      split; [exact Hl |]. unfold coordinator_starts. simpl. lia.
Qed.

(** X2: along any sequence of callbacks from a world with the lock released, the
    lock is released again after every callback and every scheduled timer is
    accounted for: one per [on_start] of an RCAT instance and one per
    decision cycle that ran, none for a fire that was skipped.  A callback on
    an instance whose symbol is not RCAT changes nothing, and no callback
    raises. *)
Theorem timers_match_cycles (calls : list Call) (w : World) :
  execution_lock w = false ->
  let w' := run_handlers calls w in
  execution_lock w' = false
  /\ (time_triggers w' + cycles w
      = time_triggers w + cycles w' + coordinator_starts calls)%nat
  /\ (forall c w0, symbol (call_self c) <> "RCAT"%string ->
                   handle c w0 = (Ok tt, w0))
  /\ (forall c w0, execution_lock w0 = false -> fst (handle c w0) = Ok tt).
Proof.
  intros Hl. cbv zeta.
  split; [| split; [| split]].
  - revert w Hl. induction calls as [| c calls IH]; intros w Hl; [exact Hl |].
    simpl. apply IH. apply (handle_bookkeeping c w Hl).
  - revert w Hl. induction calls as [| c calls IH]; intros w Hl.
    + simpl. unfold coordinator_starts. simpl. lia.
    + destruct (handle_bookkeeping c w Hl) as (_ & Hl1 & H1).
      cbv zeta in Hl1, H1. specialize (IH _ Hl1).
      rewrite coordinator_starts_cons.
      rewrite coordinator_starts_cons in H1.
      change (coordinator_starts []) with 0%nat in H1.
      change (run_handlers (c :: calls) w)
        with (run_handlers calls (snd (handle c w))).
      set (k := match c with Start _ => _ | Timer _ _ _ => _ end) in *.
      lia.
  - intros c w0 Hs. destruct c as [self | self ev env]; simpl in *.
    + unfold on_start. apply String.eqb_neq in Hs. rewrite Hs. reflexivity.
    + apply on_timer_skips. left. unfold is_coordinator.
      apply String.eqb_neq in Hs. rewrite Hs. apply andb_false_r.
  - intros c w0 Hl0. apply (handle_bookkeeping c w0 Hl0).
Qed.

(** On the example callbacks: three timers for one
    start of the RCAT instance and two cycles. *)
Lemma timers_match_cycles_example :
  let w' := run_handlers Example.calls initial_world in
  execution_lock initial_world = false
  /\ coordinator_starts Example.calls = 1%nat
  /\ cycles w' = 2%nat
  /\ (time_triggers w' + cycles initial_world
      = time_triggers initial_world + cycles w'
        + coordinator_starts Example.calls)%nat.
Proof.
  intros w'.
  assert (Hl : execution_lock initial_world = false) by reflexivity.
  split; [exact Hl |]. split; [reflexivity |].
  split; [apply example_calls_run |].
  exact (proj1 (proj2 (timers_match_cycles Example.calls initial_world Hl))).
Defined.

(** ** Exceptions of a cycle *)

Lemma enter_returns (cfg : Config) (env : Env) (pa pb : R) (w : World) :
  pa <> 0 ->
  fst (enter_long_spread cfg env pa pb w) = Ok tt
  /\ fst (enter_short_spread cfg env pa pb w) = Ok tt.
Proof.
  intros Hpa.
  rewrite (enter_long_spread_sized cfg env pa pb w Hpa).
  rewrite (enter_short_spread_sized cfg env pa pb w Hpa).
  cbv zeta. destruct ((0 <? _) && (0 <? _))%Z; [| split; reflexivity].
  unfold algo_buy, algo_sell.
  split; apply entry_block_cases.
Qed.

Lemma check_exit_signals_returns (cfg : Config) (env : Env) (z : R)
    (w : World) :
  fst (check_exit_signals cfg env z w) = Ok tt.
Proof.
  unfold check_exit_signals.
  match goal with
  | |- context [if ?c then close_positions _ _ else _] => destruct c
  end; [apply close_positions_cases | reflexivity].
Qed.

(** The trading logic raises only from an entry attempted at a zero UMAC
    price, before anything is done. *)
Lemma trading_logic_raise (cfg : Config) (env : Env) (z pa pb : R)
    (w w' : World) (e : Exn) :
  trading_logic cfg env z pa pb w = (Exc e, w') ->
  e = ZeroDivisionError /\ w' = w /\ pa = 0
  /\ in_trade (shared_positions w) = false.
Proof.
  intros H.
  destruct (in_trade (shared_positions w)) eqn:Hin.
  - rewrite (trading_logic_in_trade _ _ _ _ _ _ Hin) in H.
    pose proof (check_exit_signals_returns cfg env z w) as Hok.
    rewrite H in Hok. discriminate.
  - rewrite (trading_logic_flat _ _ _ _ _ _ Hin) in H.
    destruct (Req_dec_T pa 0) as [-> | Hpa].
    + unfold check_entry_signals in H.
      destruct (gtb z _); [| destruct (ltb z _)];
        rewrite ?enter_long_spread_zero_price,
          ?enter_short_spread_zero_price in H;
        inversion H; subst; repeat split.
    + destruct (enter_returns cfg env pa pb w Hpa) as [HL HS].
      unfold check_entry_signals in H.
      destruct (gtb z _); [| destruct (ltb z _)];
        [rewrite H in HS | rewrite H in HL | ]; discriminate.
Qed.

Lemma current_price_pos (c : R) (l1 : option R) :
  0 < c -> 0 < current_price c l1.
Proof.
  intros Hc. unfold current_price. destruct l1 as [p |]; [| exact Hc].
  destruct (gtb p 0) eqn:E; [| exact Hc]. apply gtb_true in E. lra.
Qed.

Lemma last_item_In {A : Type} (l : list A) (x : A) :
  Py.last_item l = Some x -> In x l.
Proof.
  unfold Py.last_item. intros H. apply in_rev.
  destruct (rev l) as [| y t]; [discriminate |].
  inversion H; subst. left. reflexivity.
Qed.

(** X4: a decision cycle lets only [ZeroDivisionError] out, only from an entry
    attempted while no trade is recorded and the current UMAC price (the last
    close, or a positive L1 price) is 0, and the world is then as it was: no
    order, no change of positions.  With positive UMAC closes, or with a
    trade recorded, the cycle returns normally. *)
Theorem cycle_raises_only_on_zero_price (cfg : Config) (env : Env)
    (w : World) :
  (forall e w',
     execute_pairs_trading_logic cfg env w = (Exc e, w') ->
     e = ZeroDivisionError /\ w' = w
     /\ in_trade (shared_positions w) = false
     /\ exists pu last_close,
          umac_bars (md env) = BarsClose pu
          /\ Py.last_item pu = Some last_close
          /\ current_price last_close (umac_l1 (md env)) = 0)
  /\ ((forall pu, umac_bars (md env) = BarsClose pu -> Forall (Rlt 0) pu) ->
      fst (execute_pairs_trading_logic cfg env w) = Ok tt)
  /\ (in_trade (shared_positions w) = true ->
      fst (execute_pairs_trading_logic cfg env w) = Ok tt).
Proof.
  assert (Hraise : forall e w',
     execute_pairs_trading_logic cfg env w = (Exc e, w') ->
     e = ZeroDivisionError /\ w' = w
     /\ in_trade (shared_positions w) = false
     /\ exists pu last_close,
          umac_bars (md env) = BarsClose pu
          /\ Py.last_item pu = Some last_close
          /\ current_price last_close (umac_l1 (md env)) = 0).
  { intros e w' H.
    destruct (get_data cfg (umac_bars (md env)) (umac_l1 (md env)))
      as [[pu cu] |] eqn:Gu;
      [| unfold execute_pairs_trading_logic in H; rewrite Gu in H;
         discriminate].
    destruct (get_data cfg (rcat_bars (md env)) (rcat_l1 (md env)))
      as [[pr cr] |] eqn:Gr;
      [| unfold execute_pairs_trading_logic in H; rewrite Gu, Gr in H;
         discriminate].
    rewrite (execute_on_data cfg env pu pr cu cr Gu Gr) in H. cbv zeta in H.
    destruct (eqb _ 0); [discriminate |].
    apply trading_logic_raise in H. destruct H as (He & Hw & Hcu & Hin).
    apply get_data_some in Gu. destruct Gu as (Hb & _ & c & Hc & Hcur).
    repeat split; try assumption.
    exists pu, c. repeat split; try assumption. congruence. }
  split; [exact Hraise |]. split.
  - intros Hpos.
    destruct (execute_pairs_trading_logic cfg env w) as [[[] | e] w'] eqn:E;
      [reflexivity |].
    destruct (Hraise e w' eq_refl) as (_ & _ & _ & pu & c & Hb & Hc & H0).
    pose proof (Hpos pu Hb) as Hall. rewrite Forall_forall in Hall.
    pose proof (Hall c (last_item_In _ _ Hc)) as Hcpos.
    pose proof (current_price_pos c (umac_l1 (md env)) Hcpos). lra.
  - intros Hin.
    destruct (execute_pairs_trading_logic cfg env w) as [[[] | e] w'] eqn:E;
      [reflexivity |].
    destruct (Hraise e w' eq_refl) as (_ & _ & Hf & _). congruence.
Qed.

(** On the zero-price scenario, which
    raises, and on positive closes, which return. *)
Lemma cycle_raises_only_on_zero_price_examples :
  execute_pairs_trading_logic default_config Scenario.zero_price initial_world
  = (Exc ZeroDivisionError, initial_world)
  /\ ((forall pu, umac_bars (md Scenario.flat_spread) = BarsClose pu ->
                  Forall (Rlt 0) pu)
      /\ fst (execute_pairs_trading_logic default_config Scenario.flat_spread
                initial_world) = Ok tt).
Proof.
  split; [apply zero_price_raises; reflexivity |].
  assert (Hpos : forall pu, umac_bars (md Scenario.flat_spread) = BarsClose pu
                            -> Forall (Rlt 0) pu).
  { intros pu E. inversion E; subst. unfold Scenario.rcat_closes.
    repeat constructor; lra. }
  split; [exact Hpos |].
  exact (proj1 (proj2 (cycle_raises_only_on_zero_price default_config
                         Scenario.flat_spread initial_world)) Hpos).
Defined.

(** ** The orders of a cycle *)

(** The calls an entry makes: none, the UMAC order, or the UMAC order and
    then the RCAT order, both sized and addressed as entries. *)
Lemma enter_orders (cfg : Config) (env : Env) (pa pb : R) (w : World) :
  let calls r :=
    exists new,
      orders (snd r) = orders w ++ new
      /\ (List.length new <= 2)%nat
      /\ NoDup (map (fun c => order_symbol (fst c)) new)
      /\ Forall (fun c => snd c = gateway env (fst c)) new
      /\ Forall (fun c => entry_order (fst c)) new in
  calls (enter_long_spread cfg env pa pb w)
  /\ calls (enter_short_spread cfg env pa pb w).
Proof.
  cbv zeta.
  assert (Hnone : exists new : list (Order * Reply),
             orders w = orders w ++ new
             /\ (List.length new <= 2)%nat
             /\ NoDup (map (fun c => order_symbol (fst c)) new)
             /\ Forall (fun c => snd c = gateway env (fst c)) new
             /\ Forall (fun c => entry_order (fst c)) new).
  { exists []. rewrite app_nil_r. simpl.
    repeat split; try constructor. lia. }
  destruct (Req_dec_T pa 0) as [-> | Hpa].
  { rewrite enter_long_spread_zero_price, enter_short_spread_zero_price.
    split; exact Hnone. }
  rewrite (enter_long_spread_sized cfg env pa pb w Hpa).
  rewrite (enter_short_spread_sized cfg env pa pb w Hpa).
  cbv zeta.
  destruct ((0 <? _) && (0 <? _))%Z eqn:Epos; [| split; exact Hnone].
  apply andb_true_iff in Epos. destruct Epos as [EA EB].
  apply Z.ltb_lt in EA, EB.
  unfold algo_buy, algo_sell.
  split;
    match goal with
    | |- context [try_except (submit ?g ?o1 ;; submit ?g ?o2 ;; set_positions ?q) _ w] =>
        destruct (entry_block_cases g o1 o2 q w)
          as [_ [(_ & Ho & _) | [(_ & _ & Ho & _) | (_ & _ & Ho & _)]]];
        cbv zeta in Ho; eexists; (split; [exact Ho |])
    end;
    simpl;
    (split; [lia |]);
    (split; [repeat constructor; simpl; intuition discriminate |]);
    (split; [repeat constructor |]);
    repeat (first [apply Forall_nil | apply Forall_cons]);
    unfold entry_order, exit_order, well_addressed; simpl;
    repeat split; eauto.
Qed.

(** The calls a close makes: closing orders for the recorded legs, UMAC
    first, each addressed as an exit. *)
Lemma close_orders (env : Env) (w : World) :
  exists new,
    orders (snd (close_positions env w)) = orders w ++ new
    /\ (List.length new <= 2)%nat
    /\ NoDup (map (fun c => order_symbol (fst c)) new)
    /\ Forall (fun c => snd c = gateway env (fst c)) new
    /\ Forall (fun c => exit_order (fst c)) new.
Proof.
  destruct (close_positions_cases env w) as (_ & _ & (k & Hk) & _).
  eexists. split; [exact Hk |].
  unfold closing_orders, closing_order.
  destruct (0 <? umac (shared_positions w))%Z;
    [| destruct (umac (shared_positions w) <? 0)%Z];
    (destruct (0 <? rcat (shared_positions w))%Z;
     [| destruct (rcat (shared_positions w) <? 0)%Z]);
    destruct k as [| [| k]]; simpl; rewrite ?firstn_nil; simpl;
    (split; [lia |]);
    (split; [repeat constructor; simpl; intuition discriminate |]);
    (split; [repeat constructor |]);
    repeat (first [apply Forall_nil | apply Forall_cons]);
    unfold entry_order, exit_order, well_addressed; simpl;
    repeat split; eauto.
Qed.

(** X5: one decision cycle makes at most two calls on the order collaborator,
    never two for the same symbol, each journalled with the gateway's reply.
    With no trade recorded every call is an entry: intent [init], a positive
    quantity, UMAC or RCAT, the buy algorithm for a buy and the sell
    algorithm for a sell.  With a trade recorded every call is an exit:
    intent [exit] and no quantity. *)
Theorem orders_of_a_cycle (cfg : Config) (env : Env) (w : World) :
  exists new,
    orders (snd (execute_pairs_trading_logic cfg env w)) = orders w ++ new
    /\ (List.length new <= 2)%nat
    /\ NoDup (map (fun c => order_symbol (fst c)) new)
    /\ Forall (fun c => snd c = gateway env (fst c)) new
    /\ (in_trade (shared_positions w) = false ->
        Forall (fun c => entry_order (fst c)) new)
    /\ (in_trade (shared_positions w) = true ->
        Forall (fun c => exit_order (fst c)) new).
Proof.
  assert (Hnone : exists new : list (Order * Reply),
             orders w = orders w ++ new
             /\ (List.length new <= 2)%nat
             /\ NoDup (map (fun c => order_symbol (fst c)) new)
             /\ Forall (fun c => snd c = gateway env (fst c)) new
             /\ (in_trade (shared_positions w) = false ->
                 Forall (fun c => entry_order (fst c)) new)
             /\ (in_trade (shared_positions w) = true ->
                 Forall (fun c => exit_order (fst c)) new)).
  { exists []. rewrite app_nil_r. simpl.
    repeat split; try constructor. lia. }
  destruct (execute_pairs_trading_logic_cases cfg env w)
    as [-> | (z & pa & pb & ->)]; [exact Hnone |].
  destruct (in_trade (shared_positions w)) eqn:Hin.
  - rewrite (trading_logic_in_trade _ _ _ _ _ _ Hin).
    unfold check_exit_signals.
    match goal with
    | |- context [if ?c then close_positions _ _ else _] => destruct c
    end; [| exact Hnone].
    destruct (close_orders env w) as (new & H1 & H2 & H3 & H4 & H5).
    exists new. repeat split; try assumption; intros E;
      try discriminate E; assumption.
  - rewrite (trading_logic_flat _ _ _ _ _ _ Hin).
    destruct (enter_orders cfg env pa pb w) as [HL HS].
    cbv zeta in HL, HS. unfold check_entry_signals.
    destruct (gtb z _); [| destruct (ltb z _); [| exact Hnone]].
    + destruct HS as (new & H1 & H2 & H3 & H4 & H5).
      exists new. repeat split; try assumption; intros E;
      try discriminate E; assumption.
    + destruct HL as (new & H1 & H2 & H3 & H4 & H5).
      exists new. repeat split; try assumption; intros E;
      try discriminate E; assumption.
Qed.

(** ** An entry whose second leg fails, and an entry followed by a close *)

(** A sized entry as its [try] block. *)
Lemma enter_sized_blocks (cfg : Config) (env : Env) (pa pb : R) (w : World) :
  pa <> 0 ->
  let a := Z.min (max_position_size cfg)
                 (Py.int (buying_power (account env) / 2 / pa)) in
  let b := Py.int (IZR a * hedge_ratio cfg) in
  (0 < a)%Z -> (0 < b)%Z ->
  enter_long_spread cfg env pa pb w
  = try_except
      (submit (gateway env)
         {| side := Buy; order_symbol := "UMAC"; algorithm := buy_algorithm;
            intent := init; order_quantity := Some a |} ;;
       submit (gateway env)
         {| side := Sell; order_symbol := "RCAT"; algorithm := sell_algorithm;
            intent := init; order_quantity := Some b |} ;;
       set_positions {| umac := a; rcat := - b; in_trade := true;
                        trade_direction := Some long_spread |})
      (ret tt) w
  /\ enter_short_spread cfg env pa pb w
     = try_except
         (submit (gateway env)
            {| side := Sell; order_symbol := "UMAC";
               algorithm := sell_algorithm;
               intent := init; order_quantity := Some a |} ;;
          submit (gateway env)
            {| side := Buy; order_symbol := "RCAT"; algorithm := buy_algorithm;
               intent := init; order_quantity := Some b |} ;;
          set_positions {| umac := - a; rcat := b; in_trade := true;
                           trade_direction := Some short_spread |})
         (ret tt) w.
Proof.
  intros Hpa a b Ha Hb.
  rewrite (enter_long_spread_sized cfg env pa pb w Hpa).
  rewrite (enter_short_spread_sized cfg env pa pb w Hpa).
  cbv zeta. fold a. fold b.
  apply Z.ltb_lt in Ha, Hb. rewrite Ha, Hb. split; reflexivity.
Qed.

(** X6: when the UMAC order of a sized entry has gone out and the RCAT order
    raises, the entry still returns normally, both calls are in the journal
    and nothing is recorded: the positions, and so [in_trade], are as
    before, although one leg has been submitted. *)
Theorem second_leg_failure (cfg : Config) (env : Env) (pa pb : R)
    (w : World) :
  pa <> 0 ->
  let a := Z.min (max_position_size cfg)
                 (Py.int (buying_power (account env) / 2 / pa)) in
  let b := Py.int (IZR a * hedge_ratio cfg) in
  (0 < a)%Z -> (0 < b)%Z ->
  let gw := gateway env in
  let order s sym q :=
    {| side := s; order_symbol := sym;
       algorithm := match s with Buy => buy_algorithm | Sell => sell_algorithm end;
       intent := init; order_quantity := Some q |} in
  let unhedged legA legB r :=
    gw legA <> Raises -> gw legB = Raises ->
    fst r = Ok tt
    /\ orders (snd r) = orders w ++ [(legA, gw legA); (legB, Raises)]
    /\ shared_positions (snd r) = shared_positions w in
  unhedged (order Buy "UMAC"%string a) (order Sell "RCAT"%string b)
    (enter_long_spread cfg env pa pb w)
  /\ unhedged (order Sell "UMAC"%string a) (order Buy "RCAT"%string b)
       (enter_short_spread cfg env pa pb w).
Proof.
  intros Hpa a b Ha Hb gw order unhedged.
  destruct (enter_sized_blocks cfg env pa pb w Hpa Ha Hb) as [EL ES].
  fold a b in EL, ES.
  split; intros HA HB;
    [rewrite EL | rewrite ES];
    match goal with
    | |- context [try_except (submit ?g ?o1 ;; submit ?g ?o2 ;; set_positions ?q) _ w] =>
        destruct (entry_block_cases g o1 o2 q w)
          as [Hok [(E1 & _) | [(_ & _ & Ho & Hp) | (_ & E2 & _)]]]
    end;
    try (exfalso; apply HA; exact E1);
    try (exfalso; apply E2; exact HB);
    cbv zeta in Hok, Ho, Hp;
    (split; [exact Hok |]); (split; [| exact Hp]);
    rewrite Ho; unfold order, gw in *; rewrite HB; reflexivity.
Qed.

(** On the sizing scenario with a gateway that raises
    on RCAT orders: the UMAC buy of 1000 shares is out and nothing is
    recorded. *)
Lemma second_leg_failure_example :
  let env := Scenario.sizing_env Example.raise_on_rcat in
  let r := enter_long_spread default_config env 20 15 initial_world in
  fst r = Ok tt
  /\ orders (snd r)
     = [({| side := Buy; order_symbol := "UMAC"; algorithm := buy_algorithm;
            intent := init; order_quantity := Some 1000%Z |}, Accepted);
        ({| side := Sell; order_symbol := "RCAT"; algorithm := sell_algorithm;
            intent := init; order_quantity := Some 1389%Z |}, Raises)]
  /\ shared_positions (snd r) = flat_positions.
Proof.
  intros env r.
  assert (Hpa : (20 : R) <> 0) by lra.
  destruct scenario_sized as [Ha Hb]. cbv zeta in Ha.
  change (buying_power (account (Scenario.sizing_env Scenario.accept_all)))
    with (buying_power (account env)) in Ha.
  pose proof (second_leg_failure default_config env 20 15 initial_world Hpa)
    as H.
  cbv zeta in H. rewrite Ha, Hb in H.
  destruct (H eq_refl eq_refl) as [HL _].
  apply HL; [discriminate | reflexivity].
Defined.

(** A sized entry on a gateway that never raises: both orders and the
    position. *)
Lemma enter_full (cfg : Config) (env : Env) (pa pb : R) (w : World) :
  pa <> 0 ->
  (forall o, gateway env o <> Raises) ->
  let a := Z.min (max_position_size cfg)
                 (Py.int (buying_power (account env) / 2 / pa)) in
  let b := Py.int (IZR a * hedge_ratio cfg) in
  (0 < a)%Z -> (0 < b)%Z ->
  let gw := gateway env in
  let order s sym q :=
    {| side := s; order_symbol := sym;
       algorithm := match s with Buy => buy_algorithm | Sell => sell_algorithm end;
       intent := init; order_quantity := Some q |} in
  let journal (o1 o2 : Order) := orders w ++ [(o1, gw o1); (o2, gw o2)] in
  (orders (snd (enter_long_spread cfg env pa pb w))
   = journal (order Buy "UMAC"%string a) (order Sell "RCAT"%string b)
   /\ shared_positions (snd (enter_long_spread cfg env pa pb w))
      = {| umac := a; rcat := - b; in_trade := true;
           trade_direction := Some long_spread |})
  /\ (orders (snd (enter_short_spread cfg env pa pb w))
      = journal (order Sell "UMAC"%string a) (order Buy "RCAT"%string b)
      /\ shared_positions (snd (enter_short_spread cfg env pa pb w))
         = {| umac := - a; rcat := b; in_trade := true;
              trade_direction := Some short_spread |}).
Proof.
  intros Hpa Hgw a b Ha Hb gw order journal.
  destruct (enter_sized_blocks cfg env pa pb w Hpa Ha Hb) as [EL ES].
  fold a b in EL, ES. rewrite EL, ES.
  split;
    match goal with
    | |- context [try_except (submit ?g ?o1 ;; submit ?g ?o2 ;; set_positions ?q) _ w] =>
        destruct (entry_block_cases g o1 o2 q w)
          as [_ [(E & _) | [(_ & E & _) | (_ & _ & Ho & Hp)]]];
        [ exfalso; exact (Hgw _ E) | exfalso; exact (Hgw _ E) |];
        cbv zeta in Ho, Hp; split; [exact Ho | exact Hp]
    end.
Qed.

(** X7: a sized entry followed by a close, on gateways that never raise, brings
    the recorded positions back to the flat dict, and the journal has grown
    by the two entry orders and by the two mirrored exit orders, UMAC first
    each time: a long spread is closed by selling UMAC and buying RCAT, a
    short spread by buying UMAC and selling RCAT, without quantities. *)
Theorem entry_then_close (cfg : Config) (env env' : Env) (pa pb : R)
    (w : World) :
  pa <> 0 ->
  (forall o, gateway env o <> Raises) ->
  (forall o, gateway env' o <> Raises) ->
  let a := Z.min (max_position_size cfg)
                 (Py.int (buying_power (account env) / 2 / pa)) in
  let b := Py.int (IZR a * hedge_ratio cfg) in
  (0 < a)%Z -> (0 < b)%Z ->
  let order s sym i q :=
    {| side := s; order_symbol := sym;
       algorithm := match s with Buy => buy_algorithm | Sell => sell_algorithm end;
       intent := i; order_quantity := q |} in
  let round_trip entered open_umac open_rcat close_umac close_rcat :=
    let closed := snd (close_positions env' (snd entered)) in
    shared_positions closed = flat_positions
    /\ orders closed
       = orders w
         ++ [(order open_umac "UMAC"%string init (Some a),
              gateway env (order open_umac "UMAC"%string init (Some a)));
             (order open_rcat "RCAT"%string init (Some b),
              gateway env (order open_rcat "RCAT"%string init (Some b)));
             (order close_umac "UMAC"%string exit None,
              gateway env' (order close_umac "UMAC"%string exit None));
             (order close_rcat "RCAT"%string exit None,
              gateway env' (order close_rcat "RCAT"%string exit None))] in
  round_trip (enter_long_spread cfg env pa pb w) Buy Sell Sell Buy
  /\ round_trip (enter_short_spread cfg env pa pb w) Sell Buy Buy Sell.
Proof.
  intros Hpa Hgw Hgw' a b Ha Hb order round_trip.
  destruct (enter_full cfg env pa pb w Hpa Hgw Ha Hb)
    as [(HoL & HpL) (HoS & HpS)].
  fold a b in HoL, HpL, HoS, HpS.
  assert (Ea : (0 <? a)%Z = true) by (apply Z.ltb_lt; exact Ha).
  assert (Eb : (0 <? b)%Z = true) by (apply Z.ltb_lt; exact Hb).
  assert (Na : (0 <? - a)%Z = false) by (apply Z.ltb_ge; lia).
  assert (Nb : (0 <? - b)%Z = false) by (apply Z.ltb_ge; lia).
  assert (Ma : (- a <? 0)%Z = true) by (apply Z.ltb_lt; lia).
  assert (Mb : (- b <? 0)%Z = true) by (apply Z.ltb_lt; lia).
  split; unfold round_trip; cbv zeta;
    match goal with
    | |- context [close_positions env' ?x] =>
        destruct (close_positions_cases env' x) as (_ & _ & _ & Hall & _);
        destruct (Hall (fun o _ => Hgw' o)) as [Ho Hp]
    end;
    (split; [exact Hp |]); rewrite Ho;
    [rewrite HoL, HpL | rewrite HoS, HpS];
    unfold closing_orders, closing_order; simpl umac; simpl rcat;
    rewrite ?Ea, ?Eb, ?Na, ?Nb, ?Ma, ?Mb; simpl;
    rewrite <- app_assoc; reflexivity.
Qed.

(** On the sizing scenario: four orders and flat
    positions. *)
Lemma entry_then_close_example :
  let env := Scenario.sizing_env Scenario.accept_all in
  let closed :=
    snd (close_positions env
           (snd (enter_long_spread default_config env 20 15 initial_world))) in
  shared_positions closed = flat_positions
  /\ map (fun c => (side (fst c), order_symbol (fst c),
                    intent (fst c), order_quantity (fst c)))
         (orders closed)
     = [(Buy, "UMAC"%string, init, Some 1000%Z);
        (Sell, "RCAT"%string, init, Some 1389%Z);
        (Sell, "UMAC"%string, exit, None);
        (Buy, "RCAT"%string, exit, None)].
Proof.
  intros env closed.
  assert (Hpa : (20 : R) <> 0) by lra.
  assert (Hgw : forall o, gateway env o <> Raises) by (intros o; discriminate).
  destruct scenario_sized as [Ha Hb]. cbv zeta in Ha. fold env in Ha.
  pose proof (entry_then_close default_config env env 20 15 initial_world
                Hpa Hgw Hgw) as H.
  cbv zeta in H. rewrite Ha, Hb in H.
  destruct (H eq_refl eq_refl) as [(Hp & Ho) _].
  fold closed in Hp, Ho. split; [exact Hp |]. rewrite Ho. reflexivity.
Defined.

(** ** Thresholds *)

(** X9: with [exit_threshold <= entry_threshold], the Z-score on which a cycle
    entered a position does not close it: the next cycle on the same
    Z-score, whatever the prices and the collaborators, holds and leaves the
    world as it is. *)
Theorem entry_score_holds (cfg : Config) (env env' : Env)
    (z pa pb pa' pb' : R) (w : World) :
  exit_threshold cfg <= entry_threshold cfg ->
  in_trade (shared_positions w) = false ->
  let w1 := snd (trading_logic cfg env z pa pb w) in
  in_trade (shared_positions w1) = true ->
  trading_logic cfg env' z pa' pb' w1 = (Ok tt, w1).
Proof.
  intros Hth Hflat w1 Hin.
  rewrite (trading_logic_in_trade _ _ _ _ _ _ Hin).
  destruct (check_exit_signals_cases cfg env' z w1) as (_ & H2 & _ & H4 & _).
  unfold w1 in *. clear w1.
  rewrite (trading_logic_flat _ _ _ _ _ _ Hflat) in *.
  destruct (enter_positions cfg env pa pb w) as [HL HS].
  cbv zeta in HL, HS, H2, H4.
  unfold check_entry_signals in *.
  destruct (gtb z (entry_threshold cfg)) eqn:Eg;
    [| destruct (ltb z (- entry_threshold cfg)) eqn:El].
  - apply gtb_true in Eg.
    destruct HS as [E | (_ & _ & E)]; rewrite E in Hin, H4;
      [simpl in Hin; congruence |].
    apply H4; [reflexivity | lra].
  - apply ltb_true in El.
    destruct HL as [E | (_ & _ & E)]; rewrite E in Hin, H2;
      [simpl in Hin; congruence |].
    apply H2; [reflexivity | lra].
  - simpl in Hin. congruence.
Qed.

(** On the specification's scenario: the cycle on
    Z = 1.5 enters the short spread and a second cycle on Z = 1.5 holds. *)
Lemma entry_score_holds_example :
  let env := Scenario.sizing_env Scenario.accept_all in
  let w1 := snd (trading_logic default_config env (15 / 10) 20 15
                   initial_world) in
  (exit_threshold default_config <= entry_threshold default_config
   /\ in_trade (shared_positions initial_world) = false
   /\ in_trade (shared_positions w1) = true)
  /\ trading_logic default_config env (15 / 10) 20 15 w1 = (Ok tt, w1).
Proof.
  intros env w1.
  assert (H1 : exit_threshold default_config <= entry_threshold default_config)
    by (simpl; lra).
  assert (H2 : in_trade (shared_positions initial_world) = false)
    by reflexivity.
  assert (H3 : in_trade (shared_positions w1) = true)
    by (unfold w1, env; rewrite scenario_short_cycle; reflexivity).
  split; [repeat split; assumption |].
  exact (entry_score_holds default_config env env (15 / 10) 20 15 20 15
           initial_world H1 H2 H3).
Defined.

(** ** The spread history *)

Lemma tail_slice_app {A : Type} (older l : list A) :
  l <> [] -> Py.tail_slice (List.length l) (older ++ l) = l.
Proof.
  intros Hl. unfold Py.tail_slice.
  destruct l as [| x t] eqn:E; [congruence |]. rewrite <- E.
  assert (Hn : List.length l = S (List.length t)) by (rewrite E; reflexivity).
  rewrite Hn, <- Hn, length_app.
  replace (List.length older + List.length l - List.length l)%nat
    with (List.length older) by lia.
  rewrite skipn_app, skipn_all, Nat.sub_diag. reflexivity.
Qed.

Lemma tail_slice_all {A : Type} (l : list A) :
  Py.tail_slice (List.length l) l = l.
Proof.
  destruct l as [| x t] eqn:E; [reflexivity |].
  rewrite <- E. apply (tail_slice_app [] l). rewrite E. discriminate.
Qed.

(** X10: the spread history pairs the most recent closes: when one symbol has
    more closes than the other, its oldest closes are left out, and with as
    many closes for both symbols the history is the spread of each pair of
    closes in order. *)
Theorem older_closes_ignored (cfg : Config) (older pu pr : list R) :
  List.length pu = List.length pr ->
  let spread := map (fun ur => fst ur - hedge_ratio cfg * snd ur)
                    (combine pu pr) in
  spread_history cfg pu pr = spread
  /\ spread_history cfg (older ++ pu) pr = spread
  /\ spread_history cfg pu (older ++ pr) = spread.
Proof.
  intros Hlen spread.
  destruct (list_eq_dec Req_dec_T pr []) as [-> | Hr].
  { destruct pu; [| discriminate]. unfold spread_history, spread.
    rewrite !app_nil_r. simpl. rewrite Nat.min_0_r. simpl.
    split; [reflexivity |]. split; [| reflexivity].
    destruct older; reflexivity. }
  assert (Hu : pu <> []) by (intros ->; destruct pr; [congruence | discriminate]).
  unfold spread_history, spread. rewrite !length_app.
  split; [| split].
  - replace (Nat.min (List.length pu) (List.length pr))
      with (List.length pu) by lia.
    rewrite tail_slice_all. rewrite Hlen, tail_slice_all. reflexivity.
  - replace (Nat.min (List.length older + List.length pu) (List.length pr))
      with (List.length pu) by lia.
    rewrite tail_slice_app by exact Hu.
    rewrite Hlen, tail_slice_all. reflexivity.
  - replace (Nat.min (List.length pu) (List.length older + List.length pr))
      with (List.length pu) by lia.
    rewrite tail_slice_all. rewrite Hlen, tail_slice_app by exact Hr.
    reflexivity.
Qed.

(** On three closes against two. *)
Lemma older_closes_ignored_example :
  List.length [3; 4] = List.length [1; 2]
  /\ spread_history default_config ([9] ++ [3; 4]) [1; 2]
     = [3 - hedge_ratio default_config * 1;
        4 - hedge_ratio default_config * 2].
Proof.
  assert (H : List.length [3; 4] = List.length [1; 2]) by reflexivity.
  split; [exact H |].
  exact (proj1 (proj2 (older_closes_ignored default_config [9] [3; 4] [1; 2]
                         H))).
Defined.

(** A list that is not empty has a positive [len]. *)
Lemma len_pos {A : Type} (l : list A) : l <> [] -> 0 < IZR (Py.len l).
Proof.
  intros H. destruct l as [| x t]; [congruence |].
  unfold Py.len. apply IZR_lt. simpl. lia.
Qed.

(** ** The capital behind an entry *)

Lemma int_le (x : R) : 0 <= x -> IZR (Py.int x) <= x.
Proof.
  intros H. rewrite int_nonneg by exact H. apply base_Int_part.
Qed.

Lemma int_pos_arg (x : R) : (0 < Py.int x)%Z -> 0 < x.
Proof.
  intros H. destruct (Rle_dec 0 x) as [Hx | Hx].
  - destruct (Req_dec_T x 0) as [-> | Hn]; [| lra].
    exfalso. rewrite (int_floor 0 0) in H by lra. lia.
  - exfalso. unfold Py.int in H. destruct (Rle_dec 0 x); [contradiction |].
    assert (H0 : 0 <= - x) by lra.
    pose proof (Int_part_nonneg _ H0). lia.
Qed.

(** X8: an entry recorded at a positive UMAC price has a UMAC leg worth at most
    half the buying power at that price, and an RCAT leg of at most
    [hedge_ratio] times as many shares. *)
Theorem entry_within_half_capital (cfg : Config) (env : Env) (pa pb : R)
    (w : World) :
  0 < pa ->
  in_trade (shared_positions w) = false ->
  let bounded r :=
    let p := shared_positions (snd r) in
    in_trade p = true ->
    IZR (Z.abs (umac p)) * pa <= buying_power (account env) / 2
    /\ IZR (Z.abs (rcat p)) <= IZR (Z.abs (umac p)) * hedge_ratio cfg in
  bounded (enter_long_spread cfg env pa pb w)
  /\ bounded (enter_short_spread cfg env pa pb w).
Proof.
  intros Hpa Hflat bounded.
  set (a := Z.min (max_position_size cfg)
                  (Py.int (buying_power (account env) / 2 / pa))).
  set (b := Py.int (IZR a * hedge_ratio cfg)).
  assert (Hcap : (0 < a)%Z -> IZR a * pa <= buying_power (account env) / 2).
  { intros Ha.
    assert (Hq : (0 < Py.int (buying_power (account env) / 2 / pa))%Z)
      by (unfold a in Ha; lia).
    apply int_pos_arg in Hq.
    assert (Hle : IZR a <= buying_power (account env) / 2 / pa).
    { apply Rle_trans
        with (IZR (Py.int (buying_power (account env) / 2 / pa)));
        [apply IZR_le; unfold a; lia | apply int_le; lra]. }
    apply Rmult_le_compat_r with (r := pa) in Hle; [| lra].
    replace (buying_power (account env) / 2 / pa * pa)
      with (buying_power (account env) / 2) in Hle by (field; lra).
    exact Hle. }
  assert (Hleg : (0 < b)%Z -> IZR b <= IZR a * hedge_ratio cfg).
  { intros Hb. apply int_le. left. apply int_pos_arg. exact Hb. }
  destruct (enter_positions cfg env pa pb w) as [HL HS].
  cbv zeta in HL, HS. fold a b in HL, HS.
  split; unfold bounded; cbv zeta; intros Hin.
  - destruct HL as [E | (Ha & Hb & E)]; rewrite E in Hin |- *;
      [congruence |]. simpl.
    replace (Z.abs a) with a by lia. replace (Z.abs (- b)) with b by lia.
    split; [apply Hcap; exact Ha | apply Hleg; exact Hb].
  - destruct HS as [E | (Ha & Hb & E)]; rewrite E in Hin |- *;
      [congruence |]. simpl.
    replace (Z.abs (- a)) with a by lia. replace (Z.abs b) with b by lia.
    split; [apply Hcap; exact Ha | apply Hleg; exact Hb].
Qed.

(** On the sizing scenario: 1000 shares at 20
    cost 20000, under half of 100000. *)
Lemma entry_within_half_capital_example :
  let env := Scenario.sizing_env Scenario.accept_all in
  let p := shared_positions
             (snd (enter_long_spread default_config env 20 15 initial_world)) in
  (0 < 20 /\ in_trade (shared_positions initial_world) = false
   /\ in_trade p = true)
  /\ IZR (Z.abs (umac p)) * 20 <= buying_power (account env) / 2.
Proof.
  intros env p.
  assert (H1 : 0 < 20) by lra.
  assert (H2 : in_trade (shared_positions initial_world) = false)
    by reflexivity.
  assert (H3 : in_trade p = true)
    by (unfold p, env; rewrite scenario_long_entry; reflexivity).
  split; [repeat split; assumption |].
  exact (proj1 (proj1 (entry_within_half_capital default_config env 20 15
                         initial_world H1 H2) H3)).
Defined.

(** * Properties of the performance metrics *)

(** ** Drawdown *)

Lemma length_accumulate (f : R -> R -> R) (acc : R) (l : list R) :
  List.length (Series.accumulate f acc l) = List.length l.
Proof.
  revert acc. induction l as [| x l IH]; intros acc; simpl;
    [reflexivity | rewrite IH; reflexivity].
Qed.

(** The drawdown after a running maximum [m] and a cumulative sum [c]. *)
Lemma drawdown_from_nonneg (m c : R) (l : list R) :
  Forall (Rle 0)
    (Series.minus (Series.accumulate Rmax m (Series.accumulate Rplus c l))
                  (Series.accumulate Rplus c l)).
Proof.
  revert m c. induction l as [| x l IH]; intros m c; simpl; constructor.
  - simpl. pose proof (Rmax_r m (c + x)). lra.
  - apply IH.
Qed.

Lemma drawdown_from_zero (c : R) (l : list R) :
  Forall (eq 0)
    (Series.minus (Series.accumulate Rmax c (Series.accumulate Rplus c l))
                  (Series.accumulate Rplus c l))
  <-> Forall (Rle 0) l.
Proof.
  revert c. induction l as [| x l IH]; intros c; simpl.
  - split; constructor.
  - split; intros H; inversion H as [| ? ? Hx Hl]; subst; simpl in *.
    + assert (Hmax : Rmax c (c + x) = c + x) by lra.
      rewrite Hmax in Hl. constructor; [| apply (IH (c + x)); exact Hl].
      destruct (Rle_dec c (c + x)) as [Hle | Hgt]; [lra |].
      rewrite Rmax_left in Hmax by lra. lra.
    + assert (Hmax : Rmax c (c + x) = c + x) by (apply Rmax_right; lra).
      rewrite Hmax. constructor; [simpl; lra |].
      apply (IH (c + x)). exact Hl.
Qed.

Lemma fold_max_spec (l : list R) (x : R) :
  In (fold_left Rmax l x) (x :: l)
  /\ x <= fold_left Rmax l x
  /\ Forall (fun y => y <= fold_left Rmax l x) l.
Proof.
  revert x. induction l as [| y l IH]; intros x; simpl.
  - split; [left; reflexivity |]. split; [lra | constructor].
  - destruct (IH (Rmax x y)) as (Hin & Hle & Hall).
    pose proof (Rmax_l x y). pose proof (Rmax_r x y).
    split; [| split; [lra | constructor; [lra | exact Hall]]].
    destruct Hin as [E | Hin]; [| right; right; exact Hin].
    rewrite <- E. unfold Rmax. destruct (Rle_dec x y); auto.
Qed.

Lemma series_max_spec (l : list R) (m : R) :
  Series.max l = Some m -> In m l /\ Forall (fun y => y <= m) l.
Proof.
  destruct l as [| x t]; [discriminate |]. simpl. intros H.
  inversion H; subst. destruct (fold_max_spec t x) as (Hin & Hle & Hall).
  split; [exact Hin | constructor; assumption].
Qed.

Lemma drawdown_cons (x : R) (rest : list R) :
  drawdown (x :: rest)
  = (x - x)
    :: Series.minus
         (Series.accumulate Rmax x (Series.accumulate Rplus x rest))
         (Series.accumulate Rplus x rest).
Proof. reflexivity. Qed.

Lemma drawdown_all_nonneg (pnls : list R) : Forall (Rle 0) (drawdown pnls).
Proof.
  destruct pnls as [| x l]; [constructor |]. rewrite drawdown_cons.
  constructor; [lra | apply drawdown_from_nonneg].
Qed.

Lemma length_drawdown (pnls : list R) :
  List.length (drawdown pnls) = List.length pnls.
Proof.
  destruct pnls as [| x l]; [reflexivity |]. rewrite drawdown_cons.
  unfold Series.minus. simpl.
  rewrite length_map, length_combine, !length_accumulate. lia.
Qed.

(** The maximum drawdown of at least one session. *)
Lemma max_drawdown_cons (x : R) (rest : list R) :
  exists m,
    max_drawdown (x :: rest) = Some m
    /\ 0 <= m
    /\ In m (drawdown (x :: rest))
    /\ Forall (fun d => d <= m) (drawdown (x :: rest)).
Proof.
  unfold max_drawdown.
  destruct (Series.max (drawdown (x :: rest))) as [m |] eqn:E.
  - destruct (series_max_spec _ _ E) as [Hin Hall].
    exists m. split; [reflexivity |]. split; [| split; assumption].
    pose proof (drawdown_all_nonneg (x :: rest)) as Hnn.
    rewrite Forall_forall in Hnn. apply Hnn. exact Hin.
  - rewrite drawdown_cons in E. discriminate.
Qed.

(** X13: the drawdown series has one value per session, none of them negative,
    the first one 0.  The maximum drawdown is its largest value, so it is
    never negative; on no session at all [np.max] raises. *)
Theorem drawdown_nonneg (pnls : list R) :
  List.length (drawdown pnls) = List.length pnls
  /\ Forall (Rle 0) (drawdown pnls)
  /\ (max_drawdown pnls = None <-> pnls = [])
  /\ (forall x rest, pnls = x :: rest ->
      hd 1 (drawdown pnls) = 0
      /\ exists m,
           max_drawdown pnls = Some m
           /\ 0 <= m
           /\ In m (drawdown pnls)
           /\ Forall (fun d => d <= m) (drawdown pnls)).
Proof.
  split; [apply length_drawdown |].
  split; [apply drawdown_all_nonneg |]. split.
  - split.
    + intros H. destruct pnls as [| x l]; [reflexivity |].
      destruct (max_drawdown_cons x l) as (m & Hm & _). congruence.
    + intros ->. reflexivity.
  - intros x rest ->. split.
    + rewrite drawdown_cons. simpl. lra.
    + apply max_drawdown_cons.
Qed.

(** X14: the maximum drawdown is 0 exactly when no session after the first one
    has a negative P&L, that is when the cumulative P&L never falls. *)
Theorem no_drawdown_iff_no_loss (x : R) (rest : list R) :
  max_drawdown (x :: rest) = Some 0 <-> Forall (Rle 0) rest.
Proof.
  pose proof (drawdown_all_nonneg (x :: rest)) as Hnn.
  destruct (max_drawdown_cons x rest) as (m & Hm & Hm0 & Hin & Hall).
  rewrite drawdown_cons in Hnn, Hin, Hall.
  rewrite Hm. split.
  - intros E. inversion E; subst m.
    apply (proj1 (drawdown_from_zero x rest)).
    inversion Hall as [| ? ? _ Hall']; subst.
    inversion Hnn as [| ? ? _ Hnn']; subst.
    rewrite Forall_forall in *. intros d Hdin.
    specialize (Hall' d Hdin). specialize (Hnn' d Hdin). lra.
  - intros Hpos. apply (proj2 (drawdown_from_zero x rest)) in Hpos.
    f_equal. destruct Hin as [<- | Hin]; [lra |].
    rewrite Forall_forall in Hpos. symmetry. apply Hpos. exact Hin.
Qed.

(** The drawdown of the example P&Ls: the largest fall from a peak is 90. *)
Lemma drawdown_example :
  drawdown Example.pnls = [150 - 150; Rmax 150 (150 + -40) - (150 + -40);
                           Rmax (Rmax 150 (150 + -40)) (150 + -40 + 30)
                           - (150 + -40 + 30);
                           Rmax (Rmax (Rmax 150 (150 + -40)) (150 + -40 + 30))
                                (150 + -40 + 30 + -80)
                           - (150 + -40 + 30 + -80);
                           Rmax (Rmax (Rmax (Rmax 150 (150 + -40))
                                            (150 + -40 + 30))
                                      (150 + -40 + 30 + -80))
                                (150 + -40 + 30 + -80 + 20)
                           - (150 + -40 + 30 + -80 + 20)]
  /\ max_drawdown Example.pnls = Some 90.
Proof.
  split; [reflexivity |].
  unfold max_drawdown, drawdown, Example.pnls. simpl.
  f_equal.
  repeat match goal with
         | |- context [Rmax ?a ?b] =>
             first [ rewrite (Rmax_left a b) by lra
                   | rewrite (Rmax_right a b) by lra ]
         end.
  lra.
Qed.

(** ** The plotted drawdown *)

Lemma expanding_from (acc : R) (t : list R) :
  map (fun i => fold_left Rmax (firstn (S i) t) acc) (seq 0 (List.length t))
  = Series.accumulate Rmax acc t.
Proof.
  revert acc. induction t as [| y t IH]; intros acc; [reflexivity |].
  cbn [List.length seq map Series.accumulate]. f_equal.
  rewrite <- seq_shift, map_map. apply (IH (Rmax acc y)).
Qed.

Lemma expanding_max_accumulate (l : list R) :
  Series.expanding_max l = Series.maximum_accumulate l.
Proof.
  destruct l as [| x t]; [reflexivity |].
  unfold Series.expanding_max, Series.maximum_accumulate.
  cbn [List.length seq map]. f_equal.
  rewrite <- seq_shift, map_map. apply (expanding_from x t).
Qed.

(** X15: the curve [plot_drawdown_curve] draws, with the pandas expanding
    maximum, is the drawdown series [calculate_metrics] measures with
    [np.maximum.accumulate]; the reported maximum drawdown is the highest
    point of the plotted curve. *)
Theorem plotted_drawdown_is_measured (pnls : list R) :
  plotted_drawdown pnls = drawdown pnls
  /\ max_drawdown pnls = Series.max (plotted_drawdown pnls).
Proof.
  assert (E : plotted_drawdown pnls = drawdown pnls).
  { unfold plotted_drawdown, drawdown.
    rewrite expanding_max_accumulate. reflexivity. }
  split; [exact E |]. unfold max_drawdown. rewrite E. reflexivity.
Qed.

(** ** Win rate and profit factor *)

Lemma length_filter_le {A : Type} (f : A -> bool) (l : list A) :
  (List.length (filter f l) <= List.length l)%nat.
Proof.
  induction l as [| x l IH]; simpl; [lia |].
  destruct (f x); simpl; lia.
Qed.

Lemma length_filter_all {A : Type} (f : A -> bool) (l : list A) :
  List.length (filter f l) = List.length l <-> forall x, In x l -> f x = true.
Proof.
  induction l as [| x l IH]; simpl.
  - split; [intros _ y [] | reflexivity].
  - pose proof (length_filter_le f l) as Hle.
    destruct (f x) eqn:E; simpl.
    + split.
      * intros H y [<- | Hy]; [exact E | apply IH; [lia | exact Hy]].
      * intros H. f_equal. apply IH. intros y Hy. apply H. right. exact Hy.
    + split; [intros H; lia |].
      intros H. specialize (H x (or_introl eq_refl)). congruence.
Qed.

Lemma length_filter_none {A : Type} (f : A -> bool) (l : list A) :
  List.length (filter f l) = 0%nat <-> forall x, In x l -> f x = false.
Proof.
  induction l as [| x l IH]; simpl.
  - split; [intros _ y [] | reflexivity].
  - destruct (f x) eqn:E; simpl.
    + split; [discriminate |].
      intros H. specialize (H x (or_introl eq_refl)). congruence.
    + rewrite IH. split.
      * intros H y [<- | Hy]; [exact E | apply H; exact Hy].
      * intros H y Hy. apply H. right. exact Hy.
Qed.

Lemma length_filter_all_gt (sessions : list Session) :
  List.length (winning_trades sessions) = List.length sessions
  <-> forall s, In s sessions -> net_pl s > 0.
Proof.
  unfold winning_trades. rewrite length_filter_all.
  split; intros H s Hs; apply gtb_true; apply H; exact Hs.
Qed.

Lemma length_filter_none_gt (sessions : list Session) :
  List.length (winning_trades sessions) = 0%nat
  <-> forall s, In s sessions -> net_pl s <= 0.
Proof.
  unfold winning_trades. rewrite length_filter_none.
  split; intros H s Hs; apply gtb_false; apply H; exact Hs.
Qed.

(** X16: the win rate is undefined (a [ZeroDivisionError]) on no session and a
    fraction between 0 and 1 otherwise: 1 exactly when every session has a
    positive P&L, 0 exactly when none has; a session with a P&L of 0 counts
    as not won. *)
Theorem win_rate_fraction (sessions : list Session) :
  (win_rate sessions = None <-> sessions = [])
  /\ (forall r, win_rate sessions = Some r ->
      0 <= r <= 1
      /\ (r = 1 <-> forall s, In s sessions -> net_pl s > 0)
      /\ (r = 0 <-> forall s, In s sessions -> net_pl s <= 0)).
Proof.
  split.
  - destruct sessions; simpl; split; intros H; congruence.
  - intros r Hr. destruct sessions as [| s0 l] eqn:E; [discriminate |].
    rewrite <- E in *. clear s0 l E.
    assert (Hne : sessions <> []) by (intros ->; discriminate).
    assert (Hwr : r = IZR (Py.len (winning_trades sessions))
                      / IZR (Py.len sessions)).
    { unfold win_rate in Hr. destruct sessions; [congruence |].
      inversion Hr. reflexivity. }
    pose proof (len_pos sessions Hne) as Hn.
    pose proof (length_filter_le (fun s => gtb (net_pl s) 0) sessions) as Hle.
    fold (winning_trades sessions) in Hle.
    assert (Hw0 : 0 <= IZR (Py.len (winning_trades sessions)))
      by (apply IZR_le; unfold Py.len; lia).
    assert (Hw1 : IZR (Py.len (winning_trades sessions))
                  <= IZR (Py.len sessions))
      by (apply IZR_le; unfold Py.len; lia).
    assert (Hinv : 0 < / IZR (Py.len sessions))
      by (apply Rinv_0_lt_compat; exact Hn).
    split; [| split].
    + rewrite Hwr. unfold Rdiv. split; [apply Rmult_le_pos; lra |].
      apply Rmult_le_reg_r with (IZR (Py.len sessions)); [exact Hn |].
      rewrite Rmult_assoc, Rinv_l by lra. lra.
    + rewrite <- (length_filter_all_gt sessions). rewrite Hwr. split.
      * intros H1.
        assert (HE : IZR (Py.len (winning_trades sessions))
                     = IZR (Py.len sessions)).
        { apply Rmult_eq_reg_r with (/ IZR (Py.len sessions)); [| lra].
          unfold Rdiv in H1. rewrite H1, Rinv_r by lra. reflexivity. }
        apply eq_IZR in HE. unfold Py.len in HE. lia.
      * intros HE. unfold Py.len. rewrite HE. field. unfold Py.len in Hn. lra.
    + rewrite <- (length_filter_none_gt sessions). rewrite Hwr. split.
      * intros H0.
        assert (HE : IZR (Py.len (winning_trades sessions)) = 0).
        { unfold Rdiv in H0. apply Rmult_integral in H0.
          destruct H0 as [H0 | H0]; [exact H0 | lra]. }
        apply eq_IZR in HE. unfold Py.len in HE. lia.
      * intros HE. unfold Py.len. rewrite HE. simpl. unfold Rdiv. ring.
Qed.

Lemma sum_negative (l : list R) :
  (forall x, In x l -> x < 0) ->
  Py.sum l <= 0 /\ (Py.sum l = 0 -> l = []).
Proof.
  induction l as [| x l IH]; intros H; simpl.
  - split; [lra | reflexivity].
  - pose proof (H x (or_introl eq_refl)) as Hx.
    destruct IH as [IH _]; [intros y Hy; apply H; right; exact Hy |].
    split; [lra | intros E; lra].
Qed.

Lemma sum_positive (l : list R) :
  (forall x, In x l -> x > 0) ->
  0 <= Py.sum l /\ (Py.sum l = 0 -> l = []).
Proof.
  induction l as [| x l IH]; intros H; simpl.
  - split; [lra | reflexivity].
  - pose proof (H x (or_introl eq_refl)) as Hx.
    destruct IH as [IH _]; [intros y Hy; apply H; right; exact Hy |].
    split; [lra | intros E; lra].
Qed.

Lemma losing_trades_negative (sessions : list Session) :
  forall x, In x (map net_pl (losing_trades sessions)) -> x < 0.
Proof.
  intros x Hx. apply in_map_iff in Hx. destruct Hx as (s & <- & Hs).
  apply filter_In in Hs. apply ltb_true. apply Hs.
Qed.

Lemma winning_trades_positive (sessions : list Session) :
  forall x, In x (map net_pl (winning_trades sessions)) -> x > 0.
Proof.
  intros x Hx. apply in_map_iff in Hx. destruct Hx as (s & <- & Hs).
  apply filter_In in Hs. apply gtb_true. apply Hs.
Qed.

Lemma filter_nil_iff {A : Type} (f : A -> bool) (l : list A) :
  filter f l = [] <-> forall x, In x l -> f x = false.
Proof.
  rewrite <- length_filter_none. split; [intros ->; reflexivity |].
  destruct (filter f l); [reflexivity | discriminate].
Qed.

(** X17: the profit factor is [float('inf')] exactly when no session has a
    negative P&L, also when there is no session at all or no winning one.
    Otherwise it is the sum of the positive P&Ls over the absolute sum of
    the negative ones: never negative, and 0 exactly when no session has a
    positive P&L. *)
Theorem profit_factor_cases (sessions : list Session) :
  (profit_factor sessions = Infinity <->
   forall s, In s sessions -> 0 <= net_pl s)
  /\ (forall r, profit_factor sessions = Finite r ->
      0 <= r
      /\ r * - Py.sum (map net_pl (losing_trades sessions))
         = Py.sum (map net_pl (winning_trades sessions))
      /\ (r = 0 <-> forall s, In s sessions -> net_pl s <= 0)).
Proof.
  unfold profit_factor. cbv zeta.
  set (wins := Py.sum (map net_pl (winning_trades sessions))).
  set (losses := Py.sum (map net_pl (losing_trades sessions))).
  destruct (sum_negative _ (losing_trades_negative sessions)) as [Hl Hl0].
  destruct (sum_positive _ (winning_trades_positive sessions)) as [Hw Hw0].
  fold wins in Hw, Hw0. fold losses in Hl, Hl0.
  assert (Habs : Rabs losses = - losses) by (apply Rabs_left1; exact Hl).
  rewrite Habs.
  assert (Hnone : losses = 0 <-> forall s, In s sessions -> 0 <= net_pl s).
  { split.
    - intros E s Hs. specialize (Hl0 E). apply map_eq_nil in Hl0.
      unfold losing_trades in Hl0.
      pose proof (proj1 (filter_nil_iff _ _) Hl0 s Hs) as Hf.
      apply ltb_false in Hf. exact Hf.
    - intros H. unfold losses, losing_trades.
      replace (filter (fun s => ltb (net_pl s) 0) sessions) with (@nil Session);
        [reflexivity |].
      symmetry. apply filter_nil_iff. intros s Hs. apply ltb_false.
      apply H. exact Hs. }
  assert (Hnowin : wins = 0 <-> forall s, In s sessions -> net_pl s <= 0).
  { split.
    - intros E s Hs. specialize (Hw0 E). apply map_eq_nil in Hw0.
      unfold winning_trades in Hw0.
      pose proof (proj1 (filter_nil_iff _ _) Hw0 s Hs) as Hf.
      apply gtb_false in Hf. exact Hf.
    - intros H. unfold wins, winning_trades.
      replace (filter (fun s => gtb (net_pl s) 0) sessions) with (@nil Session);
        [reflexivity |].
      symmetry. apply filter_nil_iff. intros s Hs. apply gtb_false.
      apply H. exact Hs. }
  destruct (gtb (- losses) 0) eqn:E.
  - apply gtb_true in E. split.
    + split; [discriminate |]. intros H. apply Hnone in H. lra.
    + intros r Hr. inversion Hr; subst r.
      assert (Hinv : 0 < / - losses) by (apply Rinv_0_lt_compat; lra).
      split; [unfold Rdiv; apply Rmult_le_pos; lra |].
      split; [field; lra |].
      rewrite <- Hnowin. split.
      * intros H0. unfold Rdiv in H0. apply Rmult_integral in H0.
        destruct H0 as [H0 | H0]; [exact H0 | lra].
      * intros ->. unfold Rdiv. ring.
  - apply gtb_false in E. split.
    + split; [| reflexivity]. intros _. apply Hnone. lra.
    + intros r Hr. discriminate.
Qed.

(** The example sessions: two won out of four, and a profit factor of
    180 / 120. *)
Lemma win_rate_example :
  win_rate Example.sessions = Some (IZR 2 / IZR 4)
  /\ profit_factor Example.sessions = Finite ((150 + (30 + 0)) / 120).
Proof.
  assert (Hw : winning_trades Example.sessions
               = [Example.session 1%Z 150; Example.session 3%Z 30]).
  { unfold winning_trades, Example.sessions. simpl.
    repeat match goal with
           | |- context [gtb ?a ?b] =>
               first [ rewrite (proj2 (gtb_true a b)) by lra
                     | rewrite (proj2 (gtb_false a b)) by lra ]
           end.
    reflexivity. }
  assert (Hl : losing_trades Example.sessions
               = [Example.session 2%Z (-40); Example.session 4%Z (-80)]).
  { unfold losing_trades, Example.sessions. simpl.
    repeat match goal with
           | |- context [ltb ?a ?b] =>
               first [ rewrite (proj2 (ltb_true a b)) by lra
                     | rewrite (proj2 (ltb_false a b)) by lra ]
           end.
    reflexivity. }
  split.
  - unfold win_rate. rewrite Hw. reflexivity.
  - unfold profit_factor. rewrite Hw, Hl. simpl.
    replace (-40 + (-80 + 0)) with (-120) by lra.
    rewrite Rabs_left by lra.
    rewrite (proj2 (gtb_true _ _)) by lra.
    f_equal. f_equal. lra.
Qed.

(** * The order of the sessions *)

Lemma dates_of_sessions (df : list Trade) (keys : list Date) :
  map date
    (flat_map (fun d : Date => session_of_group
                 (d, filter (fun t => (entry_date_only t =? d)%Z) df)) keys)
  = filter (paired df) keys.
Proof.
  induction keys as [| d keys IH]; [reflexivity |].
  cbn [flat_map filter]. rewrite map_app, IH. destruct (paired df d) eqn:E.
  - destruct (session_of_group_paired df d E) as (s & Hs & Hd).
    rewrite Hs. simpl. rewrite Hd. reflexivity.
  - rewrite (session_of_group_unpaired df d E). reflexivity.
Qed.

Lemma dates_of_pairs_sessions (df : list Trade) :
  map date (pairs_sessions df) = filter (paired df) (group_keys df).
Proof.
  unfold pairs_sessions, groupby. rewrite flat_map_map.
  apply dates_of_sessions.
Qed.

Lemma sorted_filter (P : Date -> bool) (l : list Date) :
  StronglySorted Z.lt l -> StronglySorted Z.lt (filter P l).
Proof.
  induction l as [| x l IH]; intros H; simpl; [constructor |].
  inversion H as [| ? ? Hl Hx]; subst.
  destruct (P x); [| apply IH; exact Hl].
  constructor; [apply IH; exact Hl |].
  rewrite Forall_forall in *. intros y Hy. apply filter_In in Hy.
  apply Hx. apply Hy.
Qed.

Lemma session_entry_day (df : list Trade) (s : Session) :
  In s (pairs_sessions df) -> day (session_entry_date s) = date s.
Proof.
  intros Hs. apply In_pairs_sessions in Hs. destruct Hs as (d & _ & Hs).
  apply session_of_group_spec in Hs. destruct Hs as (u & r & Hu & _ & ->).
  simpl.
  assert (Iu : In u (filter (has_symbol "UMAC")
                       (filter (fun t => (entry_date_only t =? d)%Z) df)))
    by (rewrite Hu; left; reflexivity).
  apply filter_In in Iu. destruct Iu as [Iu _].
  apply filter_In in Iu. destruct Iu as [_ Du]. apply Z.eqb_eq in Du.
  exact Du.
Qed.

(** Sorting by entry date leaves a list alone whose entry days increase. *)
Lemma sort_values_sorted (l : list Session) :
  StronglySorted Z.lt (map (fun s => day (session_entry_date s)) l) ->
  sort_values l = l.
Proof.
  unfold sort_values. induction l as [| s l IH]; intros H; [reflexivity |].
  simpl in H. inversion H as [| ? ? Hl Hs]; subst.
  simpl. rewrite (IH Hl). destruct l as [| s' l']; [reflexivity |].
  simpl. inversion Hs as [| ? ? Hlt _]; subst.
  unfold timestamp_leb. apply Z.ltb_lt in Hlt. rewrite Hlt. reflexivity.
Qed.

(** X12: the loop appends the sessions in increasing date order, one per date;
    the sort by entry date that follows changes nothing, so the loader
    returns the sessions as the loop built them.  It fails (the [KeyError]
    of sorting a frame without columns) exactly when no entry date has one
    UMAC row and one RCAT row. *)
Theorem sessions_in_date_order (df : list Trade) :
  StronglySorted Z.lt (map date (pairs_sessions df))
  /\ NoDup (map date (pairs_sessions df))
  /\ (load_and_process_trades df = None <-> forall d, paired df d = false)
  /\ (forall l, load_and_process_trades df = Some l -> l = pairs_sessions df).
Proof.
  assert (Hsorted : StronglySorted Z.lt (map date (pairs_sessions df))).
  { rewrite dates_of_pairs_sessions. apply sorted_filter.
    apply sorted_group_keys. }
  assert (Hdays : map (fun s => day (session_entry_date s)) (pairs_sessions df)
                  = map date (pairs_sessions df)).
  { apply map_ext_in. intros s Hs. apply (session_entry_day df). exact Hs. }
  assert (Hsort : sort_values (pairs_sessions df) = pairs_sessions df).
  { apply sort_values_sorted. rewrite Hdays. exact Hsorted. }
  split; [exact Hsorted |]. split; [| split].
  - clear Hdays Hsort. induction Hsorted as [| x l Hl IH Hx]; constructor.
    + intros Hin. rewrite Forall_forall in Hx. specialize (Hx x Hin). lia.
    + exact IH.
  - unfold load_and_process_trades. split.
    + intros H d. destruct (paired df d) eqn:E; [| reflexivity].
      exfalso. destruct (session_of_group_paired df d E) as (s & Hs & _).
      assert (Hin : In s (pairs_sessions df)).
      { apply In_pairs_sessions. exists d.
        split; [apply paired_has_rows; exact E |].
        rewrite Hs. left. reflexivity. }
      destruct (pairs_sessions df); [destruct Hin | discriminate].
    + intros H. destruct (pairs_sessions df) as [| s l] eqn:E; [reflexivity |].
      exfalso.
      assert (Hd : In (date s) (filter (paired df) (group_keys df))).
      { rewrite <- dates_of_pairs_sessions, E. left. reflexivity. }
      apply filter_In in Hd. destruct Hd as [_ Hd].
      rewrite H in Hd. discriminate.
  - intros l Hl. unfold load_and_process_trades in Hl. rewrite <- Hsort.
    destruct (pairs_sessions df) as [| s t]; [discriminate |].
    injection Hl as <-. reflexivity.
Qed.

(** The scenario ledger gives the sessions of day 1 and of day 4. *)
Lemma sessions_in_date_order_example :
  map date (pairs_sessions Scenario.ledger) = [1%Z; 4%Z]
  /\ exists l, load_and_process_trades Scenario.ledger = Some l
               /\ map date l = [1%Z; 4%Z].
Proof.
  assert (Hd : map date (pairs_sessions Scenario.ledger) = [1%Z; 4%Z]).
  { rewrite dates_of_pairs_sessions. vm_compute. reflexivity. }
  split; [exact Hd |].
  destruct (sessions_in_date_order Scenario.ledger) as (_ & _ & Hnone & Hsome).
  destruct (load_and_process_trades Scenario.ledger) as [l |] eqn:El.
  - exists l. split; [reflexivity |]. rewrite (Hsome l eq_refl). exact Hd.
  - exfalso. pose proof (proj1 Hnone eq_refl 1%Z) as H1.
    vm_compute in H1. discriminate.
Defined.

(** * The trigger is never stuck *)

Lemma run_handlers_lock (calls : list Call) (w : World) :
  execution_lock w = false ->
  execution_lock (run_handlers calls w) = false.
Proof.
  revert w. induction calls as [| c calls IH]; intros w Hl; [exact Hl |].
  simpl. apply IH. apply (handle_bookkeeping c w Hl).
Qed.

(** X3: after any sequence of callbacks from the initial world, a daily update
    delivered to the RCAT instance runs a decision cycle whenever its date
    differs from the last processed one, be it later or earlier, and is
    skipped when the date is the last processed one: the lock is never left
    set, and the dates are only compared for equality. *)
Theorem fire_runs_on_another_day (calls : list Call) (self : Strategy)
    (ev : Event) (env : Env) :
  is_coordinator self ev = true ->
  let w := run_handlers calls initial_world in
  let w' := snd (on_timer self ev env w) in
  (last_processed_date w <> Some (timestamp ev) ->
   cycles w' = S (cycles w) /\ time_triggers w' = S (time_triggers w))
  /\ (last_processed_date w = Some (timestamp ev) -> w' = w).
Proof.
  intros Hc w w'.
  assert (Hl : execution_lock w = false)
    by (apply run_handlers_lock; reflexivity).
  split; intros Hd.
  - assert (Hp : may_process ev w = true).
    { unfold may_process. rewrite Hl.
      destruct (last_processed_date w) as [d |] eqn:E; simpl;
        [| reflexivity].
      rewrite andb_true_r. apply negb_true_iff. apply Z.eqb_neq.
      intros ->. apply Hd. reflexivity. }
    destruct (on_timer_processes self ev env w Hc Hp)
      as (_ & _ & _ & Hn & Ht & _).
    split; [exact Hn | exact Ht].
  - unfold w'. rewrite on_timer_skips; [reflexivity |].
    right. unfold may_process. rewrite Hd. simpl.
    rewrite Z.eqb_refl. reflexivity.
Qed.

(** After the example callbacks, which end on
    day 2: a fire dated day 1 runs a third cycle. *)
Lemma fire_runs_on_another_day_example :
  let w := run_handlers Example.calls initial_world in
  let ev := Scenario.daily 1%Z in
  (is_coordinator Scenario.rcat_instance ev = true
   /\ last_processed_date w <> Some (timestamp ev))
  /\ cycles (snd (on_timer Scenario.rcat_instance ev Scenario.high_spread w))
     = 3%nat.
Proof.
  intros w ev.
  assert (Hc : is_coordinator Scenario.rcat_instance ev = true) by reflexivity.
  destruct example_calls_run as (_ & _ & _ & Hcyc & Hlast).
  fold w in Hcyc, Hlast.
  assert (Hd : last_processed_date w <> Some (timestamp ev))
    by (rewrite Hlast; discriminate).
  split; [split; assumption |].
  pose proof (proj1 (proj1 (fire_runs_on_another_day Example.calls
                              Scenario.rcat_instance ev Scenario.high_spread
                              Hc) Hd)) as Hrun.
  fold w in Hrun. rewrite Hcyc in Hrun. exact Hrun.
Defined.

(** * The transition table *)

(** The two order calls of an entry and the record that follows them. *)
Lemma entry_block_table (gw : Order -> Reply) (o1 o2 : Order)
    (target : Positions) (w : World) :
  let r := try_except (submit gw o1 ;; submit gw o2 ;; set_positions target)
                      (ret tt) w in
  let journal os := orders w ++ map (fun o => (o, gw o)) os in
  fst r = Ok tt
  /\ (gw o1 = Raises ->
      orders (snd r) = journal [o1]
      /\ shared_positions (snd r) = shared_positions w)
  /\ (gw o1 <> Raises -> gw o2 = Raises ->
      orders (snd r) = journal [o1; o2]
      /\ shared_positions (snd r) = shared_positions w)
  /\ (gw o1 <> Raises -> gw o2 <> Raises ->
      orders (snd r) = journal [o1; o2]
      /\ shared_positions (snd r) = target).
Proof.
  intros r journal.
  destruct (entry_block_cases gw o1 o2 target w)
    as [Hok [(R1 & O & P) | [(N1 & R2 & O & P) | (N1 & N2 & O & P)]]];
    fold r in Hok, O, P;
    (split; [exact Hok |]); unfold journal; simpl;
    repeat split; intros; try contradiction; try congruence; assumption.
Qed.

(** The closing calls and the reset that follows them. *)
Lemma close_table (env : Env) (w : World) (legs : list Order) :
  closing_orders (shared_positions w) = legs ->
  let r := close_positions env w in
  let journal os := orders w ++ map (fun o => (o, gateway env o)) os in
  fst r = Ok tt
  /\ ((forall o, In o legs -> gateway env o <> Raises) ->
      orders (snd r) = journal legs
      /\ shared_positions (snd r) = flat_positions)
  /\ ((exists o, In o legs /\ gateway env o = Raises) ->
      shared_positions (snd r) = shared_positions w
      /\ exists k, orders (snd r) = journal (firstn k legs)).
Proof.
  intros <- r journal.
  destruct (close_positions_cases env w) as (Hok & _ & Hk & Hall & Hsome).
  split; [exact Hok |]. split; [exact Hall |].
  intros Hr. split; [exact (Hsome Hr) | exact Hk].
Qed.

(** What the recorded positions are in each of the three states. *)
Lemma recorded_state (cfg : Config) (p : Positions) :
  recorded cfg p ->
  let leg sd sym :=
    {| side := sd; order_symbol := sym;
       algorithm := match sd with
                    | Buy => buy_algorithm
                    | Sell => sell_algorithm
                    end;
       intent := exit; order_quantity := None |} in
  match position_state p with
  | Flat => in_trade p = false
  | LongSpread =>
      in_trade p = true /\ trade_direction p = Some long_spread
      /\ closing_orders p = [leg Sell "UMAC"%string; leg Buy "RCAT"%string]
  | ShortSpread =>
      in_trade p = true /\ trade_direction p = Some short_spread
      /\ closing_orders p = [leg Buy "UMAC"%string; leg Sell "RCAT"%string]
  end.
Proof.
  intros [-> | (a & [Ha _] & Hb & [-> | ->])] leg; simpl.
  - reflexivity.
  - repeat split. unfold closing_orders, closing_order. simpl.
    rewrite (proj2 (Z.ltb_lt 0 a)) by lia.
    rewrite (proj2 (Z.ltb_ge 0 (- Py.int (IZR a * hedge_ratio cfg)))) by lia.
    rewrite (proj2 (Z.ltb_lt (- Py.int (IZR a * hedge_ratio cfg)) 0)) by lia.
    reflexivity.
  - repeat split. unfold closing_orders, closing_order. simpl.
    rewrite (proj2 (Z.ltb_ge 0 (- a))) by lia.
    rewrite (proj2 (Z.ltb_lt (- a) 0)) by lia.
    rewrite (proj2 (Z.ltb_lt 0 (Py.int (IZR a * hedge_ratio cfg)))) by lia.
    reflexivity.
Qed.

(** C7, as stated, fails on both kinds of rows.  From Flat with Z = 1.5 above
    the entry threshold 1.4, a buying power of 30 and a UMAC price of 20 size
    the entry at [int(15 / 20) = 0] shares: nothing is submitted and the
    state stays Flat.  From LongSpread with Z = 0 above minus the exit
    threshold, a closing call that raises leaves the state LongSpread. *)
Lemma signal_without_transition :
  let held := Scenario.holding Scenario.long_1000 in
  (position_state (shared_positions initial_world) = Flat
   /\ 15 / 10 > entry_threshold default_config
   /\ trading_logic default_config
        (Example.small_account Scenario.accept_all) (15 / 10) 20 15
        initial_world
      = (Ok tt, initial_world))
  /\ (position_state (shared_positions held) = LongSpread
      /\ 0 > - exit_threshold default_config
      /\ position_state
           (shared_positions
              (snd (trading_logic default_config
                      (Scenario.sizing_env Scenario.raise_all) 0 20 15 held)))
         = LongSpread).
Proof.
  intros held. split.
  - split; [reflexivity |]. split; [simpl; lra |].
    rewrite trading_logic_flat by reflexivity.
    rewrite check_entry_signals_short by (simpl; lra).
    rewrite enter_short_spread_sized by lra. cbv zeta.
    change (buying_power _) with 30.
    rewrite (int_floor (30 / 2 / 20) 0) by lra.
    reflexivity.
  - split; [reflexivity |]. split; [simpl; lra |].
    rewrite trading_logic_in_trade by reflexivity.
    destruct (check_exit_signals_cases default_config
                (Scenario.sizing_env Scenario.raise_all) 0 held)
      as (H1 & _).
    rewrite H1 by (try reflexivity; simpl; lra).
    destruct (close_positions_cases
                (Scenario.sizing_env Scenario.raise_all) held)
      as (_ & _ & _ & _ & Hsome).
    rewrite Hsome; [reflexivity |].
    eexists. split; [left; reflexivity | reflexivity].
Qed.

(** C7, amended: with a non-negative entry threshold and positions the
    strategy has recorded, one pass through the trading logic follows the
    table, and reaches the next state of a row exactly when the action of the
    row goes through.

    From Flat, [Z > entry_threshold] attempts the short entry (sell UMAC,
    buy RCAT) and [Z < -entry_threshold] the long entry (buy UMAC, sell
    RCAT); any other Z does nothing.  An attempt raises on a UMAC price of
    zero and submits nothing unless both sizes are positive; otherwise the
    UMAC order is submitted, then the RCAT order unless the first call
    raised, and the state becomes ShortSpread (LongSpread) when neither call
    raised and stays Flat when one did.

    From LongSpread, [Z > -exit_threshold] submits a sell of UMAC and a buy
    of RCAT, both with intent exit; from ShortSpread, [Z < exit_threshold]
    submits a buy of UMAC and a sell of RCAT.  The state becomes Flat when
    no closing call raised and is kept when one did.  Any other Z holds. *)
Theorem transition_table_when_filled (cfg : Config) (env : Env)
    (z pa pb : R) (w : World) :
  0 <= entry_threshold cfg ->
  recorded cfg (shared_positions w) ->
  let p := shared_positions w in
  let s := position_state p in
  let step := trading_logic cfg env z pa pb w in
  let p' := shared_positions (snd step) in
  let gw := gateway env in
  let a := Z.min (max_position_size cfg)
                 (Py.int (buying_power (account env) / 2 / pa)) in
  let b := Py.int (IZR a * hedge_ratio cfg) in
  let order sd sym i q :=
    {| side := sd; order_symbol := sym;
       algorithm := match sd with
                    | Buy => buy_algorithm
                    | Sell => sell_algorithm
                    end;
       intent := i; order_quantity := q |} in
  let journal os := orders w ++ map (fun o => (o, gw o)) os in
  let entry legA legB target :=
    (pa = 0 -> step = (Exc ZeroDivisionError, w))
    /\ (pa <> 0 -> ~ ((0 < a)%Z /\ (0 < b)%Z) -> step = (Ok tt, w))
    /\ (pa <> 0 -> (0 < a)%Z -> (0 < b)%Z ->
        fst step = Ok tt
        /\ (gw legA = Raises ->
            orders (snd step) = journal [legA] /\ p' = p)
        /\ (gw legA <> Raises -> gw legB = Raises ->
            orders (snd step) = journal [legA; legB] /\ p' = p)
        /\ (gw legA <> Raises -> gw legB <> Raises ->
            orders (snd step) = journal [legA; legB] /\ p' = target)) in
  let close legs :=
    fst step = Ok tt
    /\ ((forall o, In o legs -> gw o <> Raises) ->
        orders (snd step) = journal legs /\ p' = flat_positions)
    /\ ((exists o, In o legs /\ gw o = Raises) ->
        p' = p /\ exists k, orders (snd step) = journal (firstn k legs)) in
  (s = Flat ->
   (z > entry_threshold cfg ->
    entry (order Sell "UMAC"%string init (Some a))
          (order Buy "RCAT"%string init (Some b))
          {| umac := - a; rcat := b; in_trade := true;
             trade_direction := Some short_spread |})
   /\ (z < - entry_threshold cfg ->
       entry (order Buy "UMAC"%string init (Some a))
             (order Sell "RCAT"%string init (Some b))
             {| umac := a; rcat := - b; in_trade := true;
                trade_direction := Some long_spread |})
   /\ (- entry_threshold cfg <= z <= entry_threshold cfg ->
       step = (Ok tt, w)))
  /\ (s = LongSpread ->
      (z > - exit_threshold cfg ->
       close [order Sell "UMAC"%string exit None;
              order Buy "RCAT"%string exit None])
      /\ (z <= - exit_threshold cfg -> step = (Ok tt, w)))
  /\ (s = ShortSpread ->
      (z < exit_threshold cfg ->
       close [order Buy "UMAC"%string exit None;
              order Sell "RCAT"%string exit None])
      /\ (exit_threshold cfg <= z -> step = (Ok tt, w))).
Proof.
  intros Hentry Hrec p s step p' gw a b order journal entry close.
  pose proof (recorded_state cfg p Hrec) as Hstate. cbv zeta in Hstate.
  fold s in Hstate.
  split; [| split]; intros Hs; rewrite Hs in Hstate.
  - assert (Hstep : step = check_entry_signals cfg env z pa pb w)
      by (apply trading_logic_flat; exact Hstate).
    split; [| split]; intros Hz.
    + assert (E : step = enter_short_spread cfg env pa pb w)
        by (rewrite Hstep, check_entry_signals_short by exact Hz;
            reflexivity).
      unfold entry. split; [| split].
      * intros Hpa. rewrite E, Hpa. apply enter_short_spread_zero_price.
      * intros Hpa N.
        pose proof (enter_short_spread_sized cfg env pa pb w Hpa) as Hsz.
        cbv zeta in Hsz. fold a b in Hsz. rewrite <- E in Hsz.
        destruct (0 <? a)%Z eqn:Ea; [| exact Hsz].
        destruct (0 <? b)%Z eqn:Eb; [| exact Hsz].
        exfalso. apply N. split; apply Z.ltb_lt; assumption.
      * intros Hpa Ha Hb.
        destruct (enter_sized_blocks cfg env pa pb w Hpa Ha Hb) as [_ ES].
        fold a b in ES. unfold p'. rewrite E, ES.
        apply entry_block_table.
    + assert (E : step = enter_long_spread cfg env pa pb w)
        by (rewrite Hstep, check_entry_signals_long by lra; reflexivity).
      unfold entry. split; [| split].
      * intros Hpa. rewrite E, Hpa. apply enter_long_spread_zero_price.
      * intros Hpa N.
        pose proof (enter_long_spread_sized cfg env pa pb w Hpa) as Hsz.
        cbv zeta in Hsz. fold a b in Hsz. rewrite <- E in Hsz.
        destruct (0 <? a)%Z eqn:Ea; [| exact Hsz].
        destruct (0 <? b)%Z eqn:Eb; [| exact Hsz].
        exfalso. apply N. split; apply Z.ltb_lt; assumption.
      * intros Hpa Ha Hb.
        destruct (enter_sized_blocks cfg env pa pb w Hpa Ha Hb) as [EL _].
        fold a b in EL. unfold p'. rewrite E, EL.
        apply entry_block_table.
    + rewrite Hstep, check_entry_signals_none by exact Hz. reflexivity.
  - destruct Hstate as (Hin & Hd & Hlegs).
    assert (Hstep : step = check_exit_signals cfg env z w)
      by (apply trading_logic_in_trade; exact Hin).
    destruct (check_exit_signals_cases cfg env z w) as (H1 & H2 & _).
    split; intros Hz.
    + assert (E : step = close_positions env w)
        by (rewrite Hstep; apply H1; assumption).
      unfold close, p'. rewrite E. apply close_table. exact Hlegs.
    + rewrite Hstep. apply H2; assumption.
  - destruct Hstate as (Hin & Hd & Hlegs).
    assert (Hstep : step = check_exit_signals cfg env z w)
      by (apply trading_logic_in_trade; exact Hin).
    destruct (check_exit_signals_cases cfg env z w) as (_ & _ & H3 & H4 & _).
    split; intros Hz.
    + assert (E : step = close_positions env w)
        by (rewrite Hstep; apply H3; assumption).
      unfold close, p'. rewrite E. apply close_table. exact Hlegs.
    + rewrite Hstep. apply H4; assumption.
Qed.

(** On the two scenarios of the specification with a gateway that accepts
    every order: Z = 1.5 from Flat sells 1000 UMAC shares, buys 1389 RCAT
    shares and records the short spread; Z = 0.1 from that short spread buys
    UMAC back, sells RCAT and records no position. *)
Lemma transition_table_when_filled_scenarios :
  let env := Scenario.sizing_env Scenario.accept_all in
  let held := Scenario.holding Scenario.short_1000 in
  let order sd sym i q :=
    {| side := sd; order_symbol := sym;
       algorithm := match sd with
                    | Buy => buy_algorithm
                    | Sell => sell_algorithm
                    end;
       intent := i; order_quantity := q |} in
  let entered :=
    snd (trading_logic default_config env (15 / 10) 20 15 initial_world) in
  let closed :=
    snd (trading_logic default_config env (1 / 10) 20 15 held) in
  (0 <= entry_threshold default_config
   /\ recorded default_config (shared_positions initial_world)
   /\ recorded default_config (shared_positions held)
   /\ position_state (shared_positions initial_world) = Flat
   /\ position_state (shared_positions held) = ShortSpread
   /\ 15 / 10 > entry_threshold default_config
   /\ 1 / 10 < exit_threshold default_config)
  /\ (orders entered
      = [(order Sell "UMAC"%string init (Some 1000%Z), Accepted);
         (order Buy "RCAT"%string init (Some 1389%Z), Accepted)]
      /\ shared_positions entered = Scenario.short_1000
      /\ position_state (shared_positions entered) = ShortSpread)
  /\ (orders closed
      = [(order Buy "UMAC"%string exit None, Accepted);
         (order Sell "RCAT"%string exit None, Accepted)]
      /\ shared_positions closed = flat_positions
      /\ position_state (shared_positions closed) = Flat).
Proof.
  intros env held order entered closed.
  destruct scenario_sized as [Ha Hb]. cbv zeta in Ha. fold env in Ha.
  assert (H1 : 0 <= entry_threshold default_config) by (simpl; lra).
  assert (H2 : recorded default_config (shared_positions initial_world))
    by (left; reflexivity).
  assert (H3 : recorded default_config (shared_positions held)).
  { right. exists 1000%Z. rewrite Hb.
    split; [simpl; lia |]. split; [lia | right; reflexivity]. }
  assert (H4 : position_state (shared_positions initial_world) = Flat)
    by reflexivity.
  assert (H5 : position_state (shared_positions held) = ShortSpread)
    by reflexivity.
  assert (H6 : 15 / 10 > entry_threshold default_config) by (simpl; lra).
  assert (H7 : 1 / 10 < exit_threshold default_config) by (simpl; lra).
  assert (Hgw : forall o, gateway env o <> Raises) by (intros o; discriminate).
  split; [exact (conj H1 (conj H2 (conj H3 (conj H4 (conj H5 (conj H6 H7))))))
         |].
  split.
  - pose proof (transition_table_when_filled default_config env (15 / 10)
                  20 15 initial_world H1 H2) as T.
    cbv zeta in T. destruct T as [Hflat _].
    destruct (Hflat H4) as [Hshort _].
    destruct (Hshort H6) as (_ & _ & Hgo).
    rewrite Ha, Hb in Hgo.
    assert (Hpa : (20 : R) <> 0) by lra.
    destruct (Hgo Hpa eq_refl eq_refl) as (_ & _ & _ & Hfill).
    destruct (Hfill (Hgw _) (Hgw _)) as [Ho Hp].
    fold entered in Ho, Hp.
    split; [exact Ho |]. split; [exact Hp |]. rewrite Hp. reflexivity.
  - pose proof (transition_table_when_filled default_config env (1 / 10)
                  20 15 held H1 H3) as T.
    cbv zeta in T. destruct T as (_ & _ & Hshort).
    destruct (Hshort H5) as [Hclose _].
    destruct (Hclose H7) as (_ & Hgo & _).
    destruct (Hgo (fun o _ => Hgw o)) as [Ho Hp].
    fold closed in Ho, Hp.
    split; [exact Ho |]. split; [exact Hp |]. rewrite Hp. reflexivity.
Defined.
